(** * pymps: the subspace-angle engine and eigenvalue locator of [PolygonEVP]

    A shallow embedding of [src/pymps/mps.py] and of the quadrature
    rules of [src/pymps/quad.py].

    Conventions of the embedding.
    - A Python float is an exact rational ([Q]); NaN and the infinities are
      outside the model, except where the source builds [+inf] itself
      ([xfloat]).  Rounding is not modelled.
    - The dense linear algebra of [scipy.linalg] and [pygsvd] is a record of
      oracles ([Kernel]); [numpy]'s scalar constant and function form a
      second ([NumPy]); the helpers of [utils.py] that the methods call
      form a third ([Utils]); the collaborators of [__init__] ([bases.py]
      and the geometry helpers) form a fourth ([Geometry]).  The
      collaborators of the remaining methods ([Numerics], [BasisMethods],
      [PolygonUtils]) are introduced where they are first needed.
    - A Python exception is a value of [exn]; a call that can raise returns
      a [result].  The f-strings of the messages are kept as lists of
      fragments.
    - The [functools] caches are transparent for functions without effects
      and are not modelled. *)

From Stdlib Require Import List Bool Arith ZArith QArith Qabs Lia Lqa String.
From Stdlib Require Import Sorted Permutation.
Import ListNotations.
Open Scope Q_scope.

(** ** Exceptions and results *)

(** One piece of an f-string. *)
Inductive fragment : Type :=
| Lit (s : string)          (* literal text *)
| FmtFloat (x : Q)          (* {x} *)
| Fmt3e (x : Q)             (* {x:.3e} *)
| Fmt3eInf                  (* {x:.3e} for x = +inf *)
| FmtNat (n : nat).         (* {n} for an integer *)

Definition message := list fragment.

Inductive exn : Type :=
| ValueError (msg : message)
| IndexError
| AttributeError (attr : string)
| UnboundLocalError (var : string)
| NameError (var : string)
| TypeError (msg : message)
| LinAlgError.

Inductive result (A : Type) : Type :=
| Ok (a : A)
| Raise (e : exn).
Arguments Ok {A} a.
Arguments Raise {A} e.

Definition bind {A B : Type} (m : result A) (k : A -> result B) : result B :=
  match m with
  | Ok a => k a
  | Raise e => Raise e
  end.

Notation "x <- m ;; k" := (bind m (fun x => k))
  (at level 61, m at next level, right associativity).
Notation "' pat <- m ;; k" := (bind m (fun x => match x with pat => k end))
  (at level 61, pat pattern, m at next level, right associativity).

(** ** Floats, comparisons, counting *)

Definition Qltb (x y : Q) : bool := negb (Qle_bool y x).

(** [(mask).sum()] for a boolean mask built elementwise from [p]. *)
Definition count_where (p : Q -> bool) (l : list Q) : nat :=
  List.length (filter p l).

Definition Qmin (x y : Q) : Q := if Qle_bool x y then x else y.


(** [l[-1]] *)
Definition last_item (l : list Q) : result Q :=
  match rev l with
  | [] => Raise IndexError
  | x :: _ => Ok x
  end.

(** [l[0]] *)
Definition first_item (l : list Q) : result Q :=
  match l with
  | [] => Raise IndexError
  | x :: _ => Ok x
  end.

Definition ascending (l : list Q) : Prop := Sorted Qle l.
Definition descending (l : list Q) : Prop := Sorted (fun x y => y <= x) l.
Definition nonneg (l : list Q) : Prop := Forall (fun x => 0 <= x) l.

(** A float that may be [+inf]. *)
Inductive xfloat : Type :=
| Finite (q : Q)
| PosInf.

(** [x < y] for a possibly infinite [x] and a finite [y]. *)
Definition xltb (x : xfloat) (y : Q) : bool :=
  match x with
  | Finite q => Qltb q y
  | PosInf => false
  end.

Definition fmt3e_x (x : xfloat) : fragment :=
  match x with
  | Finite q => Fmt3e q
  | PosInf => Fmt3eInf
  end.

(** [np.divide(C,S,out=np.full(C.shape,np.inf),where=(S!=0))] for two
    1-dimensional arrays: [S] has the length of [C] or length one. *)
Definition divide_or_inf (C S : list Q) : result (list xfloat) :=
  let cell c s := if Qeq_bool s 0 then PosInf else Finite (c / s) in
  if Nat.eqb (List.length S) (List.length C) then
    Ok (map (fun cs => cell (fst cs) (snd cs)) (combine C S))
  else
    match S with
    | [s] => Ok (map (fun c => cell c s) C)
    | _ => Raise (ValueError [Lit "operands could not be broadcast together"])
    end.

(** ** Arrays *)

(** A 2-dimensional float array: its shape and its entries. *)
Record matrix : Type := mk_matrix {
  nrows : nat;
  ncols : nat;
  entry : nat -> nat -> Q
}.

(** [M[:a,:b]]: slices clamp to the shape. *)
Definition slice (M : matrix) (a b : nat) : matrix :=
  mk_matrix (Nat.min a (nrows M)) (Nat.min b (ncols M)) (entry M).

(** [M[:a]] and [M[a:]] *)
Definition rows_upto (M : matrix) (a : nat) : matrix :=
  mk_matrix (Nat.min a (nrows M)) (ncols M) (entry M).
Definition rows_from (M : matrix) (a : nat) : matrix :=
  mk_matrix (nrows M - a) (ncols M) (fun i j => entry M (a + i) j).

(** [M[-k:]] for [k > 0]: the last [k] rows (all of them when [k]
    exceeds the row count). *)
Definition last_rows (M : matrix) (k : nat) : matrix :=
  rows_from M (nrows M - k).

(** [M.T] *)
Definition transpose (M : matrix) : matrix :=
  mk_matrix (ncols M) (nrows M) (fun i j => entry M j i).

(** [np.diag(M)] of a 2-dimensional array. *)
Definition diag (M : matrix) : list Q :=
  map (fun i => entry M i i) (seq 0 (Nat.min (nrows M) (ncols M))).

(** [np.zeros((m,n))] *)
Definition zeros (m n : nat) : matrix := mk_matrix m n (fun _ _ => 0).

(** ** Collaborators *)

(** [scipy.linalg] and [pygsvd].  The factorizations are total; the two
    calls the source wraps in [try] or that LAPACK documents as failing
    return an option. *)
Record Kernel : Type := {
  (* la.qr(A, mode='economic', pivoting=True) -> Q, R, P *)
  la_qr_pivot : matrix -> matrix * matrix * list nat;
  (* la.qr(A, mode='economic') -> Q, R *)
  la_qr : matrix -> matrix * matrix;
  (* la.svd(M, compute_uv=False) -> s, descending *)
  la_svd_vals : matrix -> option (list Q);
  (* la.svd(M) -> U, s, Vh *)
  la_svd : matrix -> option (matrix * list Q * matrix);
  (* la.solve_triangular(T, B) *)
  la_solve_triangular : matrix -> matrix -> option matrix;
  (* la.lstsq(M, B)[0] *)
  la_lstsq : matrix -> matrix -> option matrix;
  (* la.eigh(M, eigvals_only=True) *)
  la_eigh : matrix -> list Q;
  (* gsvd(A, B, extras='') -> C, S, X *)
  gsvd : matrix -> matrix -> list Q * list Q * matrix
}.

(** [numpy] scalars. *)
Record NumPy : Type := {
  np_pi : Q;
  np_sqrt : Q -> Q
}.

(** [utils.py] is not part of the sources at hand: the two helpers the
    modelled methods call are oracles. *)
Record Utils : Type := {
  (* invert_permutation(P) *)
  invert_permutation : list nat -> list nat;
  (* minsearch(f, a, b, h, xtol=..., verbose=...) -> minima, evaluations *)
  minsearch : (Q -> result (list Q)) -> Q -> Q -> Q -> Q ->
              result (list Q * nat)
}.

(** ** The problem instance *)

(** The attributes of a [PolygonEVP] object.  The attributes that
    [__init__] sets only under [if bdry_nodes is not None] are options:
    [None] is an attribute that was never set. *)
Record PolygonEVP : Type := mk_evp {
  basis : Q -> matrix;                 (* self.basis(lambda_) *)
  n_vert : nat;
  boundary_pts : matrix;
  interior_pts : matrix;
  rtol : Q;
  mtol : Q;
  bdry_nodes : option matrix;
  bdry_weights : option (list Q);
  int_nodes : option matrix;
  int_weights : option (list Q);
  nodes : option matrix;
  weights : option matrix;             (* column vector *)
  n_basis : option (Q -> matrix);      (* self.n_basis(lambda_) *)
  area : Q;
  perimiter : Q;
  lambda_1_lb : Q;
  _ordered_eigs : list Q;
  _eigs : list Q
}.

(** [self.<name>] for an attribute that may be missing. *)
Definition getattr {A : Type} (name : string) (slot : option A) : result A :=
  match slot with
  | Some a => Ok a
  | None => Raise (AttributeError name)
  end.

(** [x if x is not None else d] as used for the tolerance arguments. *)
Definition default_to (d : Q) (x : option Q) : Q :=
  match x with
  | None => d
  | Some v => v
  end.

(** One axis of numpy broadcasting. *)
Definition broadcast_dim (a b : nat) : option nat :=
  if Nat.eqb a b then Some a
  else if Nat.eqb a 1 then Some b
  else if Nat.eqb b 1 then Some a
  else None.

Definition bcast_index (dim i : nat) : nat := if Nat.eqb dim 1 then 0%nat else i.

(** [X * Y] for two 2-dimensional arrays. *)
Definition broadcast_mul (X Y : matrix) : result matrix :=
  match broadcast_dim (nrows X) (nrows Y), broadcast_dim (ncols X) (ncols Y) with
  | Some m, Some n =>
      Ok (mk_matrix m n (fun i j =>
            entry X (bcast_index (nrows X) i) (bcast_index (ncols X) j) *
            entry Y (bcast_index (nrows Y) i) (bcast_index (ncols Y) j)))
  | _, _ => Raise (ValueError [Lit "operands could not be broadcast together"])
  end.

(** [X / Y] for two 2-dimensional arrays (no zero divisor in the model). *)
Definition broadcast_div (X Y : matrix) : result matrix :=
  match broadcast_dim (nrows X) (nrows Y), broadcast_dim (ncols X) (ncols Y) with
  | Some m, Some n =>
      Ok (mk_matrix m n (fun i j =>
            entry X (bcast_index (nrows X) i) (bcast_index (ncols X) j) /
            entry Y (bcast_index (nrows Y) i) (bcast_index (ncols Y) j)))
  | _, _ => Raise (ValueError [Lit "operands could not be broadcast together"])
  end.

(** [X @ Y] *)
Definition matmul (X Y : matrix) : result matrix :=
  if Nat.eqb (ncols X) (nrows Y) then
    Ok (mk_matrix (nrows X) (ncols Y) (fun i j =>
          fold_right Qplus 0
            (map (fun k => entry X i k * entry Y k j) (seq 0 (ncols X)))))
  else Raise (ValueError [Lit "matmul: dimension mismatch"]).

(** ** Subspace angle engine *)

Section Engine.

Variable K : Kernel.

(** [r = np.abs(np.diag(R)); cutoff = (r>r[0]*rtol).sum()] *)
Definition rank_cutoff (r : list Q) (rtol : Q) : result nat :=
  r0 <- first_item r ;;
  Ok (count_where (fun x => Qltb (r0 * rtol) x) r).

(** The [if pivot: ... else: ...] block shared by [subspace_sines] and
    [weighted_subspace_sines]: the orthonormal factor and the cutoff. *)
Definition qr_truncate (A : matrix) (rtol : Q) (pivot : bool)
  : result (matrix * nat) :=
  if pivot then
    let '(Qm, R, _) := la_qr_pivot K A in
    let r := map Qabs (diag R) in
    cutoff <- rank_cutoff r rtol ;;
    Ok (Qm, cutoff)
  else
    let '(Qm, R) := la_qr K A in
    Ok (Qm, ncols Qm).

(** [try: return la.svd(Q[:m_b,:cutoff],compute_uv=False)[::-1]
     except: raise ValueError(f'non-finite SVD for lam={lambda_}')] *)
Definition reversed_singular_values (Qm : matrix) (m_b cutoff : nat) (lambda_ : Q)
  : result (list Q) :=
  match la_svd_vals K (slice Qm m_b cutoff) with
  | Some s => Ok (rev s)
  | None => Raise (ValueError [Lit "non-finite SVD for lam="; FmtFloat lambda_])
  end.

Definition subspace_sines (self : PolygonEVP) (lambda_ : Q)
    (rtol_ : option Q) (pivot : bool) : result (list Q) :=
  let rtol := default_to (self.(rtol)) rtol_ in
  let A := self.(basis) lambda_ in
  let m_b := nrows self.(boundary_pts) in
  '(Qm, cutoff) <- qr_truncate A rtol pivot ;;
  reversed_singular_values Qm m_b cutoff lambda_.

Definition weighted_subspace_sines (self : PolygonEVP) (lambda_ : Q)
    (rtol_ : option Q) (pivot : bool) : result (list Q) :=
  let rtol := default_to (self.(rtol)) rtol_ in
  w <- getattr "weights" self.(weights) ;;
  nb <- getattr "n_basis" self.(n_basis) ;;
  A <- broadcast_mul w (nb lambda_) ;;
  bn <- getattr "bdry_nodes" self.(bdry_nodes) ;;
  let m_b := nrows bn in
  '(Qm, cutoff) <- qr_truncate A rtol pivot ;;
  reversed_singular_values Qm m_b cutoff lambda_.

(** [sigma]: the smallest subspace sine. *)
Definition sigma (self : PolygonEVP) (lambda_ : Q)
    (rtol_ : option Q) (pivot : bool) : result Q :=
  let rtol := default_to (self.(rtol)) rtol_ in
  s <- subspace_sines self lambda_ (Some rtol) pivot ;;
  first_item s.

End Engine.

(** ** GSVD tangents *)

Section Tangents.

Variable K : Kernel.

(** Reading a name that is local to the running function: [None] is a
    local that has no binding yet. *)
Definition read_local {A : Type} (name : string) (binding : option A)
  : result A :=
  match binding with
  | Some v => Ok v
  | None => Raise (UnboundLocalError name)
  end.

(** [gsvd_subspace_tans(self, lambda_)].  Its first statement,
    [if rtol is None: rtol = self.rtol], assigns [rtol], so [rtol] is a
    local of the function; it is not a parameter, and the test reads it
    before any assignment. *)
Definition gsvd_subspace_tans (self : PolygonEVP) (lambda_ : Q)
  : result (list xfloat) :=
  let rtol_binding : option (option Q) := None in
  v <- read_local "rtol" rtol_binding ;;
  let rtol := default_to (self.(rtol)) v in
  let A := self.(basis) lambda_ in
  let m_b := nrows self.(boundary_pts) in
  let '(Cv, Sv, _) := gsvd K (rows_upto A m_b) (rows_from A m_b) in
  t <- divide_or_inf Cv Sv ;;
  Ok (rev t).

(** [gsvd_weighted_subspace_tans(self, lambda_)]: the same computation on
    the quadrature-weighted matrix, without the tolerance line. *)
Definition gsvd_weighted_subspace_tans (self : PolygonEVP) (lambda_ : Q)
  : result (list xfloat) :=
  w <- getattr "weights" self.(weights) ;;
  nb <- getattr "n_basis" self.(n_basis) ;;
  A <- broadcast_mul w (nb lambda_) ;;
  bn <- getattr "bdry_nodes" self.(bdry_nodes) ;;
  let m_b := nrows bn in
  let '(Cv, Sv, _) := gsvd K (rows_upto A m_b) (rows_from A m_b) in
  t <- divide_or_inf Cv Sv ;;
  Ok (rev t).

End Tangents.

(** ** Eigenbasis extractor *)

Section Extractor.

Variable K : Kernel.
Variable U : Utils.

(** The message of the zero-multiplicity error:
    [f'lambda = {lambda_:.3e} has multiplicity zero (sigma = {s[-1]:.3e} > {mtol} = mtol)'] *)
Definition zero_multiplicity_msg (lambda_ : Q) (sigma_frag : fragment) (mtol : Q)
  : message :=
  [Lit "lambda = "; Fmt3e lambda_; Lit " has multiplicity zero (sigma = ";
   sigma_frag; Lit " > "; FmtFloat mtol; Lit " = mtol)"].

(** [try: _,s,Vh = la.svd(Q[:m_b,:cutoff]) except: raise ValueError('non-finite SVD')]
    followed by [mult = (s<mtol).sum()] and the zero-multiplicity test.
    The message is built before the error is raised, so [s[-1]] is
    evaluated first. *)
Definition svd_multiplicity (Qm : matrix) (m_b cutoff : nat) (lambda_ mtol : Q)
  : result (nat * matrix) :=
  '(_, s, Vh) <- match la_svd K (slice Qm m_b cutoff) with
                 | Some usv => Ok usv
                 | None => Raise (ValueError [Lit "non-finite SVD"])
                 end ;;
  let mult := count_where (fun x => Qltb x mtol) s in
  if Nat.eqb mult 0 then
    s_last <- last_item s ;;
    Raise (ValueError (zero_multiplicity_msg lambda_ (Fmt3e s_last) mtol))
  else Ok (mult, Vh).

(** [C[:c] = X] *)
Definition assign_rows_upto (C : matrix) (c : nat) (X : matrix) : result matrix :=
  let m := Nat.min c (nrows C) in
  if (Nat.eqb (nrows X) m || Nat.eqb (nrows X) 1)
     && (Nat.eqb (ncols X) (ncols C) || Nat.eqb (ncols X) 1) then
    Ok (mk_matrix (nrows C) (ncols C) (fun i j =>
          if Nat.ltb i m
          then entry X (bcast_index (nrows X) i) (bcast_index (ncols X) j)
          else entry C i j))
  else Raise (ValueError [Lit "could not broadcast input array"]).

(** [C[idx]] for an index array. *)
Definition take_rows (C : matrix) (idx : list nat) : result matrix :=
  if forallb (fun p => Nat.ltb p (nrows C)) idx then
    Ok (mk_matrix (List.length idx) (ncols C) (fun i j => entry C (nth i idx 0%nat) j))
  else Raise IndexError.

Definition eigenbasis_coef (self : PolygonEVP) (lambda_ : Q)
    (rtol_ mtol_ : option Q) : result matrix :=
  let rtol := default_to (self.(rtol)) rtol_ in
  let mtol := default_to (self.(mtol)) mtol_ in
  w <- getattr "weights" self.(weights) ;;
  nb <- getattr "n_basis" self.(n_basis) ;;
  A <- broadcast_mul w (nb lambda_) ;;
  bn <- getattr "bdry_nodes" self.(bdry_nodes) ;;
  let m_b := nrows bn in
  let '(Qm, R, P) := la_qr_pivot K A in
  let Pinv := invert_permutation U P in
  let r := map Qabs (diag R) in
  cutoff <- rank_cutoff r rtol ;;
  '(mult, Vh) <- svd_multiplicity Qm m_b cutoff lambda_ mtol ;;
  let C := zeros (ncols A) mult in
  X <- match la_solve_triangular K (slice R cutoff cutoff)
                                   (transpose (last_rows Vh mult)) with
       | Some X => Ok X
       | None => Raise LinAlgError
       end ;;
  C' <- assign_rows_upto C cutoff X ;;
  take_rows C' Pinv.

(** [np.eye(n)[:,-k:]] for [k > 0] *)
Definition eye_last_cols (n k : nat) : matrix :=
  mk_matrix n (Nat.min k n) (fun i j =>
    if Nat.eqb i (n - Nat.min k n + j) then 1 else 0).

Definition gsvd_eigenbasis_coef (self : PolygonEVP) (lambda_ : Q)
    (mtol_ : option Q) : result matrix :=
  let mtol := default_to (self.(mtol)) mtol_ in
  w <- getattr "weights" self.(weights) ;;
  nb <- getattr "n_basis" self.(n_basis) ;;
  A <- broadcast_mul w (nb lambda_) ;;
  bn <- getattr "bdry_nodes" self.(bdry_nodes) ;;
  let m_b := nrows bn in
  let '(Cv, Sv, Xm) := gsvd K (rows_upto A m_b) (rows_from A m_b) in
  s <- divide_or_inf Cv Sv ;;
  let mult := List.length (filter (fun x => xltb x mtol) s) in
  if Nat.eqb mult 0 then
    match rev s with
    | [] => Raise IndexError
    | s_last :: _ =>
        Raise (ValueError (zero_multiplicity_msg lambda_ (fmt3e_x s_last) mtol))
    end
  else
    match la_lstsq K (transpose Xm) (eye_last_cols (nrows (transpose Xm)) mult) with
    | Some sol => Ok sol
    | None => Raise LinAlgError
    end.

Definition eigenbasis_node_eval (self : PolygonEVP) (lambda_ : Q)
    (rtol_ mtol_ : option Q) : result matrix :=
  let rtol := default_to (self.(rtol)) rtol_ in
  let mtol := default_to (self.(mtol)) mtol_ in
  w <- getattr "weights" self.(weights) ;;
  nb <- getattr "n_basis" self.(n_basis) ;;
  A <- broadcast_mul w (nb lambda_) ;;
  bn <- getattr "bdry_nodes" self.(bdry_nodes) ;;
  let m_b := nrows bn in
  let '(Qm, R, _) := la_qr_pivot K A in
  let r := map Qabs (diag R) in
  cutoff <- rank_cutoff r rtol ;;
  '(mult, Vh) <- svd_multiplicity Qm m_b cutoff lambda_ mtol ;;
  prod <- matmul (mk_matrix (nrows Qm) (Nat.min cutoff (ncols Qm)) (entry Qm))
                 (transpose (last_rows Vh mult)) ;;
  w' <- getattr "weights" self.(weights) ;;
  broadcast_div prod w'.

End Extractor.

(** ** Shape derivative *)

(** A 3-dimensional float array. *)
Record tensor3 : Type := mk_tensor3 {
  t_shape : nat * nat * nat;
  t_entry : nat -> nat -> nat -> Q
}.

Definition t_shape1 (X : tensor3) : nat := snd (fst (t_shape X)).

(** [X.flatten()] *)
Definition flatten3 (X : tensor3) : list Q :=
  let '(a, b, c) := t_shape X in
  flat_map (fun i =>
    flat_map (fun j => map (fun k => t_entry X i j k) (seq 0 c)) (seq 0 b))
    (seq 0 a).

(** [X @ v] for a 3-dimensional [X] and a 1-dimensional [v]. *)
Definition contract3 (X : tensor3) (v : list Q) : result matrix :=
  let '(a, b, c) := t_shape X in
  if Nat.eqb c (List.length v) then
    Ok (mk_matrix a b (fun i j =>
          fold_right Qplus 0
            (map (fun k => t_entry X i j k * nth k v 0) (seq 0 c))))
  else Raise (ValueError [Lit "matmul: dimension mismatch"]).

(** [X + Y] for two 2-dimensional arrays. *)
Definition broadcast_add (X Y : matrix) : result matrix :=
  match broadcast_dim (nrows X) (nrows Y), broadcast_dim (ncols X) (ncols Y) with
  | Some m, Some n =>
      Ok (mk_matrix m n (fun i j =>
            entry X (bcast_index (nrows X) i) (bcast_index (ncols X) j) +
            entry Y (bcast_index (nrows Y) i) (bcast_index (ncols Y) j)))
  | _, _ => Raise (ValueError [Lit "operands could not be broadcast together"])
  end.

(** What [dlambda] returns: the flattened gradient pair, the scalar
    directional derivative, or the eigenvalues of the projected matrix. *)
Inductive dlambda_value : Type :=
| Gradient (gx gy : list Q)
| Directional (d : Q)
| DirectionalEigs (e : list Q).

(** A name that is neither a parameter nor assigned in the function is
    looked up among the module globals. *)
Definition lookup_global {A : Type} (name : string) (binding : option A)
  : result A :=
  match binding with
  | Some v => Ok v
  | None => Raise (NameError name)
  end.

(** Binding keyword arguments to a signature: a keyword that names no
    parameter is a [TypeError]. *)
Definition reject_unknown_keywords (fname : string)
    (params keywords : list string) : result unit :=
  match filter (fun k => negb (existsb (String.eqb k) params)) keywords with
  | [] => Ok tt
  | k :: _ => Raise (TypeError [Lit fname;
                                Lit "() got an unexpected keyword argument '";
                                Lit k; Lit "'"])
  end.

(** [_, mult = x] for a float [x]. *)
Definition unpack_pair_of_float (x : Q) : result (Q * nat) :=
  Raise (TypeError [Lit "cannot unpack non-iterable float object"]).

(** The message of the repeated-eigenvalue error. *)
Definition repeated_eigenvalue_msg (mult : nat) : message :=
  [Lit "Repeated eigenvalues only have a directional derivative (mult = ";
   FmtNat mult; Lit ")"].

Section Sensitivity.

Variable K : Kernel.

(** The binding of the name [btol] among the globals of the module:
    nothing in [mps.py] defines it, so there is one only if
    [from .utils import *] brings it. *)
Variable global_btol : option Q.

(** [self._gram_tensors(lambda_,n,rtol,mtol)], whose body needs
    [calc_dists] and [calc_normals] of [utils.py] and the gradient of the
    basis. *)
Variable gram_tensors : Q -> nat -> Q -> Q -> result (tensor3 * tensor3).

(** The parameters of [sigma(self, lambda_, rtol=None, pivot=True)]. *)
Definition sigma_params : list string := ["lambda_"; "rtol"; "pivot"]%string.

(** The statements of [dlambda] after the multiplicity is known. *)
Definition dlambda_after_multiplicity (lambda_ : Q) (dx dy : option (list Q))
    (n : nat) (rtol mtol : Q) (mult : nat) : result dlambda_value :=
  if Nat.ltb 1 mult && (match dx with None => true | Some _ => false end) then
    Raise (ValueError (repeated_eigenvalue_msg mult))
  else
    '(X, Y) <- gram_tensors lambda_ n rtol mtol ;;
    if negb (Nat.eqb (t_shape1 X) mult) then
      Raise (ValueError [Lit "Multiplicity mismatch: "; FmtNat mult;
                         Lit " != "; FmtNat (t_shape1 X)])
    else
      match dx, dy with
      | Some dxa, Some dya =>
          Xd <- contract3 X dxa ;;
          Yd <- contract3 Y dya ;;
          M <- broadcast_add Xd Yd ;;
          if Nat.eqb mult 1 then
            if Nat.ltb 0 (nrows M) && Nat.ltb 0 (ncols M)
            then Ok (Directional (entry M 0 0))
            else Raise IndexError
          else Ok (DirectionalEigs (la_eigh K M))
      | _, _ => Ok (Gradient (flatten3 X) (flatten3 Y))
      end.

(** [dlambda(self,lambda_,dx=None,dy=None,n=20,rtol=None,mtol=None)];
    a direction is a pair of 1-dimensional arrays. *)
Definition dlambda (self : PolygonEVP) (lambda_ : Q) (dx dy : option (list Q))
    (n : nat) (rtol_ mtol_ : option Q) : result dlambda_value :=
  let rtol := default_to (self.(rtol)) rtol_ in
  let mtol := default_to (self.(mtol)) mtol_ in
  _ <- match dx, dy with
       | None, None => Ok tt
       | Some dxa, Some dya =>
           if negb (Nat.eqb (List.length dxa) self.(n_vert))
              || negb (Nat.eqb (List.length dya) self.(n_vert))
           then Raise (ValueError [Lit "dx and dy must both be length ";
                                   FmtNat self.(n_vert)])
           else Ok tt
       | _, _ => Raise (ValueError
                          [Lit "dx and dy must both be set, or left unset"])
       end ;;
  (* _,mult = self.sigma(lambda_,rtol,btol,mult_check=True) *)
  btol <- lookup_global "btol" global_btol ;;
  _ <- reject_unknown_keywords "sigma" sigma_params ["mult_check"%string] ;;
  sg <- sigma K self lambda_ (Some rtol) (negb (Qeq_bool btol 0)) ;;
  '(_, mult) <- unpack_pair_of_float sg ;;
  dlambda_after_multiplicity lambda_ dx dy n rtol mtol mult.

End Sensitivity.

(** ** Construction *)

(** An array of any dimension, as [np.asarray] hands it over: its shape
    and its items by multi-index. *)
Record ndarray : Type := mk_ndarray {
  shape : list nat;
  item : list nat -> Q
}.

Definition ndim (a : ndarray) : nat := List.length (shape a).

(** [a.T]: the axes reversed (the array itself when it has one axis). *)
Definition T (a : ndarray) : ndarray :=
  mk_ndarray (rev (shape a)) (fun idx => item a (rev idx)).

(** [a.shape[i]] *)
Definition shape_at (a : ndarray) (i : nat) : result nat :=
  match nth_error (shape a) i with
  | Some d => Ok d
  | None => Raise IndexError
  end.

(** A validated coordinate array seen as a matrix. *)
Definition as_matrix (a : ndarray) : matrix :=
  mk_matrix (nth 0 (shape a) 0%nat) (nth 1 (shape a) 0%nat)
            (fun i j => item a [i; j]).

(** The messages of the two shape errors. *)
Definition shape_msg (name : string) : message :=
  [Lit name; Lit " must be a 2-dimensional array of x & y coordinates"].

(** The block that brings a coordinate array to shape (m,2):
    [if a.shape[0] == 2: a = a.T]
    [if a.shape[1] != 2 or a.ndim != 2: raise ValueError(...)] *)
Definition process_pts (name : string) (a : ndarray) : result ndarray :=
  s0 <- shape_at a 0 ;;
  let a := if Nat.eqb s0 2 then T a else a in
  s1 <- shape_at a 1 ;;
  if negb (Nat.eqb s1 2) || negb (Nat.eqb (ndim a) 2)
  then Raise (ValueError (shape_msg name))
  else Ok a.

(** A point argument: a count ([type(...) is int]) or anything else, seen
    through [np.asarray]. *)
Inductive pts_arg : Type :=
| PtsInt (n : Z)
| PtsArray (a : ndarray).

(** [np.asarray] of a point argument: an integer becomes a 0-dimensional
    array. *)
Definition asarray (p : pts_arg) : ndarray :=
  match p with
  | PtsInt n => mk_ndarray [] (fun _ => inject_Z n)
  | PtsArray a => a
  end.

(** The object [FourierBesselBasis(vertices,orders)] of [bases.py]: the
    attributes [__init__] reads and the evaluation on a point set. *)
Record basis_obj : Type := {
  b_vertices : matrix;
  b_n_vert : nat;
  b_orders : list Z;
  b_eval : matrix -> Q -> matrix
}.

(** The collaborators of [__init__]: [bases.py], the geometry helpers of
    [utils.py], and the [boundary_nodes] that [mps.py] imports from
    [quad.py]. *)
Record Geometry : Type := {
  FourierBesselBasis : matrix -> list Z -> basis_obj;
  boundary_points : list Q -> list Q -> Z -> option (list Z) -> ndarray;
  boundary_nodes : matrix -> Z -> string -> option (list Z) -> ndarray;
  interior_points : list Q -> list Q -> Z -> ndarray;
  polygon_area : list Q -> list Q -> Q;
  polygon_perimiter : list Q -> list Q -> Q
}.

(** The arguments of [PolygonEVP(...)]. *)
Record init_args : Type := {
  arg_vertices : matrix;
  arg_orders : list Z;
  arg_boundary_pts : pts_arg;
  arg_interior_pts : pts_arg;
  arg_boundary_method : string;
  arg_interior_method : string;
  arg_bdry_nodes : option matrix;
  arg_bdry_weights : option (list Q);
  arg_int_nodes : option matrix;
  arg_int_weights : option (list Q)
}.

(** [x, y = M.T] *)
Definition unpack_xy (M : matrix) : result (list Q * list Q) :=
  if Nat.eqb (ncols M) 2 then
    Ok (map (fun i => entry M i 0) (seq 0 (nrows M)),
        map (fun i => entry M i 1) (seq 0 (nrows M)))
  else Raise (ValueError [Lit "wrong number of values to unpack"]).

(** Index of the first positive order, [np.argwhere(orders>0)[0]]. *)
Fixpoint first_positive (orders : list Z) (i : Z) : Z :=
  match orders with
  | [] => i
  | o :: rest => if Z.ltb 0 o then i else first_positive rest (i + 1)%Z
  end.

(** The [skip] argument of the boundary samplers. *)
Definition skip_of (orders : list Z) : option (list Z) :=
  if Nat.eqb (List.length (filter (Z.ltb 0) orders)) 1 then
    let idx := first_positive orders 0%Z in
    Some [(idx - 1)%Z; idx]
  else None.

(** [np.concatenate((a,b))] for two 2-dimensional arrays, either of which
    may be [None]. *)
Definition concat_rows (a b : option matrix) : result matrix :=
  match a, b with
  | Some a, Some b =>
      if Nat.eqb (ncols a) (ncols b) then
        Ok (mk_matrix (nrows a + nrows b) (ncols a) (fun i j =>
              if Nat.ltb i (nrows a) then entry a i j
              else entry b (i - nrows a) j))
      else Raise (ValueError [Lit "all the input array dimensions must match"])
  | _, _ => Raise (ValueError
                     [Lit "zero-dimensional arrays cannot be concatenated"])
  end.

(** [np.concatenate((a,b))] for two 1-dimensional arrays. *)
Definition concat_vec (a b : option (list Q)) : result (list Q) :=
  match a, b with
  | Some a, Some b => Ok (a ++ b)
  | _, _ => Raise (ValueError
                     [Lit "zero-dimensional arrays cannot be concatenated"])
  end.

(** [v[:,np.newaxis]] *)
Definition column (v : list Q) : matrix :=
  mk_matrix (List.length v) 1 (fun i _ => nth i v 0).

Section Construction.

Variable NP : NumPy.
Variable G : Geometry.

(** The attributes set under [if bdry_nodes is not None]. *)
Record quadrature : Type := {
  q_nodes : matrix;
  q_weights : matrix;
  q_n_basis : Q -> matrix
}.

Definition quadrature_block (a : init_args) : result (option quadrature) :=
  match arg_bdry_nodes a with
  | None => Ok None
  | Some bn =>
      nd <- concat_rows (Some bn) (arg_int_nodes a) ;;
      qw <- concat_vec (arg_bdry_weights a) (arg_int_weights a) ;;
      let w := column (map (np_sqrt NP) qw) in
      let nb := FourierBesselBasis G (arg_vertices a) (arg_orders a) in
      if Nat.eqb (ncols nd) 2 then
        Ok (Some {| q_nodes := nd; q_weights := w; q_n_basis := b_eval nb nd |})
      else Raise (TypeError
                    [Lit "set_default_points() takes 3 positional arguments"])
  end.

(** [PolygonEVP.__init__].  The attributes [vertices], [orders], [points]
    and [edge_idx] are read by none of the methods modelled here and are
    not kept; the [print] before the boundary error is not modelled. *)
Definition init (a : init_args) : result PolygonEVP :=
  let b := FourierBesselBasis G (arg_vertices a) (arg_orders a) in
  '(x_v, y_v) <- unpack_xy (b_vertices b) ;;
  (* catch integer argument to construct boundary points *)
  let bp_arg :=
    match arg_boundary_pts a with
    | PtsInt n =>
        let skip := skip_of (b_orders b) in
        if String.eqb (arg_boundary_method a) "even"
        then PtsArray (boundary_points G x_v y_v n skip)
        else PtsArray (boundary_nodes G (arg_vertices a) n
                                      (arg_boundary_method a) skip)
    | PtsArray arr => PtsArray arr
    end in
  bp <- process_pts "boundary_pts" (asarray bp_arg) ;;
  (* catch integer argument to construct interior points *)
  let ip_arg :=
    match arg_interior_pts a with
    | PtsInt n =>
        if String.eqb (arg_interior_method a) "random"
        then PtsArray (interior_points G x_v y_v n)
        else PtsInt n
    | PtsArray arr => PtsArray arr
    end in
  ip <- process_pts "interior_pts" (asarray ip_arg) ;;
  pts <- concat_rows (Some (as_matrix bp)) (Some (as_matrix ip)) ;;
  q <- quadrature_block a ;;
  let A := polygon_area G x_v y_v in
  Ok {| basis := b_eval b pts;
        n_vert := b_n_vert b;
        boundary_pts := as_matrix bp;
        interior_pts := as_matrix ip;
        rtol := 0;
        mtol := 1e-4;
        bdry_nodes := match q with Some _ => arg_bdry_nodes a | None => None end;
        bdry_weights := match q with Some _ => arg_bdry_weights a | None => None end;
        int_nodes := match q with Some _ => arg_int_nodes a | None => None end;
        int_weights := match q with Some _ => arg_int_weights a | None => None end;
        nodes := option_map q_nodes q;
        weights := option_map q_weights q;
        n_basis := option_map q_n_basis q;
        area := A;
        perimiter := polygon_perimiter G x_v y_v;
        lambda_1_lb := 5.76 * np_pi NP / A;
        _ordered_eigs := [];
        _eigs := [] |}.

End Construction.

(** ** Eigenvalue registry *)

(** [np.sort] of a 1-dimensional float array. *)
Fixpoint insert_sorted (x : Q) (l : list Q) : list Q :=
  match l with
  | [] => [x]
  | y :: rest => if Qle_bool x y then x :: y :: rest
                 else y :: insert_sorted x rest
  end.

Definition np_sort (l : list Q) : list Q := fold_right insert_sorted [] l.

(** The property [ordered_eigs]: its getter ... *)
Definition ordered_eigs (self : PolygonEVP) : list Q :=
  np_sort self.(_ordered_eigs).

(** ... and its setter. *)
Definition set_ordered_eigs (self : PolygonEVP) (arr : list Q) : PolygonEVP :=
  {| basis := self.(basis); n_vert := self.(n_vert);
     boundary_pts := self.(boundary_pts); interior_pts := self.(interior_pts);
     rtol := self.(rtol); mtol := self.(mtol);
     bdry_nodes := self.(bdry_nodes); bdry_weights := self.(bdry_weights);
     int_nodes := self.(int_nodes); int_weights := self.(int_weights);
     nodes := self.(nodes); weights := self.(weights);
     n_basis := self.(n_basis);
     area := self.(area); perimiter := self.(perimiter);
     lambda_1_lb := self.(lambda_1_lb);
     _ordered_eigs := np_sort arr;
     _eigs := self.(_eigs) |}.

(** [grows a b]: the registry [b] is the registry [a] with further
    values appended and the whole sorted again. *)
Definition grows (a b : list Q) : Prop :=
  exists extra, b = np_sort (a ++ extra).

(** ** Eigenvalue locator *)

(** A loop of the source runs on fuel: [OutOfFuel] is a run that did not
    finish within it. *)
Inductive outcome (A : Type) : Type :=
| Done (a : A)
| Failed (e : exn)
| OutOfFuel.
Arguments Done {A} a.
Arguments Failed {A} e.
Arguments OutOfFuel {A}.

Definition Q_of_nat (n : nat) : Q := inject_Z (Z.of_nat n).

(** [min] of a non-empty 1-dimensional array. *)
Definition list_min (x : Q) (l : list Q) : Q := fold_right Qmin x l.

Section Locator.

Variable K : Kernel.
Variable U : Utils.
Variable NP : NumPy.

Definition weyl_k (self : PolygonEVP) (k : nat) : Q :=
  let A := self.(area) in
  let P := self.(perimiter) in
  ((P + np_sqrt NP (P ^ 2 + 16 * np_pi NP * A * Q_of_nat k)) / (2 * A)) ^ 2.

(** The closure [obj] of [solve_ordered_eigs]: the tangents of the two
    smallest subspace angles. *)
Definition obj (self : PolygonEVP) (x : Q) : result (list Q) :=
  s <- subspace_sines K self x None true ;;
  let sines := firstn 2 s in
  Ok (map (fun si => si / np_sqrt NP (1 - si ^ 2)) sines).

(** [while end+1e8*xtol < start: lev += 1; end = self.weyl_k(k_current+lev)] *)
Fixpoint escalate (fuel : nat) (self : PolygonEVP) (xtol : Q) (k_current : nat)
    (start end_ : Q) (lev : nat) : option (Q * nat) :=
  if Qltb (end_ + 1e8 * xtol) start then
    match fuel with
    | O => None
    | S fuel' =>
        escalate fuel' self xtol k_current start
                 (weyl_k self (k_current + (lev + 1))) (lev + 1)
    end
  else Some (end_, lev).

(** [h = (end-start)/n_pts] with [n_pts = 20*lev] *)
Definition stepsize (start end_ : Q) (lev : nat) : Q :=
  let n_pts := (20 * lev)%nat in
  (end_ - start) / Q_of_nat n_pts.

(** The variables of the [while] loop of [solve_ordered_eigs] that live
    across rounds. *)
Record scan_state : Type := mk_scan {
  evp : PolygonEVP;
  fevals : nat;
  extend : bool;
  start : Q;
  end_ : Q;
  lev : nat
}.

(** The first half of a round: the starting point, the end of the
    bracket, the escalation level and the step. *)
Definition scan_bracket (fuel : nat) (xtol : Q) (st : scan_state)
  : option (Q * Q * nat * Q) :=
  let self := evp st in
  let k_current := List.length (ordered_eigs self) in
  (* set starting point *)
  let start0 :=
    if extend st then start st
    else if Nat.eqb k_current 0 then self.(lambda_1_lb)
    else nth (k_current - 1) (ordered_eigs self) 0 in
  (* search up to Weyl asymptotic guess *)
  match (if negb (extend st)
         then escalate fuel self xtol k_current start0
                       (weyl_k self (k_current + 1)) 1
         else Some (end_ st, lev st)) with
  | None => None
  | Some (end0, lev0) => Some (start0, end0, lev0, stepsize start0 end0 lev0)
  end.

(** [is_duplicate] *)
Definition is_duplicate (self : PolygonEVP) (x_min xtol : Q) : bool :=
  match map (fun e => Qabs (x_min - e)) (ordered_eigs self) with
  | [] => false
  | d :: ds => Qltb (list_min d ds) xtol
  end.

(** [for x_min in minima: ...] *)
Fixpoint process_minima (self : PolygonEVP) (k : nat) (xtol ytol : Q)
    (verbose : bool) (minima : list Q) : result PolygonEVP :=
  match minima with
  | [] => Ok self
  | x_min :: rest =>
      _ <- (if verbose then (o <- obj self x_min ;; first_item o)
            else Ok 0) ;;
      s <- subspace_sines K self x_min None true ;;
      let mult := count_where (fun v => Qltb v ytol) s in
      let dup := is_duplicate self x_min xtol in
      if negb dup && Nat.ltb 0 mult then
        let self' :=
          set_ordered_eigs self (ordered_eigs self ++ repeat x_min mult) in
        if Nat.leb k (List.length (ordered_eigs self')) then Ok self'
        else process_minima self' k xtol ytol verbose rest
      else process_minima self k xtol ytol verbose rest
  end.

(** One round of the [while len(self.ordered_eigs)<k] loop. *)
Definition scan_round (fuel : nat) (k : nat) (xtol ytol : Q) (verbose : bool)
    (st : scan_state) : outcome scan_state :=
  let self := evp st in
  let k_current := List.length (ordered_eigs self) in
  match scan_bracket fuel xtol st with
  | None => OutOfFuel
  | Some (start0, end0, lev0, h) =>
      (* add ghost points if needed *)
      let start1 := if negb (Nat.eqb k_current 0) then start0 - h else start0 in
      match minsearch U (obj self) start1 (end0 + h) h xtol with
      | Raise e => Failed e
      | Ok (minima, fe) =>
          match process_minima self k xtol ytol verbose minima with
          | Raise e => Failed e
          | Ok self' =>
              if Nat.eqb (List.length (ordered_eigs self')) k_current then
                (* no eigenvalue found this step, extending search *)
                let gap := end0 - start1 in
                Done (mk_scan self' (fevals st + fe) true
                              end0 (end0 + gap) lev0)
              else
                Done (mk_scan self' (fevals st + fe) false start1 end0 lev0)
          end
      end
  end.

Fixpoint scan_loop (fuel : nat) (k : nat) (xtol ytol : Q) (verbose : bool)
    (st : scan_state) : outcome scan_state :=
  if Nat.ltb (List.length (ordered_eigs (evp st))) k then
    match fuel with
    | O => OutOfFuel
    | S fuel' =>
        match scan_round fuel' k xtol ytol verbose st with
        | Done st' => scan_loop fuel' k xtol ytol verbose st'
        | Failed e => Failed e
        | OutOfFuel => OutOfFuel
        end
    end
  else Done st.

(** [solve_ordered_eigs(self,k,xtol=1e-8,ytol=1e-5,verbose=False)]: the
    pair it returns and the instance as the call leaves it.  [start],
    [end] and [lev] are assigned in the first round, before they are
    read. *)
Definition solve_ordered_eigs (fuel : nat) (self : PolygonEVP) (k : nat)
    (xtol ytol : Q) (verbose : bool)
  : outcome (list Q * nat * PolygonEVP) :=
  match scan_loop fuel k xtol ytol verbose (mk_scan self 0 false 0 0 1) with
  | Done st => Done (ordered_eigs (evp st), fevals st, evp st)
  | Failed e => Failed e
  | OutOfFuel => OutOfFuel
  end.

End Locator.

(** What holds of the loop variables of [solve_ordered_eigs] on [self]
    while nothing is confirmed: the instance is untouched and, in an
    extended round, the window lies above the lower bound. *)
Definition scanning (self : PolygonEVP) (st : scan_state) : Prop :=
  evp st = self
  /\ (extend st = true ->
      lambda_1_lb self <= start st /\ start st <= end_ st).

(** ** The second registry *)

(** The property [eigs]: its getter ... *)
Definition eigs (self : PolygonEVP) : list Q := np_sort self.(_eigs).

(** ... and its setter. *)
Definition set_eigs (self : PolygonEVP) (arr : list Q) : PolygonEVP :=
  {| basis := self.(basis); n_vert := self.(n_vert);
     boundary_pts := self.(boundary_pts); interior_pts := self.(interior_pts);
     rtol := self.(rtol); mtol := self.(mtol);
     bdry_nodes := self.(bdry_nodes); bdry_weights := self.(bdry_weights);
     int_nodes := self.(int_nodes); int_weights := self.(int_weights);
     nodes := self.(nodes); weights := self.(weights);
     n_basis := self.(n_basis);
     area := self.(area); perimiter := self.(perimiter);
     lambda_1_lb := self.(lambda_1_lb);
     _ordered_eigs := self.(_ordered_eigs);
     _eigs := np_sort arr |}.

(** ** Further collaborators *)

(** [numpy.polynomial] and the generalized eigenvalue solver of
    [scipy.linalg].  A Gauss rule is the list of its (node, weight)
    pairs, so that the two arrays numpy returns have one length; an
    eigenvalue is a pair (real part, imaginary part). *)
Record Numerics : Type := {
  (* leggauss(deg) -> nodes, weights on [-1,1] *)
  leggauss : nat -> result (list (Q * Q));
  (* chebgauss(deg) -> nodes, weights on [-1,1] *)
  chebgauss : nat -> result (list (Q * Q));
  (* la.eigvals(A, B) *)
  la_eigvals : matrix -> matrix -> option (list (Q * Q))
}.

(** The methods of the basis object that take points, and the edge
    helpers of [utils.py]. *)
Record BasisMethods : Type := {
  (* self.basis(lambda_, x, y) *)
  basis_at : Q -> matrix -> matrix -> matrix;
  (* self.basis.grad(lambda_, x, y) -> du_dx, du_dy *)
  basis_grad : Q -> matrix -> matrix -> matrix * matrix;
  (* calc_normals(x_v, y_v) *)
  calc_normals : list Q -> list Q -> matrix;
  (* calc_dists(x_v, y_v)[1] *)
  calc_dists_1 : list Q -> list Q -> list Q
}.

(** ** Quadrature rules on the unit interval ([quad.py]) *)

Section UnitRules.

Variable NP : NumPy.
Variable N : Numerics.

(** [cached_leggauss(order)] *)
Definition cached_leggauss (order : nat) : result (list Q * list Q) :=
  rule <- leggauss N order ;;
  let nds := map (fun p => (fst p + 1) / 2) rule in
  let wts := map (fun p => snd p / 2) rule in
  Ok (nds, wts).

(** [cached_chebgauss(order)] *)
Definition cached_chebgauss (order : nat) : result (list Q * list Q) :=
  rule <- chebgauss N order ;;
  let wts := map (fun p => snd p * np_sqrt NP (1 - fst p ^ 2)) rule in
  let nds := map (fun p => (fst p + 1) / 2) rule in
  let wts := map (fun w => w / 2) wts in
  Ok (rev nds, rev wts).

End UnitRules.

(** ** The other tangent formulations *)

(** [s[0]] for a sequence of possibly infinite floats. *)
Definition first_xitem (l : list xfloat) : result xfloat :=
  match l with
  | [] => Raise IndexError
  | x :: _ => Ok x
  end.

(** [M[:,:c]] *)
Definition cols_upto (M : matrix) (c : nat) : matrix :=
  mk_matrix (nrows M) (Nat.min c (ncols M)) (entry M).

(** [cutoff = (s>rtol).sum()], then [if cutoff == 0: cutoff = 1] *)
Definition regularized_cutoff (s : list Q) (rtol : Q) : nat :=
  let cutoff := count_where (fun x => Qltb rtol x) s in
  if Nat.eqb cutoff 0 then 1%nat else cutoff.

Section MoreTangents.

Variable K : Kernel.
Variable NP : NumPy.
Variable N : Numerics.

(** The statements that [rgsvd_subspace_tans] and
    [rgsvd_weighted_subspace_tans] share, from the QR factorization on. *)
Definition rgsvd_tans_of (A : matrix) (m_b : nat) (rtol : Q)
  : result (list xfloat) :=
  let '(Qm, R) := la_qr K A in
  '(Um, s, _) <- match la_svd K R with
                 | Some usv => Ok usv
                 | None => Raise LinAlgError
                 end ;;
  let cutoff := regularized_cutoff s rtol in
  let U1 := cols_upto Um cutoff in
  B1 <- matmul (rows_upto Qm m_b) U1 ;;
  B2 <- matmul (rows_from Qm m_b) U1 ;;
  let '(Cv, Sv, _) := gsvd K B1 B2 in
  t <- divide_or_inf Cv Sv ;;
  Ok (rev t).

Definition rgsvd_subspace_tans (self : PolygonEVP) (lambda_ : Q)
    (rtol_ : option Q) : result (list xfloat) :=
  let rtol := default_to (self.(rtol)) rtol_ in
  let A := self.(basis) lambda_ in
  let m_b := nrows self.(boundary_pts) in
  rgsvd_tans_of A m_b rtol.

Definition rgsvd_weighted_subspace_tans (self : PolygonEVP) (lambda_ : Q)
    (rtol_ : option Q) : result (list xfloat) :=
  let rtol := default_to (self.(rtol)) rtol_ in
  w <- getattr "weights" self.(weights) ;;
  nb <- getattr "n_basis" self.(n_basis) ;;
  A <- broadcast_mul w (nb lambda_) ;;
  bn <- getattr "bdry_nodes" self.(bdry_nodes) ;;
  let m_b := nrows bn in
  rgsvd_tans_of A m_b rtol.

(** [gevd_subspace_tans]: [np.sort(np.sqrt(e.real))] of the generalized
    eigenvalues of the two Gram matrices. *)
Definition gevd_subspace_tans (self : PolygonEVP) (lambda_ : Q)
  : result (list Q) :=
  let A := self.(basis) lambda_ in
  let m_b := nrows self.(boundary_pts) in
  G1 <- matmul (transpose (rows_upto A m_b)) (rows_upto A m_b) ;;
  G2 <- matmul (transpose (rows_from A m_b)) (rows_from A m_b) ;;
  match la_eigvals N G1 G2 with
  | Some e => Ok (np_sort (map (fun z => np_sqrt NP (fst z)) e))
  | None => Raise LinAlgError
  end.

(** [gsigma], [rgsigma], [gesigma]: the first entry of the tangents. *)
Definition gsigma (self : PolygonEVP) (lambda_ : Q) : result xfloat :=
  s <- gsvd_subspace_tans K self lambda_ ;;
  first_xitem s.

Definition rgsigma (self : PolygonEVP) (lambda_ : Q) (rtol_ : option Q)
  : result xfloat :=
  let rtol := default_to (self.(rtol)) rtol_ in
  s <- rgsvd_subspace_tans self lambda_ (Some rtol) ;;
  first_xitem s.

Definition gesigma (self : PolygonEVP) (lambda_ : Q) : result Q :=
  s <- gevd_subspace_tans self lambda_ ;;
  first_item s.

End MoreTangents.

(** ** Eigenfunctions and their normal derivatives *)

(** Element-wise operation on two 3-dimensional arrays, with broadcasting. *)
Definition broadcast3 (op : Q -> Q -> Q) (X Y : tensor3) : result tensor3 :=
  let '(a, b, c) := t_shape X in
  let '(a', b', c') := t_shape Y in
  match broadcast_dim a a', broadcast_dim b b', broadcast_dim c c' with
  | Some p, Some q, Some r =>
      Ok (mk_tensor3 (p, q, r) (fun i j k =>
            op (t_entry X (bcast_index a i) (bcast_index b j) (bcast_index c k))
               (t_entry Y (bcast_index a' i) (bcast_index b' j) (bcast_index c' k))))
  | _, _, _ => Raise (ValueError [Lit "operands could not be broadcast together"])
  end.

(** [M.reshape((a,-1,M.shape[1]))] *)
Definition reshape_rows (M : matrix) (a : nat) : result tensor3 :=
  if Nat.eqb a 0 || Nat.eqb (ncols M) 0
     || negb (Nat.eqb (Nat.modulo (nrows M) a) 0) then
    Raise (ValueError [Lit "cannot reshape array"])
  else
    let b := Nat.div (nrows M) a in
    Ok (mk_tensor3 (a, b, ncols M) (fun i j k => entry M (i * b + j) k)).

(** [M.reshape(shape)] where [shape] is the shape [(xr,xc)] of a
    2-dimensional [x] followed by [M.shape[1]] *)
Definition reshape_points (M : matrix) (xr xc : nat) : result tensor3 :=
  if Nat.eqb (nrows M) (xr * xc) then
    Ok (mk_tensor3 (xr, xc, ncols M) (fun i j k => entry M (i * xc + j) k))
  else Raise (ValueError [Lit "cannot reshape array"]).

(** [np.roll(v,-1)] *)
Definition roll_left (v : list Q) : list Q :=
  match v with
  | [] => []
  | x :: rest => rest ++ [x]
  end.

(** The placement of the quadrature nodes along the edges in
    [outward_normal_derivatives], for one coordinate:
    [slope, int = (np.roll(v,-1)-v)/2, (np.roll(v,-1)+v)/2] and
    [qnodes[np.newaxis]*slope[:,np.newaxis] + int[:,np.newaxis]]. *)
Definition edge_nodes (v qnodes : list Q) : matrix :=
  let slope := map (fun p => (fst p - snd p) / 2) (combine (roll_left v) v) in
  let int_ := map (fun p => (fst p + snd p) / 2) (combine (roll_left v) v) in
  mk_matrix (List.length v) (List.length qnodes) (fun i j =>
    nth j qnodes 0 * nth i slope 0 + nth i int_ 0).

Section Eigenfunctions.

Variable K : Kernel.
Variable U : Utils.
Variable N : Numerics.
Variable B : BasisMethods.

(** [eigenbasis_unweighted_coef]: [eigenbasis_coef] on the basis matrix
    itself, without quadrature weights. *)
Definition eigenbasis_unweighted_coef (self : PolygonEVP) (lambda_ : Q)
    (rtol_ mtol_ : option Q) : result matrix :=
  let rtol := default_to (self.(rtol)) rtol_ in
  let mtol := default_to (self.(mtol)) mtol_ in
  let A := self.(basis) lambda_ in
  let m_b := nrows self.(boundary_pts) in
  let '(Qm, R, P) := la_qr_pivot K A in
  let Pinv := invert_permutation U P in
  let r := map Qabs (diag R) in
  cutoff <- rank_cutoff r rtol ;;
  '(_, s, Vh) <- match la_svd K (slice Qm m_b cutoff) with
                 | Some usv => Ok usv
                 | None => Raise (ValueError [Lit "non-finite SVD"])
                 end ;;
  let mult := count_where (fun x => Qltb x mtol) s in
  if Nat.eqb mult 0 then
    s_last <- last_item s ;;
    Raise (ValueError
             [Lit "lambda = "; Fmt3e lambda_;
              Lit " has multiplicity zero (sigma = "; Fmt3e s_last;
              Lit " > "; Fmt3e mtol; Lit " = mtol)"])
  else
    let C := zeros (ncols A) mult in
    X <- match la_solve_triangular K (slice R cutoff cutoff)
                                     (transpose (last_rows Vh mult)) with
         | Some X => Ok X
         | None => Raise LinAlgError
         end ;;
    C' <- assign_rows_upto C cutoff X ;;
    take_rows C' Pinv.

(** [eigenbasis]: the coefficients are computed at once; the function
    returned evaluates the basis at the points and reshapes.  Points are
    2-dimensional arrays [x], [y]. *)
Definition eigenbasis (self : PolygonEVP) (lambda_ : Q)
    (rtol_ mtol_ : option Q) : result (matrix -> matrix -> result tensor3) :=
  let rtol := default_to (self.(rtol)) rtol_ in
  let mtol := default_to (self.(mtol)) mtol_ in
  C <- eigenbasis_coef K U self lambda_ (Some rtol) (Some mtol) ;;
  Ok (fun x y =>
        V <- matmul (basis_at B lambda_ x y) C ;;
        reshape_points V (nrows x) (ncols x)).

Definition eigenbasis_grad (self : PolygonEVP) (lambda_ : Q) (x y : matrix)
    (rtol_ mtol_ : option Q) : result (matrix * matrix) :=
  let rtol := default_to (self.(rtol)) rtol_ in
  let mtol := default_to (self.(mtol)) mtol_ in
  C <- eigenbasis_coef K U self lambda_ (Some rtol) (Some mtol) ;;
  let '(du_dx, du_dy) := basis_grad B lambda_ x y in
  gx <- matmul du_dx C ;;
  gy <- matmul du_dy C ;;
  Ok (gx, gy).

(** [outward_normal_derivatives]; [vertices] is the attribute
    [self.vertices]. *)
Definition outward_normal_derivatives (vertices : matrix) (self : PolygonEVP)
    (lambda_ : Q) (n : nat) (rtol_ mtol_ : option Q) : result tensor3 :=
  let rtol := default_to (self.(rtol)) rtol_ in
  let mtol := default_to (self.(mtol)) mtol_ in
  '(x_v, y_v) <- unpack_xy vertices ;;
  '(qnodes, _) <- cached_leggauss N n ;;
  let x_b := edge_nodes x_v qnodes in
  let y_b := edge_nodes y_v qnodes in
  '(du_dx, du_dy) <- eigenbasis_grad self lambda_ x_b y_b (Some rtol) (Some mtol) ;;
  du_dx <- reshape_rows du_dx self.(n_vert) ;;
  du_dy <- reshape_rows du_dy self.(n_vert) ;;
  let Nt := transpose (calc_normals B x_v y_v) in
  let n_x := mk_tensor3 (nrows Nt, Nat.min 1 (ncols Nt), 1%nat)
                        (fun i j _ => entry Nt i j) in
  let n_y := mk_tensor3 (nrows Nt, (ncols Nt - 1)%nat, 1%nat)
                        (fun i j _ => entry Nt i (1 + j)) in
  px <- broadcast3 Qmult n_x du_dx ;;
  py <- broadcast3 Qmult n_y du_dy ;;
  broadcast3 Qplus px py.

End Eigenfunctions.

(** ** Sampling a diagnostic along an interval (the [plot_*] methods) *)

(** [np.linspace(low,high,num)] *)
Definition np_linspace (low high : Q) (num : Z) : result (list Q) :=
  if Z.ltb num 0 then
    Raise (ValueError [Lit "Number of samples must be non-negative"])
  else
    let n := Z.to_nat num in
    let step := (high - low) / Q_of_nat (n - 1) in
    Ok (map (fun i => low + Q_of_nat i * step) (seq 0 n)).

(** [for lam in L: values.append(f(lam))] *)
Fixpoint sample_each {V : Type} (f : Q -> result V) (L : list Q)
  : result (list V) :=
  match L with
  | [] => Ok []
  | lam :: rest =>
      v <- f lam ;;
      vs <- sample_each f rest ;;
      Ok (v :: vs)
  end.

Section Plots.

Variable K : Kernel.

(** The drawing itself, through [plt] or through the axes given: what
    remains of a [plot_*] method after the values are computed. *)
Variable draw : bool -> list Q -> list xfloat -> result unit.

(** The parameters of [rgsigma(self, lambda_, rtol=None)]. *)
Definition rgsigma_params : list string := ["lambda_"; "rtol"]%string.

(** [plot_gsigma(self,low,high,nlam,ax=None,**kwargs)] *)
Definition plot_gsigma (self : PolygonEVP) (low high : Q) (nlam : Z)
    (ax : bool) : result unit :=
  let low := if Qltb low 1e-16 then 1e-16 else low in
  L <- np_linspace low high (nlam + 1) ;;
  vals <- sample_each (fun lam => gsigma K self lam) L ;;
  draw ax L vals.

(** [plot_rgsigma(self,low,high,nlam,ax=None,tol=1e-14,**kwargs)]: each
    value is [self.rgsigma(lam,tol=tol)]. *)
Definition plot_rgsigma (self : PolygonEVP) (low high : Q) (nlam : Z)
    (ax : bool) (tol : Q) : result unit :=
  let low := if Qltb low 1e-16 then 1e-16 else low in
  L <- np_linspace low high (nlam + 1) ;;
  vals <- sample_each
            (fun lam =>
               _ <- reject_unknown_keywords "rgsigma" rgsigma_params
                                            ["tol"%string] ;;
               rgsigma K self lam None)
            L ;;
  draw ax L vals.

End Plots.

(** ** Cubature on meshes ([quad.py]) *)

(** [v[i]] for a constant index. *)
Definition item_at (v : list Q) (i : nat) : result Q :=
  match nth_error v i with
  | Some x => Ok x
  | None => Raise IndexError
  end.

(** The eight combinations of vertex coordinates that [transform_quad]
    forms before anything else. *)
Record quad_coeffs : Type := {
  qa : Q; qb : Q; qc : Q; qd : Q; qe : Q; qf : Q; qg : Q; qh : Q
}.

Definition quad_coefficients (x_v y_v : list Q) : result quad_coeffs :=
  x2 <- item_at x_v 2 ;; x3 <- item_at x_v 3 ;;
  x1 <- item_at x_v 1 ;; x0 <- item_at x_v 0 ;;
  y2 <- item_at y_v 2 ;; y3 <- item_at y_v 3 ;;
  y1 <- item_at y_v 1 ;; y0 <- item_at y_v 0 ;;
  Ok {| qa := x2 - x3; qb := x2 + x3; qc := x1 - x0; qd := x1 + x0;
        qe := y2 - y3; qf := y2 + y3; qg := y1 - y0; qh := y1 + y0 |}.

(** The element-wise part of [transform_quad]: the point and the
    Jacobian determinant at one [(xi,eta)]. *)
Definition bilinear (k : quad_coeffs) (xi eta : Q) : Q * Q * Q :=
  let etap1 := eta + 1 in
  let etam1 := eta - 1 in
  let dx_dxi := ((qa k - qc k) * eta + qa k + qc k) / 4 in
  let dx_deta := ((qa k - qc k) * xi + qb k - qd k) / 4 in
  let dy_dxi := ((qe k - qg k) * eta + qe k + qg k) / 4 in
  let dy_deta := ((qe k - qg k) * xi + qf k - qh k) / 4 in
  let x := (etap1 * (qa k * xi + qb k) - etam1 * (qc k * xi + qd k)) / 4 in
  let y := (etap1 * (qe k * xi + qf k) - etam1 * (qg k * xi + qh k)) / 4 in
  let detJ := dx_dxi * dy_deta - dx_deta * dy_dxi in
  (x, y, detJ).

(** [transform_quad(xi,eta,x_v,y_v)] at one point of the reference
    square. *)
Definition transform_quad (xi eta : Q) (x_v y_v : list Q)
  : result (Q * Q * Q) :=
  k <- quad_coefficients x_v y_v ;;
  Ok (bilinear k xi eta).

(** [mesh_vertices[idx]] for an index array: the rows picked. *)
Fixpoint pick_rows (mesh_vertices : list (Q * Q)) (idx : list nat)
  : result (list (Q * Q)) :=
  match idx with
  | [] => Ok []
  | i :: rest =>
      match nth_error mesh_vertices i with
      | Some v =>
          vs <- pick_rows mesh_vertices rest ;;
          Ok (v :: vs)
      | None => Raise IndexError
      end
  end.

(** [triangle_areas(mesh_vertices,triangles)]; a triangle is a row of
    three vertex indices. *)
Definition triangle_area (v0 v1 v2 : Q * Q) : Q :=
  0.5 * Qabs ((fst v0 - fst v2) * (snd v1 - snd v0)
              - (fst v0 - fst v1) * (snd v2 - snd v0)).

Fixpoint triangle_areas (mesh_vertices : list (Q * Q))
    (triangles : list (nat * nat * nat)) : result (list Q) :=
  match triangles with
  | [] => Ok []
  | (i0, i1, i2) :: rest =>
      match nth_error mesh_vertices i0, nth_error mesh_vertices i1,
            nth_error mesh_vertices i2 with
      | Some v0, Some v1, Some v2 =>
          areas <- triangle_areas mesh_vertices rest ;;
          Ok (triangle_area v0 v1 v2 :: areas)
      | _, _, _ => Raise IndexError
      end
  end.

(** [np.sum] of a 1-dimensional array. *)
Definition total (l : list Q) : Q := fold_right Qplus 0 l.

Section QuadMesh.

Variable N : Numerics.

(** The tensor grid of [gauss_quad_nodes]: [Xi], [Eta] and [Wts]
    flattened row by row.  [pts] and [wts] come from [cached_leggauss]
    and have one length. *)
Definition tensor_grid (pts wts : list Q) : list (Q * Q * Q) :=
  flat_map (fun i =>
    map (fun j => (nth i pts 0, nth j pts 0, nth i wts 0 * nth j wts 0))
        (seq 0 (List.length pts)))
    (seq 0 (List.length pts)).

(** One turn of the loop of [gauss_quad_nodes]: the nodes and weights of
    one cell, as they are written into the slice of width [k]. *)
Definition cell_rule (mesh_vertices : list (Q * Q)) (pts wts : list Q)
    (k : nat) (quad : list nat) : result (list (Q * Q) * list Q) :=
  verts <- pick_rows mesh_vertices quad ;;
  c <- quad_coefficients (map fst verts) (map snd verts) ;;
  let cells := map (fun g =>
                 let '(xi, eta, w) := g in
                 let '(x, y, detJ) := bilinear c xi eta in
                 ((x, y), detJ * w))
               (tensor_grid pts wts) in
  if Nat.eqb (List.length cells) k then
    Ok (map fst cells, map snd cells)
  else
    match cells with
    | [cell] => Ok (repeat (fst cell) k, repeat (snd cell) k)
    | _ => Raise (ValueError [Lit "could not broadcast input array"])
    end.

Fixpoint cell_rules (mesh_vertices : list (Q * Q)) (pts wts : list Q)
    (k : nat) (quads : list (list nat)) : result (list (Q * Q) * list Q) :=
  match quads with
  | [] => Ok ([], [])
  | quad :: rest =>
      '(nds, ws) <- cell_rule mesh_vertices pts wts k quad ;;
      '(nds', ws') <- cell_rules mesh_vertices pts wts k rest ;;
      Ok (nds ++ nds', ws ++ ws')
  end.

(** [gauss_quad_nodes(mesh_vertices,quads,order=5)] *)
Definition gauss_quad_nodes (mesh_vertices : list (Q * Q))
    (quads : list (list nat)) (order : nat)
  : result (list (Q * Q) * list Q) :=
  '(pts, wts) <- cached_leggauss N order ;;
  let k := (order ^ 2)%nat in
  cell_rules mesh_vertices pts wts k quads.

End QuadMesh.

(** ** An invariant of the registry *)

(** [separated xtol reg]: two entries of the registry are the same
    value or at least [xtol] apart. *)
Definition separated (xtol : Q) (reg : list Q) : Prop :=
  forall a b, In a reg -> In b reg -> a = b \/ xtol <= Qabs (a - b).

(** ** Quadrature nodes along the boundary ([quad.py]) *)

(** A complex number: real and imaginary part. *)
Definition complex : Type := (Q * Q)%type.
Definition cscale (z : complex) (t : Q) : complex := (fst z * t, snd z * t).
Definition cadd (z w : complex) : complex := (fst z + fst w, snd z + snd w).

(** The helpers of [utils.py] that [quad.py] imports for the boundary. *)
Record PolygonUtils : Type := {
  (* complex_form(vertices) *)
  complex_form : matrix -> list complex;
  (* polygon_edges(vertices) *)
  polygon_edges : list complex -> list complex;
  (* edge_lengths(vertices) *)
  edge_lengths : list complex -> list Q
}.

(** [np.asarray(vertices)]: a 1-dimensional complex array, or an array
    of more dimensions, which goes through [complex_form]. *)
Inductive vertices_arg : Type :=
| ComplexVertices (z : list complex)
| RealVertices (M : matrix).

(** [n_pts]: one integer for all edges, or one integer per edge, given
    as a Python list or as an integer array. *)
Inductive n_pts_arg : Type :=
| SameOnEachEdge (n : Z)
| PerEdgeList (l : list Z)
| PerEdgeArray (l : list Z).

(** What [np.sum] returns for a slice of [n_pts]: an integer, except
    that the sum of an empty Python list is the float [0.0]. *)
Inductive np_index : Type :=
| IntIndex (i : Z)
| FloatIndex.

(** An array from [np.empty]: a cell holds nothing until it is written. *)
Definition buffer (A : Type) : Type := list (option A).

Definition zsum (l : list Z) : Z := fold_right Z.add 0%Z l.

Definition prefix_sum (from_list : bool) (counts : list Z) (i : nat) : np_index :=
  if from_list && Nat.eqb i 0 then FloatIndex
  else IntIndex (zsum (firstn i counts)).

(** One end of a slice of an array of length [len]: a negative index
    counts from the end, and the result is clipped to the array. *)
Definition norm_index (len : nat) (i : Z) : nat :=
  let j := if (i <? 0)%Z then (i + Z.of_nat len)%Z else i in
  Z.to_nat (Z.min (Z.max j 0) (Z.of_nat len)).

(** [arr[start:stop] = vals] *)
Definition slice_assign {A : Type} (arr : buffer A) (start : np_index)
    (stop : Z) (vals : list A) : result (buffer A) :=
  match start with
  | FloatIndex =>
      Raise (TypeError [Lit "slice indices must be integers or None or have an __index__ method"])
  | IntIndex s =>
      let a := norm_index (List.length arr) s in
      let b := norm_index (List.length arr) stop in
      let len := (b - a)%nat in
      if Nat.eqb (List.length vals) len then
        Ok (firstn a arr ++ map Some vals ++ skipn (a + len) arr)
      else
        match vals with
        | [x] => Ok (firstn a arr ++ repeat (Some x) len ++ skipn (a + len) arr)
        | _ => Raise (ValueError [Lit "could not broadcast input array"])
        end
  end.

(** An index into an array of length [len], negative ones from the end. *)
Definition wrap_index (len : nat) (i : Z) : option nat :=
  let j := if (i <? 0)%Z then (i + Z.of_nat len)%Z else i in
  if (0 <=? j)%Z && (j <? Z.of_nat len)%Z then Some (Z.to_nat j) else None.

(** [n_pts[skip] = 0] for a list of indices. *)
Fixpoint zero_at (counts : list Z) (skip : list Z) : result (list Z) :=
  match skip with
  | [] => Ok counts
  | i :: rest =>
      match wrap_index (List.length counts) i with
      | Some j => zero_at (firstn j counts ++ 0%Z :: skipn (S j) counts) rest
      | None => Raise IndexError
      end
  end.

(** Whether [skip] names edge [j] of [len] edges. *)
Definition is_skipped (len : nat) (skip : list Z) (j : nat) : bool :=
  existsb (fun i => match wrap_index len i with
                    | Some k => Nat.eqb k j
                    | None => false
                    end) skip.

(** The block that builds the array of point counts.  The boolean tells
    whether the counts are still the caller's Python list. *)
Definition edge_counts (n_vertices : nat) (n_pts : n_pts_arg)
    (skip : option (list Z)) : result (bool * list Z) :=
  let per_edge (from_list : bool) (l : list Z) :=
    if negb (Nat.eqb (List.length l) n_vertices) then
      Raise (ValueError [Lit "quadrature n_pts do not match number of polygon edges"])
    else
      match skip with
      | Some _ =>
          Raise (ValueError [Lit "skip must be 'None' if n_pts are provided for each edge"])
      | None => Ok (from_list, l)
      end in
  match n_pts with
  | SameOnEachEdge n =>
      let counts := repeat n n_vertices in
      match skip with
      | Some idx => c <- zero_at counts idx ;; Ok (false, c)
      | None => Ok (false, counts)
      end
  | PerEdgeList l => per_edge true l
  | PerEdgeArray l => per_edge false l
  end.

Definition item_of {A : Type} (v : list A) (i : nat) : result A :=
  match nth_error v i with
  | Some x => Ok x
  | None => Raise IndexError
  end.

(** [for i in idx: st = step(st, i)] *)
Fixpoint edge_loop {St : Type} (step : St -> nat -> result St)
    (idx : list nat) (st : St) : result St :=
  match idx with
  | [] => Ok st
  | i :: rest => st' <- step st i ;; edge_loop step rest st'
  end.

(** What a call comes to: the [NotImplementedError] of an unknown rule,
    or the rest of the function. *)
Inductive rule_outcome (A : Type) : Type :=
| NotImplemented (msg : message)
| Selected (r : result A).
Arguments NotImplemented {A} msg.
Arguments Selected {A} r.

Section Boundary.

Variable NP : NumPy.
Variable N : Numerics.
Variable PU : PolygonUtils.

(** [lambda n: (np.linspace(0,1,n+2)[1:-1], np.ones(n)/n)] *)
Definition even_rule (n : nat) : result (list Q * list Q) :=
  pts <- np_linspace 0 1 (Z.of_nat n + 2) ;;
  Ok (removelast (tl pts), repeat (1 / Q_of_nat n) n).

(** The chain of tests on [rule]; [None] is the branch that raises. *)
Definition select_rule (rule : string)
  : option (nat -> result (list Q * list Q)) :=
  if String.eqb rule "chebyshev" then Some (cached_chebgauss NP N)
  else if String.eqb rule "legendre" then Some (cached_leggauss N)
  else if String.eqb rule "even" then Some even_rule
  else None.

(** [vertices = np.asarray(vertices)] and
    [if vertices.ndim > 1: vertices = complex_form(vertices)] *)
Definition as_complex (vertices : vertices_arg) : list complex :=
  match vertices with
  | ComplexVertices z => z
  | RealVertices M => complex_form PU M
  end.

(** [e*qnodes + v] and [qweights*l] *)
Definition along_edge (e v : complex) (qnodes : list Q) : list complex :=
  map (fun t => cadd (cscale e t) v) qnodes.
Definition scaled_weights (qweights : list Q) (l : Q) : list Q :=
  map (fun w => w * l) qweights.

(** The body of the loop over the edges. *)
Definition edge_step (quadfunc : nat -> result (list Q * list Q))
    (vertices edges : list complex) (lens : list Q)
    (from_list : bool) (counts : list Z)
    (st : buffer complex * buffer Q) (i : nat)
  : result (buffer complex * buffer Q) :=
  c <- item_of counts i ;;
  if (0 <? c)%Z then
    let start := prefix_sum from_list counts i in
    let stop := zsum (firstn (S i) counts) in
    '(qnodes, qweights) <- quadfunc (Z.to_nat c) ;;
    e <- item_of edges i ;;
    v <- item_of vertices i ;;
    nodes' <- slice_assign (fst st) start stop (along_edge e v qnodes) ;;
    l <- item_of lens i ;;
    weights' <- slice_assign (snd st) start stop (scaled_weights qweights l) ;;
    Ok (nodes', weights')
  else Ok st.

Definition boundary_nodes_polygon (vertices : vertices_arg) (n_pts : n_pts_arg)
    (rule : string) (skip : option (list Z))
  : rule_outcome (buffer complex * buffer Q) :=
  let v := as_complex vertices in
  match select_rule rule with
  | None =>
      NotImplemented [Lit "quadrature rule "; Lit rule; Lit " is not implemented"]
  | Some quadfunc =>
      Selected (
        '(from_list, counts) <- edge_counts (List.length v) n_pts skip ;;
        let n_nodes := zsum counts in
        if (n_nodes <? 0)%Z then
          Raise (ValueError [Lit "negative dimensions are not allowed"])
        else
          let nodes := repeat None (Z.to_nat n_nodes) in
          let weights := repeat None (Z.to_nat n_nodes) in
          let edges := polygon_edges PU v in
          let lens := edge_lengths PU v in
          edge_loop (edge_step quadfunc v edges lens from_list counts)
                    (seq 0 (List.length v)) (nodes, weights))
  end.

End Boundary.

(** ** Cubature on a triangular mesh ([quad.py]) *)

(** A row of a cubature table: three barycentric coordinates and a
    weight. *)
Definition bary_row : Type := (Q * Q * Q * Q)%type.

(** [get_cubature_rule(kind,deg)] over the table [rules] of the module;
    [None] is a missing key. *)
Definition get_cubature_rule (rules : string -> nat -> option (list bary_row))
    (kind : string) (deg : nat) : result (list (Q * Q * Q) * list Q) :=
  match rules kind deg with
  | Some arr => Ok (map fst arr, map snd arr)
  | None =>
      Raise (ValueError [Lit "rule of kind '"; Lit kind; Lit "' and degree ";
                         FmtNat deg; Lit " is not defined"])
  end.

(** [mesh_vertices[triangles]]: the three corners of each triangle. *)
Fixpoint gather_triangles (mesh_vertices : list (Q * Q))
    (triangles : list (nat * nat * nat))
  : result (list (complex * complex * complex)) :=
  match triangles with
  | [] => Ok []
  | (i0, i1, i2) :: rest =>
      match nth_error mesh_vertices i0, nth_error mesh_vertices i1,
            nth_error mesh_vertices i2 with
      | Some v0, Some v1, Some v2 =>
          tri <- gather_triangles mesh_vertices rest ;;
          Ok ((v0, v1, v2) :: tri)
      | _, _, _ => Raise IndexError
      end
  end.

(** One entry of [tri_vertices_complex @ bary_coords.T] *)
Definition bary_point (t : complex * complex * complex) (b : Q * Q * Q)
  : complex :=
  let '(v0, v1, v2) := t in
  let '(b0, b1, b2) := b in
  cadd (cadd (cscale v0 b0) (cscale v1 b1)) (cscale v2 b2).

(** [tri_quad(mesh,kind,deg)], with [mesh.points[:,:2]] and
    [mesh.cells[1].data] in place of the mesh. *)
Definition tri_quad (rules : string -> nat -> option (list bary_row))
    (mesh_vertices : list (Q * Q)) (triangles : list (nat * nat * nat))
    (kind : string) (deg : nat) : result (list complex * list Q) :=
  tri <- gather_triangles mesh_vertices triangles ;;
  '(bary_coords, bary_weights) <- get_cubature_rule rules kind deg ;;
  let nodes := flat_map (fun t => map (bary_point t) bary_coords) tri in
  areas <- triangle_areas mesh_vertices triangles ;;
  let weights := flat_map (fun a => map (fun w => a * w) bary_weights) areas in
  Ok (nodes, weights).

(** ** A small instance to evaluate the methods on

    The unit square (area 1, perimeter 4) with one boundary point, one
    interior point and a single basis function.  The column of the basis
    matrix has unit norm for every [lambda]: with [t = tan(theta/2)] its
    two entries are [sin theta] and [cos theta].  The kernel is exact on
    the matrices that arise: a matrix with orthonormal columns is its own
    orthonormal factor with the identity as triangular factor, and the
    singular value of a 1x1 block is the magnitude of its entry; as in
    current scipy, an empty block has no singular value. *)
Module Fixture.

Definition numpy : NumPy :=
  {| np_pi := 3.14159;
     np_sqrt := fun x =>
       (Z.sqrt (Qnum x * Zpos (Qden x) * 10 ^ 12) # (Qden x * 10 ^ 6)) |}.

Definition identity (m n : nat) : matrix :=
  mk_matrix m n (fun i j => if Nat.eqb i j then 1 else 0).

Definition is_empty (M : matrix) : bool :=
  Nat.eqb (nrows M) 0 || Nat.eqb (ncols M) 0.

Definition kernel : Kernel :=
  {| la_qr_pivot := fun A =>
       (A, identity (Nat.min (nrows A) (ncols A)) (ncols A), seq 0 (ncols A));
     la_qr := fun A => (A, identity (Nat.min (nrows A) (ncols A)) (ncols A));
     la_svd_vals := fun M =>
       if is_empty M then Some []
       else if Nat.eqb (nrows M) 1 && Nat.eqb (ncols M) 1
            then Some [Qabs (entry M 0 0)]
            else None;
     la_svd := fun M =>
       if is_empty M
       then Some (identity (nrows M) (nrows M), [], identity (ncols M) (ncols M))
       else if Nat.eqb (nrows M) 1 && Nat.eqb (ncols M) 1
            then Some (mk_matrix 1 1 (fun _ _ =>
                         if Qle_bool 0 (entry M 0 0) then 1 else -(1)),
                       [Qabs (entry M 0 0)], identity 1 1)
            else None;
     la_solve_triangular := fun Tm B =>
       if Nat.eqb (nrows Tm) (nrows B) then Some B else None;
     la_lstsq := fun M B =>
       if Nat.eqb (nrows M) (nrows B) then Some B else None;
     la_eigh := fun M => diag M;
     gsvd := fun A B => ([], [], identity (ncols A) (ncols A)) |}.

(** The inverse of a permutation of [0..n-1]. *)
Fixpoint index_of (i : nat) (P : list nat) : nat :=
  match P with
  | [] => 0%nat
  | p :: rest => if Nat.eqb p i then 0%nat else S (index_of i rest)
  end.

(** The zeros of the boundary entry of the basis column. *)
Definition zeros_of_basis : list Q := [17.5; 18.5].

Definition tangent_half (lambda_ : Q) : Q :=
  (lambda_ - 17.5) * (lambda_ - 18.5).

Definition basis_column (m : nat) (lambda_ : Q) : matrix :=
  let t := tangent_half lambda_ in
  mk_matrix m 1 (fun i _ =>
    if Nat.eqb i 0 then 2 * t / (1 + t ^ 2) else (1 - t ^ 2) / (1 + t ^ 2)).

(** A minimiser that returns every zero of the objective inside
    [[a,b]], in ascending order, and charges one evaluation per zero. *)
Definition utils : Utils :=
  {| invert_permutation := fun P => map (fun i => index_of i P) (seq 0 (List.length P));
     minsearch := fun f a b h xtol =>
       let found := filter (fun z => Qle_bool a z && Qle_bool z b) zeros_of_basis in
       Ok (found, List.length found) |}.

Definition points (m : nat) : matrix := mk_matrix m 2 (fun _ _ => 0).

(** The instance without quadrature, as [__init__] leaves it. *)
Definition square : PolygonEVP :=
  {| basis := basis_column 2; n_vert := 4;
     boundary_pts := points 1; interior_pts := points 1;
     rtol := 0; mtol := 1e-4;
     bdry_nodes := None; bdry_weights := None;
     int_nodes := None; int_weights := None;
     nodes := None; weights := None; n_basis := None;
     area := 1; perimiter := 4;
     lambda_1_lb := 5.76 * np_pi numpy / 1;
     _ordered_eigs := []; _eigs := [] |}.

(** The same square with unit quadrature weights on the two nodes. *)
Definition weighted_square : PolygonEVP :=
  {| basis := basis_column 2; n_vert := 4;
     boundary_pts := points 1; interior_pts := points 1;
     rtol := 0; mtol := 1e-4;
     bdry_nodes := Some (points 1); bdry_weights := Some [1];
     int_nodes := Some (points 1); int_weights := Some [1];
     nodes := Some (points 2);
     weights := Some (mk_matrix 2 1 (fun _ _ => 1));
     n_basis := Some (basis_column 2);
     area := 1; perimiter := 4;
     lambda_1_lb := 5.76 * np_pi numpy / 1;
     _ordered_eigs := []; _eigs := [] |}.


Definition geometry : Geometry :=
  {| FourierBesselBasis := fun v o =>
       {| b_vertices := v; b_n_vert := nrows v; b_orders := o;
          b_eval := fun pts => basis_column (nrows pts) |};
     boundary_points := fun _ _ n _ => mk_ndarray [Z.to_nat n; 2%nat] (fun _ => 0);
     boundary_nodes := fun _ n _ _ => mk_ndarray [Z.to_nat n; 2%nat] (fun _ => 0);
     interior_points := fun _ _ n => mk_ndarray [Z.to_nat n; 2%nat] (fun _ => 0);
     polygon_area := fun _ _ => 1;
     polygon_perimiter := fun _ _ => 4 |}.

Definition square_vertices : matrix :=
  mk_matrix 4 2 (fun i j =>
    match i, j with
    | 1%nat, 0%nat | 2%nat, _ | 3%nat, 1%nat => 1
    | _, _ => 0
    end).

(** [PolygonEVP(vertices, orders, boundary_pts, interior_pts)] with the
    other arguments at their defaults. *)
Definition args (bp ip : pts_arg) : init_args :=
  {| arg_vertices := square_vertices; arg_orders := [1%Z; 0%Z; 0%Z; 0%Z];
     arg_boundary_pts := bp; arg_interior_pts := ip;
     arg_boundary_method := "even"; arg_interior_method := "random";
     arg_bdry_nodes := None; arg_bdry_weights := None;
     arg_int_nodes := None; arg_int_weights := None |}.

End Fixture.

(** ** Further sample collaborators *)
Module Samples.

(** The kernel of the fixture with a GSVD that returns two pairs, the
    second with a zero [S]. *)
Definition kernel : Kernel :=
  {| la_qr_pivot := la_qr_pivot Fixture.kernel;
     la_qr := la_qr Fixture.kernel;
     la_svd_vals := la_svd_vals Fixture.kernel;
     la_svd := la_svd Fixture.kernel;
     la_solve_triangular := la_solve_triangular Fixture.kernel;
     la_lstsq := la_lstsq Fixture.kernel;
     la_eigh := la_eigh Fixture.kernel;
     gsvd := fun A B => ([3; 1], [2; 0], Fixture.identity (ncols A) (ncols A)) |}.

(** Gauss-Legendre rules of one, two and three points (six decimals),
    and the generalized eigenvalue of a pair of 1x1 matrices. *)
Definition numerics : Numerics :=
  {| leggauss := fun n =>
       match n with
       | 1%nat => Ok [(0, 2)]
       | 2%nat => Ok [(-0.577350, 1); (0.577350, 1)]
       | 3%nat => Ok [(-0.774597, 0.555556); (0, 0.888889); (0.774597, 0.555556)]
       | _ => Raise (ValueError [Lit "deg must be a positive integer"])
       end;
     chebgauss := fun n =>
       match n with
       | 1%nat => Ok [(0, 3.141593)]
       | _ => Raise (ValueError [Lit "deg must be a positive integer"])
       end;
     la_eigvals := fun A B =>
       if Nat.eqb (nrows A) 1 && Nat.eqb (ncols A) 1
       then Some [(entry A 0 0 / entry B 0 0, 0)]
       else None |}.

(** The single basis function of the fixture at any set of points, the
    outward normals of the unit square and its edge lengths. *)
Definition basis_methods : BasisMethods :=
  {| basis_at := fun lambda_ x y =>
       Fixture.basis_column (nrows x * ncols x) lambda_;
     basis_grad := fun lambda_ x y =>
       (Fixture.basis_column (nrows x * ncols x) lambda_,
        Fixture.basis_column (nrows x * ncols x) lambda_);
     calc_normals := fun x_v y_v =>
       mk_matrix 2 4 (fun i j =>
         match i, j with
         | 0%nat, 1%nat | 1%nat, 2%nat => 1
         | 0%nat, 3%nat | 1%nat, 0%nat => -(1)
         | _, _ => 0
         end);
     calc_dists_1 := fun x_v y_v => map (fun _ => 1) x_v |}.

(** A kernel for basis matrices with orthonormal columns whose
    boundary block is diagonal: the factors are those of the fixture,
    and the singular values of a diagonal block are the magnitudes of
    its diagonal in descending order. *)
Definition diagonal_kernel : Kernel :=
  {| la_qr_pivot := la_qr_pivot Fixture.kernel;
     la_qr := la_qr Fixture.kernel;
     la_svd_vals := fun M => Some (rev (np_sort (map Qabs (diag M))));
     la_svd := la_svd Fixture.kernel;
     la_solve_triangular := la_solve_triangular Fixture.kernel;
     la_lstsq := la_lstsq Fixture.kernel;
     la_eigh := la_eigh Fixture.kernel;
     gsvd := gsvd Fixture.kernel |}.

(** The generalized eigenvalues of a pair of diagonal matrices: the
    quotients of the diagonals, in the order of the diagonal. *)
Definition diagonal_numerics : Numerics :=
  {| leggauss := leggauss numerics;
     chebgauss := chebgauss numerics;
     la_eigvals := fun A B =>
       Some (map (fun i => (entry A i i / entry B i i, 0))
                 (seq 0 (Nat.min (nrows A) (ncols A)))) |}.

(** Two basis functions on two boundary and two interior points, each
    supported on one boundary and one interior point: the columns are
    orthonormal for every [lambda] and the boundary block is diagonal.
    With [t1 = (lambda-17.5)(lambda-18.5)] and [t2 = (lambda-19)/2] the
    boundary entries are [2t/(1+t^2)] and the interior entries
    [(1-t^2)/(1+t^2)]. *)
Definition two_columns (lambda_ : Q) : matrix :=
  let t1 := Fixture.tangent_half lambda_ in
  let t2 := (lambda_ - 19) / 2 in
  mk_matrix 4 2 (fun i j =>
    match i, j with
    | 0%nat, 0%nat => 2 * t1 / (1 + t1 ^ 2)
    | 2%nat, 0%nat => (1 - t1 ^ 2) / (1 + t1 ^ 2)
    | 1%nat, 1%nat => 2 * t2 / (1 + t2 ^ 2)
    | 3%nat, 1%nat => (1 - t2 ^ 2) / (1 + t2 ^ 2)
    | _, _ => 0
    end).

(** The unit square with a given basis on two boundary and two interior
    points, which also serve as quadrature nodes with unit weights. *)
Definition sampled_square (b : Q -> matrix) : PolygonEVP :=
  {| basis := b; n_vert := 4;
     boundary_pts := Fixture.points 2; interior_pts := Fixture.points 2;
     rtol := 0; mtol := 1e-4;
     bdry_nodes := Some (Fixture.points 2); bdry_weights := Some [1; 1];
     int_nodes := Some (Fixture.points 2); int_weights := Some [1; 1];
     nodes := Some (Fixture.points 4);
     weights := Some (mk_matrix 4 1 (fun _ _ => 1));
     n_basis := Some b;
     area := 1; perimiter := 4;
     lambda_1_lb := 5.76 * np_pi Fixture.numpy / 1;
     _ordered_eigs := []; _eigs := [] |}.

Definition two_mode_square : PolygonEVP := sampled_square two_columns.

(** The same square with no basis function at all. *)
Definition no_mode_square : PolygonEVP :=
  sampled_square (fun _ => mk_matrix 4 0 (fun _ _ => 0)).

(** The corners of the unit square as a mesh with one quadrilateral
    cell, or two triangles. *)
Definition mesh_vertices : list (Q * Q) := [(0, 0); (1, 0); (1, 1); (0, 1)].

(** A sheared cell: the parallelogram (0,0), (2,0), (3,1), (1,1). *)
Definition sheared_vertices : list (Q * Q) := [(0, 0); (2, 0); (3, 1); (1, 1)].

(** The helpers of [utils.py] for polygons with axis-parallel edges:
    the edge from each vertex to the next one (cyclically), whose length
    is then the sum of the magnitudes of its two components. *)
Definition next_vertices (z : list complex) : list complex :=
  match z with
  | [] => []
  | x :: rest => rest ++ [x]
  end.

Definition polygon_utils : PolygonUtils :=
  {| complex_form := fun M =>
       map (fun i => (entry M i 0, entry M i 1)) (seq 0 (nrows M));
     polygon_edges := fun z =>
       map (fun p => (fst (snd p) - fst (fst p), snd (snd p) - snd (fst p)))
           (combine z (next_vertices z));
     edge_lengths := fun z =>
       map (fun p => Qabs (fst (snd p) - fst (fst p))
                     + Qabs (snd (snd p) - snd (fst p)))
           (combine z (next_vertices z)) |}.

Definition draw (ax : bool) (L : list Q) (vals : list xfloat) : result unit :=
  Ok tt.

End Samples.

(** * Properties *)

(** ** Comparisons and sorted lists *)

Lemma Qltb_lt (x y : Q) : Qltb x y = true <-> x < y.
Proof.
  unfold Qltb. rewrite negb_true_iff. split; intro H.
  - apply Qnot_le_lt. intro Hle. apply Qle_bool_iff in Hle. congruence.
  - destruct (Qle_bool y x) eqn:E; [|reflexivity].
    apply Qle_bool_iff in E. exfalso. apply (Qlt_not_le _ _ H E).
Qed.

Lemma Qltb_false (x y : Q) : Qltb x y = false <-> y <= x.
Proof.
  unfold Qltb. rewrite negb_false_iff. apply Qle_bool_iff.
Qed.



Lemma count_where_none (p : Q -> bool) (l : list Q) :
  Forall (fun x => p x = false) l -> count_where p l = 0%nat.
Proof.
  unfold count_where. induction 1 as [|a l Ha _ IH]; simpl.
  - reflexivity.
  - rewrite Ha. exact IH.
Qed.

Lemma count_where_zero (p : Q -> bool) (l : list Q) :
  count_where p l = 0%nat -> Forall (fun x => p x = false) l.
Proof.
  unfold count_where. induction l as [|a l IH]; simpl; intro H.
  - constructor.
  - destruct (p a) eqn:E; simpl in H; [discriminate|].
    constructor; auto.
Qed.

Lemma descending_head_bounds (a : Q) (l : list Q) :
  descending (a :: l) -> Forall (fun x => x <= a) l.
Proof.
  unfold descending. intro H.
  apply Sorted_StronglySorted in H.
  - inversion H; subst. assumption.
  - intros x y z Hxy Hyz. apply Qle_trans with y; assumption.
Qed.

Lemma descending_tail (a : Q) (l : list Q) :
  descending (a :: l) -> descending l.
Proof. unfold descending. intro H. inversion H; assumption. Qed.

Lemma ascending_snoc (l : list Q) (a : Q) :
  ascending l -> Forall (fun x => x <= a) l -> ascending (l ++ [a]).
Proof.
  unfold ascending. induction l as [|b l IH]; simpl; intros Hs Hf.
  - repeat constructor.
  - inversion Hs; subst. inversion Hf; subst.
    constructor; [auto|].
    destruct l as [|c l]; simpl; constructor.
    + assumption.
    + match goal with H : HdRel _ _ _ |- _ => inversion H; assumption end.
Qed.

Lemma descending_rev_ascending (l : list Q) :
  descending l -> ascending (rev l).
Proof.
  induction l as [|a l IH]; simpl; intro H.
  - constructor.
  - apply ascending_snoc.
    + apply IH. eapply descending_tail; eauto.
    + apply Forall_rev. apply descending_head_bounds. assumption.
Qed.

Lemma nonneg_rev (l : list Q) : nonneg l -> nonneg (rev l).
Proof. apply Forall_rev. Qed.


Lemma last_item_rev_head (l : list Q) (a : Q) :
  last_item l = Ok a -> exists l', rev l = a :: l'.
Proof.
  unfold last_item. destruct (rev l) as [|x l']; intro H; [discriminate|].
  inversion H; subst. eauto.
Qed.

(** The last entry of a non-increasing list is its smallest. *)
Lemma descending_last_least (l : list Q) (a : Q) :
  descending l -> last_item l = Ok a -> Forall (fun x => a <= x) l.
Proof.
  intros Hd Hl. apply last_item_rev_head in Hl. destruct Hl as [l' Hl].
  apply descending_rev_ascending in Hd. rewrite Hl in Hd.
  assert (Hf : Forall (fun x => a <= x) (rev l)).
  { rewrite Hl. constructor; [apply Qle_refl|].
    unfold ascending in Hd. apply Sorted_StronglySorted in Hd.
    - inversion Hd; assumption.
    - intros x y z Hxy Hyz. apply Qle_trans with y; assumption. }
  apply Forall_rev in Hf. rewrite rev_involutive in Hf. exact Hf.
Qed.

(** ** Subspace angle engine *)

Lemma rank_cutoff_nonempty (a : Q) (l : list Q) (rtol : Q) :
  rank_cutoff (a :: l) rtol
  = Ok (count_where (fun x => Qltb (a * rtol) x) (a :: l)).
Proof. reflexivity. Qed.




(** What the truncation step yields, in terms of the factors: with
    pivoting, for a triangular factor whose diagonal has magnitudes
    [r0 :: r'], the orthonormal factor and the number of magnitudes
    above [r0 * rtol]; without pivoting, the orthonormal factor and the
    number of its columns. *)
Lemma qr_truncate_factors (K : Kernel) (A : matrix) (rtol : Q) (pivot : bool)
    (Qm R : matrix) (P : list nat) (r0 : Q) (r' : list Q) :
  (if pivot
   then la_qr_pivot K A = (Qm, R, P) /\ map Qabs (diag R) = r0 :: r'
   else la_qr K A = (Qm, R)) ->
  qr_truncate K A rtol pivot
  = Ok (Qm, if pivot
            then count_where (fun x => Qltb (r0 * rtol) x) (r0 :: r')
            else ncols Qm).
Proof.
  unfold qr_truncate. destruct pivot.
  - intros [Hqr Hr]. rewrite Hqr, Hr. reflexivity.
  - intro Hqr. rewrite Hqr. reflexivity.
Qed.




(** Without pivoting nothing is truncated and the stage cannot raise. *)
Lemma qr_truncate_unpivoted (K : Kernel) (A : matrix) (rtol : Q) :
  qr_truncate K A rtol false
  = Ok (fst (la_qr K A), ncols (fst (la_qr K A))).
Proof. unfold qr_truncate. destruct (la_qr K A). reflexivity. Qed.

(** ** GSVD tangents *)

(** C7 fails on the code: [gsvd_subspace_tans] raises at its first
    statement for every instance and every [lambda]. *)
Theorem gsvd_subspace_tans_unbound (K : Kernel) (self : PolygonEVP)
    (lambda_ : Q) :
  gsvd_subspace_tans K self lambda_ = Raise (UnboundLocalError "rtol").
Proof. reflexivity. Qed.

(** The element-wise quotient itself behaves as C7 describes: with
    sequences of one length it does not raise, and an entry is [+inf]
    exactly where the divisor is zero. *)
Lemma divide_or_inf_cells (Cv Sv : list Q) :
  List.length Sv = List.length Cv ->
  exists t, divide_or_inf Cv Sv = Ok t
    /\ List.length t = List.length Cv
    /\ forall i c s, nth_error Cv i = Some c -> nth_error Sv i = Some s ->
         nth_error t i = Some (if Qeq_bool s 0 then PosInf else Finite (c / s)).
Proof.
  intro Hlen. unfold divide_or_inf. rewrite Hlen, Nat.eqb_refl.
  eexists. split; [reflexivity|]. split.
  - rewrite length_map, length_combine, Hlen. apply Nat.min_id.
  - revert Sv Hlen. induction Cv as [|c0 Cv IH]; intros [|s0 Sv] Hlen i c s Hc Hs;
      simpl in Hlen; try discriminate.
    + destruct i; discriminate.
    + destruct i as [|i]; simpl in *.
      * inversion Hc; inversion Hs; subst. reflexivity.
      * apply IH with (Sv := Sv); auto.
Qed.

(** The weighted sibling has no tolerance line and reaches the GSVD. *)
Lemma gsvd_weighted_subspace_tans_runs :
  gsvd_weighted_subspace_tans Fixture.kernel Fixture.weighted_square 18 = Ok [].
Proof. reflexivity. Qed.

(** ** Shape derivative *)

Lemma sigma_rejects_mult_check :
  reject_unknown_keywords "sigma" sigma_params ["mult_check"%string]
  = Raise (TypeError [Lit "sigma"; Lit "() got an unexpected keyword argument '";
                      Lit "mult_check"; Lit "'"]).
Proof. reflexivity. Qed.

(** C8 fails on the code: whatever the instance, [lambda], direction and
    tolerances, [dlambda] raises before any multiplicity is known, and
    the error is never the repeated-eigenvalue error. *)
Theorem dlambda_stops_before_multiplicity (K : Kernel)
    (global_btol : option Q)
    (gram_tensors : Q -> nat -> Q -> Q -> result (tensor3 * tensor3))
    (self : PolygonEVP) (lambda_ : Q) (dx dy : option (list Q)) (n : nat)
    (rtol_ mtol_ : option Q) :
  exists e : exn,
    dlambda K global_btol gram_tensors self lambda_ dx dy n rtol_ mtol_
    = Raise e
    /\ forall mult : nat, e <> ValueError (repeated_eigenvalue_msg mult).
Proof.
  unfold dlambda.
  destruct dx as [dxa|], dy as [dya|]; simpl.
  - destruct (negb (Nat.eqb (List.length dxa) (n_vert self))
              || negb (Nat.eqb (List.length dya) (n_vert self))); simpl.
    + eexists. split; [reflexivity|]. intros m H. discriminate H.
    + destruct global_btol as [b|]; simpl.
      * eexists. split; [reflexivity|]. intros m H. discriminate H.
      * eexists. split; [reflexivity|]. intros m H. discriminate H.
  - eexists. split; [reflexivity|]. intros m H. discriminate H.
  - eexists. split; [reflexivity|]. intros m H. discriminate H.
  - destruct global_btol as [b|]; simpl.
    + eexists. split; [reflexivity|]. intros m H. discriminate H.
    + eexists. split; [reflexivity|]. intros m H. discriminate H.
Qed.

(** With no direction the error is the one of the name [btol], or the
    one of the keyword [mult_check] when the module has a [btol]. *)
Lemma dlambda_without_direction (K : Kernel) (global_btol : option Q)
    (gram_tensors : Q -> nat -> Q -> Q -> result (tensor3 * tensor3))
    (self : PolygonEVP) (lambda_ : Q) (n : nat) (rtol_ mtol_ : option Q) :
  dlambda K global_btol gram_tensors self lambda_ None None n rtol_ mtol_
  = match global_btol with
    | None => Raise (NameError "btol")
    | Some _ =>
        Raise (TypeError [Lit "sigma";
                          Lit "() got an unexpected keyword argument '";
                          Lit "mult_check"; Lit "'"])
    end.
Proof. unfold dlambda. destruct global_btol; reflexivity. Qed.

(** The same with a direction of the right length: no directional
    derivative is computed. *)
Lemma dlambda_with_direction (K : Kernel) (global_btol : option Q)
    (gram_tensors : Q -> nat -> Q -> Q -> result (tensor3 * tensor3))
    (self : PolygonEVP) (lambda_ : Q) (dxa dya : list Q) (n : nat)
    (rtol_ mtol_ : option Q) :
  List.length dxa = n_vert self ->
  List.length dya = n_vert self ->
  dlambda K global_btol gram_tensors self lambda_ (Some dxa) (Some dya)
          n rtol_ mtol_
  = match global_btol with
    | None => Raise (NameError "btol")
    | Some _ =>
        Raise (TypeError [Lit "sigma";
                          Lit "() got an unexpected keyword argument '";
                          Lit "mult_check"; Lit "'"])
    end.
Proof.
  intros Hx Hy. unfold dlambda. rewrite Hx, Hy, Nat.eqb_refl. simpl.
  destruct global_btol; reflexivity.
Qed.

(** The statements after the multiplicity do what C8 describes, had they
    been reached: a multiplicity above one and no direction is the
    repeated-eigenvalue error. *)
Lemma dlambda_after_multiplicity_repeated (K : Kernel)
    (gram_tensors : Q -> nat -> Q -> Q -> result (tensor3 * tensor3))
    (lambda_ : Q) (n : nat) (rtol mtol : Q) (mult : nat) :
  (1 < mult)%nat ->
  dlambda_after_multiplicity K gram_tensors lambda_ None None n rtol mtol mult
  = Raise (ValueError (repeated_eigenvalue_msg mult)).
Proof.
  intro H. unfold dlambda_after_multiplicity.
  apply Nat.ltb_lt in H. rewrite H. reflexivity.
Qed.

(** ** Construction *)

(** C9 fails on the code for a 1-dimensional array: the shape block
    reads [shape[1]] before it tests [ndim], and what is raised is an
    [IndexError], not the shape error. *)
Theorem process_pts_one_dimensional (name : string) (n : nat)
    (f : list nat -> Q) :
  process_pts name (mk_ndarray [n] f) = Raise IndexError.
Proof.
  unfold process_pts. simpl.
  destruct (Nat.eqb n 2); reflexivity.
Qed.

(** The same through [__init__]: no instance, and an [IndexError]. *)
Lemma init_one_dimensional_boundary :
  init Fixture.numpy Fixture.geometry
       (Fixture.args (PtsArray (mk_ndarray [3%nat] (fun _ => 0))) (PtsInt 1))
  = Raise IndexError.
Proof. reflexivity. Qed.

(** A 2-dimensional array whose second extent, after the transposition
    of a 2-row input, is not 2 does get the shape error. *)
Lemma process_pts_two_dimensional (name : string) (m n : nat)
    (f : list nat -> Q) :
  (if Nat.eqb m 2 then m else n) <> 2%nat ->
  process_pts name (mk_ndarray [m; n] f) = Raise (ValueError (shape_msg name)).
Proof.
  intro H. unfold process_pts. simpl.
  destruct (Nat.eqb m 2) eqn:E; simpl.
  - apply Nat.eqb_neq in H. rewrite H. reflexivity.
  - apply Nat.eqb_neq in H. rewrite H. reflexivity.
Qed.

(** An array of three or more dimensions gets it too. *)
Lemma process_pts_higher_dimensional (name : string) (a : ndarray) (r : ndarray) :
  (3 <= ndim a)%nat -> process_pts name a <> Ok r.
Proof.
  intros Hd. unfold process_pts.
  destruct (shape_at a 0) as [s0|e]; simpl; [|discriminate].
  assert (Hn : ndim (if Nat.eqb s0 2 then T a else a) = ndim a).
  { destruct (Nat.eqb s0 2); [|reflexivity].
    unfold ndim, T. simpl. apply length_rev. }
  destruct (shape_at _ 1) as [s1|e]; simpl; [|discriminate].
  rewrite Hn.
  destruct (Nat.eqb (ndim a) 2) eqn:E.
  - apply Nat.eqb_eq in E. lia.
  - rewrite orb_true_r. discriminate.
Qed.

(** What [__init__] accepts is 2-dimensional with two columns. *)
Lemma process_pts_accepts (name : string) (a r : ndarray) :
  process_pts name a = Ok r -> exists m, shape r = [m; 2%nat].
Proof.
  unfold process_pts.
  destruct (shape_at a 0) as [s0|e]; simpl; [|discriminate].
  set (a' := if Nat.eqb s0 2 then T a else a).
  destruct (shape_at a' 1) as [s1|e] eqn:E1; simpl; [|discriminate].
  destruct (Nat.eqb s1 2) eqn:E2; simpl; [|discriminate].
  destruct (Nat.eqb (ndim a') 2) eqn:E3; simpl; [|discriminate].
  intro H. inversion H; subst r.
  apply Nat.eqb_eq in E2, E3. subst s1.
  unfold shape_at in E1. unfold ndim in E3.
  destruct (shape a') as [|d0 [|d1 [|d2 l]]]; simpl in *; try discriminate.
  inversion E1; subst. eauto.
Qed.

Lemma bind_Ok {A B : Type} (m : result A) (k : A -> result B) (b : B) :
  bind m k = Ok b -> exists a, m = Ok a /\ k a = Ok b.
Proof. destruct m as [a|e]; simpl; intro H; [eauto | discriminate]. Qed.

Lemma quadrature_block_presence (NP : NumPy) (G : Geometry) (a : init_args)
    (q : option quadrature) :
  quadrature_block NP G a = Ok q ->
  match arg_bdry_nodes a with
  | None => q = None
  | Some _ => q <> None
  end.
Proof.
  unfold quadrature_block.
  destruct (arg_bdry_nodes a) as [bn|].
  - intro H.
    apply bind_Ok in H. destruct H as [nd [_ H]].
    apply bind_Ok in H. destruct H as [qw [_ H]].
    destruct (Nat.eqb (ncols nd) 2); [|discriminate].
    inversion H. discriminate.
  - intro H. inversion H. reflexivity.
Qed.

Lemma init_quadrature_attributes (NP : NumPy) (G : Geometry) (a : init_args)
    (self : PolygonEVP) :
  init NP G a = Ok self ->
  match arg_bdry_nodes a with
  | None => weights self = None /\ n_basis self = None /\ bdry_nodes self = None
  | Some bn => weights self <> None /\ n_basis self <> None
               /\ bdry_nodes self = Some bn
  end.
Proof.
  unfold init. intro H.
  apply bind_Ok in H. destruct H as [[x_v y_v] [_ H]].
  apply bind_Ok in H. destruct H as [bp [_ H]].
  apply bind_Ok in H. destruct H as [ip [_ H]].
  apply bind_Ok in H. destruct H as [pts [_ H]].
  apply bind_Ok in H. destruct H as [q [Hq H]].
  apply quadrature_block_presence in Hq.
  inversion H; subst self; clear H. simpl.
  destruct (arg_bdry_nodes a) as [bn|].
  - destruct q as [q|]; [|congruence]. simpl.
    repeat split; discriminate.
  - subst q. simpl. auto.
Qed.

(** C10.  On an instance that [__init__] built without [bdry_nodes],
    each quadrature-weighted operation raises the missing-attribute
    error, for every [lambda] and every tolerance; an instance built
    with [bdry_nodes] has the attributes the operations read. *)
Theorem weighted_operations_need_quadrature (NP : NumPy) (G : Geometry)
    (a : init_args) (self : PolygonEVP) :
  init NP G a = Ok self ->
  (arg_bdry_nodes a = None ->
   forall (K : Kernel) (U : Utils) (lambda_ : Q) (rtol_ mtol_ : option Q)
          (pivot : bool),
     weighted_subspace_sines K self lambda_ rtol_ pivot
     = Raise (AttributeError "weights")
     /\ eigenbasis_coef K U self lambda_ rtol_ mtol_
        = Raise (AttributeError "weights")
     /\ gsvd_eigenbasis_coef K self lambda_ mtol_
        = Raise (AttributeError "weights")
     /\ eigenbasis_node_eval K self lambda_ rtol_ mtol_
        = Raise (AttributeError "weights"))
  /\ (arg_bdry_nodes a <> None ->
      weights self <> None /\ n_basis self <> None /\ bdry_nodes self <> None).
Proof.
  intro Hinit. apply init_quadrature_attributes in Hinit. split.
  - intro Hnone. rewrite Hnone in Hinit. destruct Hinit as [Hw _].
    intros K U lambda_ rtol_ mtol_ pivot.
    unfold weighted_subspace_sines, eigenbasis_coef, gsvd_eigenbasis_coef,
      eigenbasis_node_eval.
    rewrite Hw. simpl. auto.
  - intro Hsome. destruct (arg_bdry_nodes a) as [bn|]; [|congruence].
    destruct Hinit as [Hw [Hn Hb]]. rewrite Hb.
    split; [exact Hw | split; [exact Hn | discriminate]].
Qed.

(** The fixture without quadrature is what [__init__] builds for two
    point counts. *)
Lemma init_square :
  init Fixture.numpy Fixture.geometry (Fixture.args (PtsInt 1) (PtsInt 1))
  = Ok Fixture.square.
Proof. reflexivity. Qed.

Lemma weighted_operations_need_quadrature_witness :
  (arg_bdry_nodes (Fixture.args (PtsInt 1) (PtsInt 1)) = None ->
   forall (K : Kernel) (U : Utils) (lambda_ : Q) (rtol_ mtol_ : option Q)
          (pivot : bool),
     weighted_subspace_sines K Fixture.square lambda_ rtol_ pivot
     = Raise (AttributeError "weights")
     /\ eigenbasis_coef K U Fixture.square lambda_ rtol_ mtol_
        = Raise (AttributeError "weights")
     /\ gsvd_eigenbasis_coef K Fixture.square lambda_ mtol_
        = Raise (AttributeError "weights")
     /\ eigenbasis_node_eval K Fixture.square lambda_ rtol_ mtol_
        = Raise (AttributeError "weights"))
  /\ (arg_bdry_nodes (Fixture.args (PtsInt 1) (PtsInt 1)) <> None ->
      weights Fixture.square <> None /\ n_basis Fixture.square <> None
      /\ bdry_nodes Fixture.square <> None).
Proof.
  apply (weighted_operations_need_quadrature Fixture.numpy Fixture.geometry
           (Fixture.args (PtsInt 1) (PtsInt 1)) Fixture.square).
  reflexivity.
Defined.

(** ** Eigenbasis extractor *)

Lemma last_item_nonempty (s : list Q) :
  s <> [] -> exists sigma, last_item s = Ok sigma.
Proof.
  intro H. unfold last_item.
  destruct (rev s) as [|x l] eqn:E.
  - exfalso. apply H. rewrite <- (rev_involutive s), E. reflexivity.
  - eauto.
Qed.

Lemma assign_rows_upto_shape (C : matrix) (c : nat) (X C' : matrix) :
  assign_rows_upto C c X = Ok C' -> nrows C' = nrows C /\ ncols C' = ncols C.
Proof.
  unfold assign_rows_upto.
  destruct (_ && _); intro H; inversion H; subst; simpl; auto.
Qed.

Lemma take_rows_shape (C : matrix) (idx : list nat) (C' : matrix) :
  take_rows C idx = Ok C' ->
  nrows C' = List.length idx /\ ncols C' = ncols C.
Proof.
  unfold take_rows.
  destruct (forallb _ idx); intro H; inversion H; subst; simpl; auto.
Qed.

(** Where the SVD delivers at least one singular value the multiplicity
    test works as intended.  Let the instance carry its quadrature
    attributes, and let the SVD of the truncated boundary-row block
    deliver at least one singular value, in descending order.  Then
    [eigenbasis_coef] raises the zero-multiplicity error exactly when no
    singular value is below [mtol]; the message carries the last, hence
    smallest, singular value and [mtol]; a matrix that is returned has
    as many columns as there are singular values below [mtol]; and one
    is returned whenever the triangular solve and the un-permutation go
    through. *)
Theorem eigenbasis_coef_multiplicity (K : Kernel) (U : Utils)
    (self : PolygonEVP) (lambda_ : Q) (rtol_ mtol_ : option Q)
    (w : matrix) (nb : Q -> matrix) (A bn Qm R : matrix) (P : list nat)
    (cutoff : nat) (Um Vh : matrix) (s : list Q) :
  weights self = Some w ->
  n_basis self = Some nb ->
  broadcast_mul w (nb lambda_) = Ok A ->
  bdry_nodes self = Some bn ->
  la_qr_pivot K A = (Qm, R, P) ->
  rank_cutoff (map Qabs (diag R)) (default_to (rtol self) rtol_) = Ok cutoff ->
  la_svd K (slice Qm (nrows bn) cutoff) = Some (Um, s, Vh) ->
  descending s ->
  s <> [] ->
  let tol := default_to (mtol self) mtol_ in
  let mult := count_where (fun x => Qltb x tol) s in
  let out := eigenbasis_coef K U self lambda_ rtol_ mtol_ in
  ((exists sg, out = Raise (ValueError (zero_multiplicity_msg lambda_ sg tol)))
   <-> mult = 0%nat)
  /\ (mult = 0%nat ->
      exists sigma,
        last_item s = Ok sigma
        /\ Forall (fun x => sigma <= x) s
        /\ out = Raise (ValueError
                          (zero_multiplicity_msg lambda_ (Fmt3e sigma) tol)))
  /\ (forall C, out = Ok C -> ncols C = mult /\ (0 < mult)%nat)
  /\ ((0 < mult)%nat ->
      forall X,
        la_solve_triangular K (slice R cutoff cutoff)
                            (transpose (last_rows Vh mult)) = Some X ->
        nrows X = Nat.min cutoff (ncols A) ->
        ncols X = mult ->
        forallb (fun p => Nat.ltb p (ncols A)) (invert_permutation U P) = true ->
        exists C, out = Ok C /\ ncols C = mult
                  /\ nrows C = List.length (invert_permutation U P)).
Proof.
  intros Hw Hnb HA Hbn Hqr Hcut Hsvd Hdesc Hne tol mult out.
  assert (Hout : out =
    ('(m, Vh') <- (if Nat.eqb mult 0
                   then s_last <- last_item s ;;
                        Raise (ValueError
                                 (zero_multiplicity_msg lambda_ (Fmt3e s_last) tol))
                   else Ok (mult, Vh)) ;;
     X <- match la_solve_triangular K (slice R cutoff cutoff)
                                      (transpose (last_rows Vh' m)) with
          | Some X => Ok X
          | None => Raise LinAlgError
          end ;;
     C' <- assign_rows_upto (zeros (ncols A) m) cutoff X ;;
     take_rows C' (invert_permutation U P))).
  { unfold out, eigenbasis_coef. rewrite Hw, Hnb. simpl bind. rewrite HA, Hbn.
    simpl bind. rewrite Hqr. rewrite Hcut. simpl bind.
    unfold svd_multiplicity. rewrite Hsvd. simpl bind. reflexivity. }
  destruct (last_item_nonempty s Hne) as [sigma Hsigma].
  destruct (Nat.eqb mult 0) eqn:Emult.
  - (* no singular value below the tolerance *)
    apply Nat.eqb_eq in Emult.
    rewrite Hsigma in Hout. simpl in Hout.
    split; [split; [intros _; exact Emult | intros _; eauto]|].
    split.
    { intros _. exists sigma. split; [exact Hsigma|]. split; [|exact Hout].
      apply descending_last_least; assumption. }
    split.
    { intros C HC. rewrite Hout in HC. discriminate. }
    { intro Hpos. lia. }
  - (* at least one *)
    apply Nat.eqb_neq in Emult. simpl bind in Hout.
    assert (Hnot : forall sg,
               out <> Raise (ValueError (zero_multiplicity_msg lambda_ sg tol))).
    { intros sg Heq. rewrite Hout in Heq.
      destruct (la_solve_triangular K _ _) as [X|]; simpl in Heq;
        [|discriminate].
      destruct (assign_rows_upto _ cutoff X) as [C'|e] eqn:EC; simpl in Heq.
      - unfold take_rows in Heq. destruct (forallb _ _); discriminate.
      - unfold assign_rows_upto in EC. destruct (_ && _); [discriminate|].
        inversion EC; subst e. discriminate. }
    split; [split; [intros [sg Hsg]; exfalso; exact (Hnot sg Hsg) | intro; lia]|].
    split; [intro; lia|].
    split.
    { intros C HC. rewrite Hout in HC.
      apply bind_Ok in HC. destruct HC as [X [_ HC]].
      apply bind_Ok in HC. destruct HC as [C' [HC' HC]].
      apply assign_rows_upto_shape in HC'. apply take_rows_shape in HC.
      destruct HC' as [_ Hc']. destruct HC as [_ Hc].
      simpl in Hc'. split; [congruence | lia]. }
    { intros _ X HX HrX HcX HP. rewrite Hout, HX. simpl bind.
      unfold assign_rows_upto. simpl nrows. simpl ncols.
      rewrite HrX, HcX, !Nat.eqb_refl. simpl.
      unfold take_rows. simpl nrows. rewrite HP.
      eexists. split; [reflexivity|]. simpl. auto. }
Qed.

(** At the zero [lambda = 18.5] of the fixture the single singular
    value is 0: multiplicity one, one column. *)
Lemma eigenbasis_coef_multiplicity_witness :
  exists C,
    eigenbasis_coef Fixture.kernel Fixture.utils Fixture.weighted_square
                    18.5 None None = Ok C
    /\ ncols C = 1%nat.
Proof.
  edestruct (eigenbasis_coef_multiplicity Fixture.kernel Fixture.utils
               Fixture.weighted_square 18.5 None None)
    as (_ & _ & _ & H).
  - reflexivity.
  - reflexivity.
  - reflexivity.
  - reflexivity.
  - reflexivity.
  - reflexivity.
  - reflexivity.
  - repeat constructor.
  - discriminate.
  - edestruct H as (C & HC & Hcols & _).
    + vm_compute. reflexivity.
    + reflexivity.
    + reflexivity.
    + reflexivity.
    + reflexivity.
    + exists C. split; [exact HC | exact Hcols].
Defined.

(** With [rtol >= 1] no column passes the rank test: the threshold is at
    least the largest diagonal magnitude, and the test is strict. *)
Lemma rank_cutoff_none (r : list Q) (rtol : Q) :
  r <> [] ->
  Forall (fun x => 0 <= x) r ->
  descending r ->
  1 <= rtol ->
  rank_cutoff r rtol = Ok 0%nat.
Proof.
  intros Hne Hpos Hd Hr. destruct r as [|r0 r']; [congruence|].
  rewrite rank_cutoff_nonempty. f_equal.
  apply count_where_none.
  assert (H0 : 0 <= r0) by (inversion Hpos; assumption).
  assert (Hle : r0 <= r0 * rtol).
  { assert (H1 : 1 * r0 <= rtol * r0)
      by (apply Qmult_le_compat_r; assumption).
    rewrite Qmult_1_l in H1. rewrite (Qmult_comm r0 rtol). exact H1. }
  constructor.
  - apply Qltb_false. exact Hle.
  - eapply Forall_impl; [|apply descending_head_bounds; exact Hd].
    intros x Hx. simpl in Hx. apply Qltb_false.
    apply Qle_trans with r0; assumption.
Qed.

(** C2 fails on the code where the truncated block has no singular
    value.  On an instance with quadrature, let the pivoted QR deliver
    a triangular factor with at least one diagonal entry and
    non-increasing diagonal magnitudes, let [rtol >= 1], and let the
    SVD of the block without columns return no singular value.  Then
    the rank cutoff is 0 and the count of singular values below [mtol]
    is zero, but [eigenbasis_coef] raises [IndexError], from [s[-1]] in
    the message of the zero-multiplicity error, and not that error. *)
Theorem eigenbasis_coef_empty_block (K : Kernel) (U : Utils)
    (self : PolygonEVP) (lambda_ rtol1 : Q) (mtol_ : option Q)
    (w : matrix) (nb : Q -> matrix) (A bn Qm R : matrix) (P : list nat)
    (Um Vh : matrix) :
  weights self = Some w ->
  n_basis self = Some nb ->
  broadcast_mul w (nb lambda_) = Ok A ->
  bdry_nodes self = Some bn ->
  la_qr_pivot K A = (Qm, R, P) ->
  map Qabs (diag R) <> [] ->
  descending (map Qabs (diag R)) ->
  1 <= rtol1 ->
  la_svd K (slice Qm (nrows bn) 0) = Some (Um, [], Vh) ->
  let tol := default_to (mtol self) mtol_ in
  let out := eigenbasis_coef K U self lambda_ (Some rtol1) mtol_ in
  rank_cutoff (map Qabs (diag R)) rtol1 = Ok 0%nat
  /\ count_where (fun x => Qltb x tol) [] = 0%nat
  /\ out = Raise IndexError
  /\ forall sg, out <> Raise (ValueError (zero_multiplicity_msg lambda_ sg tol)).
Proof.
  intros Hw Hnb HA Hbn Hqr Hne Hd Hr Hsvd tol out.
  assert (Hcut : rank_cutoff (map Qabs (diag R)) rtol1 = Ok 0%nat).
  { apply rank_cutoff_none; try assumption.
    apply Forall_map. apply Forall_forall. intros x _. apply Qabs_nonneg. }
  assert (Hout : out = Raise IndexError).
  { unfold out, eigenbasis_coef. rewrite Hw, Hnb. simpl bind.
    rewrite HA, Hbn. simpl bind. rewrite Hqr. simpl default_to.
    rewrite Hcut. simpl bind.
    unfold svd_multiplicity. rewrite Hsvd. reflexivity. }
  split; [exact Hcut|]. split; [reflexivity|]. split; [exact Hout|].
  intros sg H. rewrite Hout in H. discriminate.
Qed.

(** The fixture with quadrature at [lambda = 18.5] and [rtol = 1]. *)
Lemma eigenbasis_coef_empty_block_witness :
  rank_cutoff (map Qabs (diag (Fixture.identity 1 1))) 1 = Ok 0%nat
  /\ count_where (fun x => Qltb x 1e-4) [] = 0%nat
  /\ eigenbasis_coef Fixture.kernel Fixture.utils Fixture.weighted_square
                     18.5 (Some 1) None = Raise IndexError
  /\ forall sg,
       eigenbasis_coef Fixture.kernel Fixture.utils Fixture.weighted_square
                       18.5 (Some 1) None
       <> Raise (ValueError (zero_multiplicity_msg 18.5 sg 1e-4)).
Proof.
  eapply (eigenbasis_coef_empty_block Fixture.kernel Fixture.utils
            Fixture.weighted_square 18.5 1 None).
  - reflexivity.
  - reflexivity.
  - reflexivity.
  - reflexivity.
  - reflexivity.
  - vm_compute. discriminate.
  - vm_compute. repeat constructor.
  - vm_compute. discriminate.
  - reflexivity.
Defined.

(** ** The registry: [np.sort] *)

Lemma Qle_bool_false (x y : Q) : Qle_bool x y = false -> y < x.
Proof.
  intro H. apply Qnot_le_lt. intro Hle. apply Qle_bool_iff in Hle. congruence.
Qed.

Lemma insert_sorted_perm (x : Q) (l : list Q) :
  Permutation (insert_sorted x l) (x :: l).
Proof.
  induction l as [|y l IH]; simpl.
  - apply Permutation_refl.
  - destruct (Qle_bool x y).
    + apply Permutation_refl.
    + apply perm_trans with (y :: x :: l).
      * apply perm_skip. exact IH.
      * apply perm_swap.
Qed.

Lemma np_sort_perm (l : list Q) : Permutation (np_sort l) l.
Proof.
  induction l as [|x l IH]; simpl.
  - apply perm_nil.
  - apply perm_trans with (x :: np_sort l).
    + apply insert_sorted_perm.
    + apply perm_skip. exact IH.
Qed.

Lemma insert_sorted_ascending (x : Q) (l : list Q) :
  ascending l -> ascending (insert_sorted x l).
Proof.
  unfold ascending. induction l as [|y l IH]; simpl; intro H.
  - repeat constructor.
  - destruct (Qle_bool x y) eqn:E.
    + constructor; [exact H|]. constructor. apply Qle_bool_iff. exact E.
    + inversion H as [|? ? Hs Hh]; subst.
      constructor; [apply IH; exact Hs|].
      apply Qle_bool_false in E.
      destruct l as [|z l]; simpl.
      * constructor. apply Qlt_le_weak. exact E.
      * destruct (Qle_bool x z).
        -- constructor. apply Qlt_le_weak. exact E.
        -- inversion Hh; subst. constructor. assumption.
Qed.

Lemma np_sort_ascending (l : list Q) : ascending (np_sort l).
Proof.
  induction l as [|x l IH]; simpl.
  - constructor.
  - apply insert_sorted_ascending. exact IH.
Qed.

Lemma insert_sorted_head (x : Q) (l : list Q) :
  ascending (x :: l) -> insert_sorted x l = x :: l.
Proof.
  unfold ascending. intro H. inversion H as [|? ? _ Hh]; subst.
  destruct l as [|y l]; simpl; [reflexivity|].
  inversion Hh; subst.
  assert (E : Qle_bool x y = true) by (apply Qle_bool_iff; assumption).
  rewrite E. reflexivity.
Qed.

(** Sorting a sorted array leaves it as it is. *)
Lemma np_sort_fixed (l : list Q) : ascending l -> np_sort l = l.
Proof.
  induction l as [|x l IH]; simpl; intro H.
  - reflexivity.
  - rewrite IH by (unfold ascending in *; inversion H; assumption).
    apply insert_sorted_head. exact H.
Qed.

Lemma np_sort_idempotent (l : list Q) : np_sort (np_sort l) = np_sort l.
Proof. apply np_sort_fixed. apply np_sort_ascending. Qed.

Lemma insert_sorted_swap (x y : Q) (l : list Q) :
  Qle_bool x y = false ->
  insert_sorted y (insert_sorted x l) = insert_sorted x (insert_sorted y l).
Proof.
  intro Hxy.
  assert (Hyx : Qle_bool y x = true).
  { apply Qle_bool_iff. apply Qlt_le_weak. apply Qle_bool_false. exact Hxy. }
  induction l as [|z l IH]; simpl.
  - rewrite Hyx, Hxy. reflexivity.
  - destruct (Qle_bool x z) eqn:Exz; simpl.
    + rewrite Hyx.
      assert (Eyz : Qle_bool y z = true).
      { apply Qle_bool_iff. apply Qle_trans with x; apply Qle_bool_iff; assumption. }
      rewrite Eyz. simpl. rewrite Hxy, Exz. reflexivity.
    + destruct (Qle_bool y z) eqn:Eyz; simpl.
      * rewrite Hxy, Exz. reflexivity.
      * rewrite Exz, IH. reflexivity.
Qed.

Lemma np_sort_insert_app (x : Q) (s e : list Q) :
  np_sort (insert_sorted x s ++ e) = insert_sorted x (np_sort (s ++ e)).
Proof.
  induction s as [|y s IH]; simpl.
  - reflexivity.
  - destruct (Qle_bool x y) eqn:E; simpl.
    + reflexivity.
    + rewrite IH. apply insert_sorted_swap. exact E.
Qed.

(** Re-sorting after an append is sorting the whole. *)
Lemma np_sort_app_sorted (l e : list Q) :
  np_sort (np_sort l ++ e) = np_sort (l ++ e).
Proof.
  induction l as [|x l IH]; simpl.
  - reflexivity.
  - rewrite np_sort_insert_app, IH. reflexivity.
Qed.

(** Values that are not below any entry of a sorted array land after it. *)
Lemma np_sort_app_above (r e : list Q) :
  ascending r ->
  Forall (fun x => Forall (fun y => y <= x) r) e ->
  np_sort (r ++ e) = r ++ np_sort e.
Proof.
  induction r as [|a r IH]; simpl; intros Hr He.
  - reflexivity.
  - assert (Hr' : ascending r) by (unfold ascending in *; inversion Hr; assumption).
    rewrite IH; [|exact Hr'|].
    + apply insert_sorted_head.
      unfold ascending in *. constructor.
      * rewrite <- IH; [apply np_sort_ascending|exact Hr'|].
        eapply Forall_impl; [|exact He].
        intros x Hx. inversion Hx; assumption.
      * destruct r as [|b r]; simpl.
        -- assert (Hin : Forall (fun x => a <= x) (np_sort e)).
           { eapply Permutation_Forall.
             - apply Permutation_sym. apply np_sort_perm.
             - eapply Forall_impl; [|exact He].
               intros x Hx. inversion Hx; assumption. }
           destruct (np_sort e) as [|c l]; constructor.
           inversion Hin; assumption.
        -- inversion Hr as [|? ? _ Hh]; subst. inversion Hh; subst.
           constructor. assumption.
    + eapply Forall_impl; [|exact He].
      intros x Hx. inversion Hx; assumption.
Qed.

Lemma ordered_eigs_ascending (self : PolygonEVP) : ascending (ordered_eigs self).
Proof. apply np_sort_ascending. Qed.

(** The getter after the setter. *)
Lemma ordered_eigs_set (self : PolygonEVP) (arr : list Q) :
  ordered_eigs (set_ordered_eigs self arr) = np_sort arr.
Proof. unfold ordered_eigs, set_ordered_eigs. simpl. apply np_sort_idempotent. Qed.

Lemma grows_refl (a : list Q) : ascending a -> grows a a.
Proof.
  intro H. exists []. rewrite app_nil_r. symmetry. apply np_sort_fixed. exact H.
Qed.

Lemma grows_trans (a b c : list Q) : grows a b -> grows b c -> grows a c.
Proof.
  intros [e1 H1] [e2 H2]. exists (e1 ++ e2).
  rewrite H2, H1, np_sort_app_sorted, app_assoc. reflexivity.
Qed.

(** ** Eigenvalue locator: the bracket *)

Lemma escalate_reaches (NP : NumPy) (self : PolygonEVP) (xtol start0 : Q)
    (k_current lev : nat) :
  ~ weyl_k NP self (k_current + lev) + 1e8 * xtol < start0 ->
  forall (d l fuel : nat),
    lev = (l + d)%nat ->
    (d <= fuel)%nat ->
    (forall j, (l <= j < lev)%nat ->
               weyl_k NP self (k_current + j) + 1e8 * xtol < start0) ->
    escalate NP fuel self xtol k_current start0
             (weyl_k NP self (k_current + l)) l
    = Some (weyl_k NP self (k_current + lev), lev).
Proof.
  intros Hstop. induction d as [|d IH]; intros l fuel Hlev Hfuel Hesc.
  - assert (l = lev) by lia. subst l.
    destruct fuel; simpl.
    + assert (E : Qltb (weyl_k NP self (k_current + lev) + 1e8 * xtol) start0 = false)
        by (apply Qltb_false; apply Qnot_lt_le; exact Hstop).
      rewrite E. reflexivity.
    + assert (E : Qltb (weyl_k NP self (k_current + lev) + 1e8 * xtol) start0 = false)
        by (apply Qltb_false; apply Qnot_lt_le; exact Hstop).
      rewrite E. reflexivity.
  - destruct fuel as [|fuel]; [lia|]. simpl.
    assert (E : Qltb (weyl_k NP self (k_current + l) + 1e8 * xtol) start0 = true)
      by (apply Qltb_lt; apply Hesc; lia).
    rewrite E. apply IH; [lia | lia |].
    intros j Hj. apply Hesc. lia.
Qed.

(** C6, as the code has it.  In a round that does not extend the
    previous one the index of the Weyl estimate is escalated exactly
    while the estimate is more than the margin [1e8*xtol] below the
    starting point.  So let [lev] be the first level at which
    [weyl_k(k_current+lev) + 1e8*xtol < start] fails, every lower level
    having been escalated.  Given fuel for [lev - 1] escalations, the
    bracket ends at that estimate, whose value is
    [((P+sqrt(P^2+16 pi A k))/(2A))^2], the step is the width of the
    bracket divided by [20*lev], and the round searches from the
    starting point (one step lower once an eigenvalue is recorded) to
    one step past the end with that step, and carries the level on. *)
Theorem scan_bracket_weyl (K : Kernel) (U : Utils) (NP : NumPy)
    (st : scan_state) (k : nat) (xtol ytol : Q) (verbose : bool)
    (lev fuel : nat) :
  extend st = false ->
  (1 <= lev)%nat ->
  (lev <= S fuel)%nat ->
  let self := evp st in
  let k_current := List.length (ordered_eigs self) in
  let start0 := if Nat.eqb k_current 0 then lambda_1_lb self
                else nth (k_current - 1) (ordered_eigs self) 0 in
  (forall j, (1 <= j < lev)%nat ->
             weyl_k NP self (k_current + j) + 1e8 * xtol < start0) ->
  ~ weyl_k NP self (k_current + lev) + 1e8 * xtol < start0 ->
  let end0 := weyl_k NP self (k_current + lev) in
  let h := (end0 - start0) / Q_of_nat (20 * lev) in
  let start1 := if negb (Nat.eqb k_current 0) then start0 - h else start0 in
  scan_bracket NP fuel xtol st = Some (start0, end0, lev, h)
  /\ end0
     = ((perimiter self
         + np_sqrt NP (perimiter self ^ 2
                       + 16 * np_pi NP * area self
                         * Q_of_nat (k_current + lev)))
        / (2 * area self)) ^ 2
  /\ scan_round K U NP fuel k xtol ytol verbose st
     = match minsearch U (obj K NP self) start1 (end0 + h) h xtol with
       | Raise e => Failed e
       | Ok (minima, fe) =>
           match process_minima K NP self k xtol ytol verbose minima with
           | Raise e => Failed e
           | Ok self' =>
               if Nat.eqb (List.length (ordered_eigs self')) k_current
               then Done (mk_scan self' (fevals st + fe) true
                                  end0 (end0 + (end0 - start1)) lev)
               else Done (mk_scan self' (fevals st + fe) false
                                  start1 end0 lev)
           end
       end.
Proof.
  intros Hext Hlev Hfuel self k_current start0 Hesc Hstop end0 h start1.
  assert (Hb : scan_bracket NP fuel xtol st = Some (start0, end0, lev, h)).
  { unfold scan_bracket. rewrite Hext. simpl negb. cbv iota.
    fold self. fold k_current. fold start0.
    rewrite (escalate_reaches NP self xtol start0 k_current lev Hstop
               (lev - 1) 1 fuel); [reflexivity | lia | lia | exact Hesc]. }
  split; [exact Hb|]. split; [reflexivity|].
  unfold scan_round. rewrite Hb. reflexivity.
Qed.

(** The fixture with the value 100 recorded as its first eigenvalue:
    the estimates for the indices 2, 3 and 4 (about 54.7, 71.5 and
    87.7) are more than the margin below 100 and are escalated, the
    estimate for the index 5 (about 103.5) is kept at level 4, and the
    step is the width divided by 80. *)
Lemma scan_bracket_weyl_witness :
  scan_bracket Fixture.numpy 3 1e-8
    (mk_scan (set_ordered_eigs Fixture.square [100]) 0 false 0 0 1)
  = Some (100,
          weyl_k Fixture.numpy (set_ordered_eigs Fixture.square [100]) (1 + 4),
          4%nat,
          (weyl_k Fixture.numpy (set_ordered_eigs Fixture.square [100]) (1 + 4)
           - 100) / Q_of_nat (20 * 4))
  /\ 100 < weyl_k Fixture.numpy (set_ordered_eigs Fixture.square [100]) (1 + 4).
Proof.
  split; [|vm_compute; reflexivity].
  apply (proj1 (scan_bracket_weyl Fixture.kernel Fixture.utils Fixture.numpy
                  (mk_scan (set_ordered_eigs Fixture.square [100]) 0 false 0 0 1)
                  2 1e-8 1e-5 false 4 3
                  eq_refl ltac:(lia) ltac:(lia)
                  ltac:(intros j Hj;
                        assert (Hc : j = 1%nat \/ j = 2%nat \/ j = 3%nat) by lia;
                        destruct Hc as [->|[->| ->]]; vm_compute; reflexivity)
                  ltac:(vm_compute; discriminate))).
Defined.

(** C6 as stated fails when the estimate falls short of the starting
    point by less than the margin.  On the fixture with the value 55
    recorded, the estimate for the index 2 (about 54.72) is not past
    the starting point 55, yet with [xtol = 1e-8] (margin 1) nothing is
    escalated although fuel is left: the level stays 1, the bracket
    ends below its start and the step is negative. *)
Lemma scan_bracket_estimate_below_start :
  exists end0 h,
    scan_bracket Fixture.numpy 5 1e-8
      (mk_scan (set_ordered_eigs Fixture.square [55]) 0 false 0 0 1)
    = Some (55, end0, 1%nat, h)
    /\ end0 = weyl_k Fixture.numpy (set_ordered_eigs Fixture.square [55]) (1 + 1)
    /\ end0 < 55
    /\ h < 0.
Proof.
  eexists _, _. split; [vm_compute; reflexivity|].
  split; [vm_compute; reflexivity|].
  split; vm_compute; reflexivity.
Qed.

(** A round that extends the previous one keeps its bracket and level;
    the step is again the width divided by [20*lev]. *)
Lemma scan_bracket_extended (NP : NumPy) (st : scan_state) (xtol : Q)
    (fuel : nat) :
  extend st = true ->
  scan_bracket NP fuel xtol st
  = Some (start st, end_ st, lev st,
          (end_ st - start st) / Q_of_nat (20 * lev st)).
Proof. intro H. unfold scan_bracket. rewrite H. reflexivity. Qed.

(** ** Eigenvalue locator: the registry across rounds and calls *)

Section RegistryGrowth.

Variable K : Kernel.
Variable U : Utils.
Variable NP : NumPy.

Lemma process_minima_grows (k : nat) (xtol ytol : Q) (verbose : bool)
    (minima : list Q) :
  forall self self',
    process_minima K NP self k xtol ytol verbose minima = Ok self' ->
    grows (ordered_eigs self) (ordered_eigs self').
Proof.
  induction minima as [|x_min rest IH]; intros self self' H; simpl in H.
  - inversion H; subst. apply grows_refl. apply ordered_eigs_ascending.
  - apply bind_Ok in H. destruct H as [_ [_ H]].
    apply bind_Ok in H. destruct H as [s [_ H]].
    destruct (negb (is_duplicate self x_min xtol)
              && Nat.ltb 0 (count_where (fun v => Qltb v ytol) s)).
    + set (self1 := set_ordered_eigs self
                      (ordered_eigs self
                       ++ repeat x_min (count_where (fun v => Qltb v ytol) s)))
        in *.
      assert (Hstep : grows (ordered_eigs self) (ordered_eigs self1)).
      { eexists. unfold self1. rewrite ordered_eigs_set. reflexivity. }
      destruct (Nat.leb k (List.length (ordered_eigs self1))).
      * inversion H; subst. exact Hstep.
      * eapply grows_trans; [exact Hstep | apply IH; exact H].
    + apply IH. exact H.
Qed.

Lemma scan_round_grows (fuel k : nat) (xtol ytol : Q) (verbose : bool)
    (st st' : scan_state) :
  scan_round K U NP fuel k xtol ytol verbose st = Done st' ->
  grows (ordered_eigs (evp st)) (ordered_eigs (evp st')).
Proof.
  unfold scan_round.
  destruct (scan_bracket NP fuel xtol st) as [[[[start0 end0] lev0] h]|];
    [|discriminate].
  destruct (minsearch U _ _ _ _ _) as [[minima fe]|e]; [|discriminate].
  destruct (process_minima K NP (evp st) k xtol ytol verbose minima)
    as [self'|e] eqn:E; [|discriminate].
  apply process_minima_grows in E.
  destruct (Nat.eqb _ _); intro H; inversion H; subst; simpl; exact E.
Qed.

Lemma scan_loop_grows (k : nat) (xtol ytol : Q) (verbose : bool) :
  forall fuel st st',
    scan_loop K U NP fuel k xtol ytol verbose st = Done st' ->
    grows (ordered_eigs (evp st)) (ordered_eigs (evp st'))
    /\ (k <= List.length (ordered_eigs (evp st')))%nat.
Proof.
  induction fuel as [|fuel IH]; intros st st' H; simpl in H.
  - destruct (Nat.ltb _ k) eqn:E; [discriminate|].
    inversion H; subst. apply Nat.ltb_ge in E.
    split; [apply grows_refl; apply ordered_eigs_ascending | exact E].
  - destruct (Nat.ltb _ k) eqn:E.
    + destruct (scan_round K U NP fuel k xtol ytol verbose st) as [st1| |] eqn:R;
        try discriminate.
      apply scan_round_grows in R. apply IH in H. destruct H as [H Hk].
      split; [eapply grows_trans; eauto | exact Hk].
    + inversion H; subst. apply Nat.ltb_ge in E.
      split; [apply grows_refl; apply ordered_eigs_ascending | exact E].
Qed.

(** A call that finds the registry long enough returns it at once. *)
Lemma scan_loop_enough (fuel k : nat) (xtol ytol : Q) (verbose : bool)
    (st : scan_state) :
  (k <= List.length (ordered_eigs (evp st)))%nat ->
  scan_loop K U NP fuel k xtol ytol verbose st = Done st.
Proof.
  intro H. apply Nat.ltb_ge in H.
  destruct fuel; simpl; rewrite H; reflexivity.
Qed.

Lemma solve_ordered_eigs_done (fuel k : nat) (self self' : PolygonEVP)
    (xtol ytol : Q) (verbose : bool) (r : list Q) (fe : nat) :
  solve_ordered_eigs K U NP fuel self k xtol ytol verbose = Done (r, fe, self') ->
  r = ordered_eigs self'
  /\ grows (ordered_eigs self) r
  /\ (k <= List.length r)%nat.
Proof.
  unfold solve_ordered_eigs.
  destruct (scan_loop K U NP fuel k xtol ytol verbose _) as [st| |] eqn:E;
    try discriminate.
  intro H. inversion H; subst.
  apply scan_loop_grows in E. simpl in E. destruct E as [Hg Hk].
  split; [reflexivity | split; assumption].
Qed.

End RegistryGrowth.

(** C3, as the code has it.  When [solve_ordered_eigs(k)] and then
    [solve_ordered_eigs(k')] return on one instance, both results are in
    non-decreasing order and hold at least [k] and [k'] values; the
    second result is the first one with further values appended and
    sorted again, so every value of the first is kept; the first is a
    prefix of the second when none of the further values is below a
    value of the first; and when the first already holds [k'] values the
    second call returns it unchanged without a single evaluation. *)
Theorem solve_ordered_eigs_extends (K : Kernel) (U : Utils) (NP : NumPy)
    (fuel1 fuel2 k k' : nat) (self self1 self2 : PolygonEVP)
    (xtol ytol : Q) (verbose : bool) (r1 r2 : list Q) (fe1 fe2 : nat) :
  solve_ordered_eigs K U NP fuel1 self k xtol ytol verbose
  = Done (r1, fe1, self1) ->
  solve_ordered_eigs K U NP fuel2 self1 k' xtol ytol verbose
  = Done (r2, fe2, self2) ->
  ascending r1 /\ ascending r2
  /\ (k <= List.length r1)%nat /\ (k' <= List.length r2)%nat
  /\ (exists extra,
        r2 = np_sort (r1 ++ extra)
        /\ Permutation r2 (r1 ++ extra)
        /\ (Forall (fun x => Forall (fun y => y <= x) r1) extra ->
            r2 = r1 ++ np_sort extra))
  /\ ((k' <= List.length r1)%nat -> r2 = r1 /\ fe2 = 0%nat).
Proof.
  intros H1 H2.
  pose proof (solve_ordered_eigs_done K U NP _ _ _ _ _ _ _ _ _ H1)
    as [Hr1 [_ Hk1]].
  pose proof (solve_ordered_eigs_done K U NP _ _ _ _ _ _ _ _ _ H2)
    as [Hr2 [Hg Hk2]].
  rewrite <- Hr1 in Hg.
  assert (Ha1 : ascending r1) by (rewrite Hr1; apply ordered_eigs_ascending).
  assert (Ha2 : ascending r2) by (rewrite Hr2; apply ordered_eigs_ascending).
  repeat (split; [assumption|]).
  split.
  - destruct Hg as [extra Hextra]. exists extra.
    split; [exact Hextra|]. split.
    + rewrite Hextra. apply np_sort_perm.
    + intro Habove. rewrite Hextra. apply np_sort_app_above; assumption.
  - intro Hlen. unfold solve_ordered_eigs in H2.
    rewrite scan_loop_enough in H2 by (simpl; rewrite <- Hr1; exact Hlen).
    inversion H2 as [[Hreg Hfe Hself]]. simpl in Hreg.
    split; congruence.
Qed.

(** Two calls on the fixture, for one and then two eigenvalues. *)
Lemma solve_ordered_eigs_extends_witness :
  ascending [18.5] /\ ascending [17.5; 18.5]
  /\ (1 <= List.length [18.5%Q])%nat
  /\ (2 <= List.length [17.5%Q; 18.5%Q])%nat
  /\ (exists extra,
        [17.5; 18.5] = np_sort ([18.5] ++ extra)
        /\ Permutation [17.5; 18.5] ([18.5] ++ extra)
        /\ (Forall (fun x => Forall (fun y => y <= x) [18.5]) extra ->
            [17.5; 18.5] = [18.5] ++ np_sort extra))
  /\ ((2 <= List.length [18.5%Q])%nat ->
      [17.5; 18.5] = [18.5] /\ 2%nat = 0%nat).
Proof.
  apply (solve_ordered_eigs_extends Fixture.kernel Fixture.utils Fixture.numpy
           5 5 1 2 Fixture.square
           (set_ordered_eigs Fixture.square [18.5])
           (set_ordered_eigs Fixture.square [17.5; 18.5])
           1e-8 1e-5 false [18.5] [17.5; 18.5] 1 2).
  - vm_compute. reflexivity.
  - vm_compute. reflexivity.
Defined.

(** C3 as stated fails.  The basis of the fixture has a zero at 17.5 and
    one at 18.5.  The first call scans up from the lower bound 18.09...
    and returns [18.5]; the second call starts one step below 18.5
    (the ghost points), meets 17.5, and returns [17.5; 18.5], of which
    [18.5] is no prefix. *)
Lemma solve_ordered_eigs_not_prefix :
  exists self1 self2 : PolygonEVP,
    solve_ordered_eigs Fixture.kernel Fixture.utils Fixture.numpy
                       5 Fixture.square 1 1e-8 1e-5 false
    = Done ([18.5], 1%nat, self1)
    /\ solve_ordered_eigs Fixture.kernel Fixture.utils Fixture.numpy
                          5 self1 2 1e-8 1e-5 false
       = Done ([17.5; 18.5], 2%nat, self2)
    /\ ~ (exists tail, [17.5; 18.5] = [18.5] ++ tail).
Proof.
  exists (set_ordered_eigs Fixture.square [18.5]).
  exists (set_ordered_eigs Fixture.square [17.5; 18.5]).
  split; [vm_compute; reflexivity|]. split; [vm_compute; reflexivity|].
  intros [tail H]. discriminate H.
Qed.

(** ** Eigenvalue locator: the lower bound of the first eigenvalue *)

Section FirstEigenvalue.

Variable K : Kernel.
Variable U : Utils.
Variable NP : NumPy.
Variables xtol ytol : Q.
Variable verbose : bool.

Lemma np_sort_length (l : list Q) : List.length (np_sort l) = List.length l.
Proof. apply Permutation_length. apply np_sort_perm. Qed.

(** With [k = 1] and an empty registry the [for] loop either confirms
    nothing and leaves the instance as it is, or confirms one of the
    minima and stops. *)
Lemma process_minima_first (minima : list Q) :
  forall self self',
    ordered_eigs self = [] ->
    process_minima K NP self 1 xtol ytol verbose minima = Ok self' ->
    self' = self
    \/ exists x mult, In x minima /\ (0 < mult)%nat
                      /\ ordered_eigs self' = np_sort (repeat x mult).
Proof.
  induction minima as [|x_min rest IH]; intros self self' Hempty H; simpl in H.
  - inversion H. left. reflexivity.
  - apply bind_Ok in H. destruct H as [_ [_ H]].
    apply bind_Ok in H. destruct H as [s [_ H]].
    destruct (negb (is_duplicate self x_min xtol)
              && Nat.ltb 0 (count_where (fun v => Qltb v ytol) s)) eqn:E.
    + apply andb_true_iff in E. destruct E as [_ Hm]. apply Nat.ltb_lt in Hm.
      rewrite Hempty in H. simpl app in H.
      rewrite ordered_eigs_set, np_sort_length, repeat_length in H.
      remember (count_where (fun v => Qltb v ytol) s) as c eqn:Hc.
      destruct c as [|c]; [lia|]. simpl in H.
      inversion H as [Hself]. right.
      exists x_min, (S c).
      split; [left; reflexivity|]. split; [exact Hm|].
      apply ordered_eigs_set.
    + destruct (IH self self' Hempty H) as [Hs | [x [m [Hin Hx]]]].
      * left. exact Hs.
      * right. exists x, m. split; [right; exact Hin | exact Hx].
Qed.

Variable self : PolygonEVP.

Hypothesis registry_empty : ordered_eigs self = [].
Hypothesis xtol_nonneg : 0 <= xtol.
Hypothesis weyl_above_bound : lambda_1_lb self <= weyl_k NP self 1.
Hypothesis minsearch_in_bracket :
  forall f a b h minima n,
    minsearch U f a b h xtol = Ok (minima, n) ->
    Forall (fun m => a - xtol <= m) minima.

Lemma scan_bracket_above_bound (fuel : nat) (st : scan_state) :
  scanning self st ->
  exists start0 end0 lev0 h,
    scan_bracket NP fuel xtol st = Some (start0, end0, lev0, h)
    /\ lambda_1_lb self <= start0 /\ start0 <= end0.
Proof.
  intros [Hevp Hext]. unfold scan_bracket. rewrite Hevp, registry_empty.
  simpl List.length. simpl Nat.eqb. cbv iota.
  destruct (extend st) eqn:E; simpl negb; cbv iota.
  - destruct (Hext eq_refl) as [H1 H2]. eauto 8.
  - assert (Hno : Qltb (weyl_k NP self (0 + 1) + 1e8 * xtol) (lambda_1_lb self)
                  = false).
    { apply Qltb_false. simpl Nat.add.
      apply Qle_trans with (weyl_k NP self 1); [exact weyl_above_bound|].
      rewrite <- (Qplus_0_r (weyl_k NP self 1)) at 1.
      apply Qplus_le_r. apply Qmult_le_0_compat; [discriminate | exact xtol_nonneg]. }
    assert (Hesc : escalate NP fuel self xtol 0 (lambda_1_lb self)
                            (weyl_k NP self (0 + 1)) 1
                   = Some (weyl_k NP self (0 + 1), 1%nat)).
    { destruct fuel; simpl; simpl in Hno; rewrite Hno; reflexivity. }
    rewrite Hesc.
    eexists _, _, _, _. split; [reflexivity|].
    split; [apply Qle_refl | exact weyl_above_bound].
Qed.

Lemma scan_loop_first :
  forall fuel st st',
    scanning self st ->
    scan_loop K U NP fuel 1 xtol ytol verbose st = Done st' ->
    ordered_eigs (evp st') <> []
    /\ Forall (fun e => lambda_1_lb self - xtol <= e) (ordered_eigs (evp st')).
Proof.
  induction fuel as [|fuel IH]; intros st st' Hinv H; simpl in H.
  - destruct Hinv as [Hevp _]. rewrite Hevp, registry_empty in H.
    simpl in H. discriminate.
  - pose proof Hinv as [Hevp _].
    rewrite Hevp, registry_empty in H. simpl Nat.ltb in H. cbv iota in H.
    destruct (scan_round K U NP fuel 1 xtol ytol verbose st) as [st1| |] eqn:R;
      try discriminate.
    unfold scan_round in R.
    destruct (scan_bracket_above_bound fuel st Hinv)
      as (start0 & end0 & lev0 & h & Hb & Hlo & Hhi).
    rewrite Hb in R. rewrite Hevp, registry_empty in R.
    simpl List.length in R. simpl Nat.eqb in R. simpl negb in R. cbv iota in R.
    destruct (minsearch U (obj K NP self) start0 (end0 + h) h xtol)
      as [[minima fe]|e] eqn:M; [|discriminate].
    apply minsearch_in_bracket in M.
    destruct (process_minima K NP self 1 xtol ytol verbose minima)
      as [self1|e] eqn:Pm; [|discriminate].
    destruct (process_minima_first minima self self1 registry_empty Pm)
      as [Hsame | [x [m [Hin [Hm Hreg]]]]].
    + (* nothing confirmed: the window moves up *)
      subst self1. rewrite registry_empty in R. simpl in R.
      inversion R; subst st1; clear R.
      apply (IH _ _ ) in H; [exact H|].
      split; [reflexivity|]. simpl. intros _.
      split; [apply Qle_trans with start0; assumption|].
      rewrite <- (Qplus_0_r end0) at 1. apply Qplus_le_r.
      unfold Qminus. rewrite <- Qle_minus_iff. exact Hhi.
    + (* a minimum confirmed: the loop ends *)
      assert (Hlen : List.length (ordered_eigs self1) = m)
        by (rewrite Hreg, np_sort_length; apply repeat_length).
      rewrite Hlen in R.
      destruct m as [|m]; [lia|]. simpl Nat.eqb in R. cbv iota in R.
      inversion R; subst st1; clear R.
      rewrite scan_loop_enough in H by (simpl; lia).
      inversion H; subst st'; clear H. simpl.
      split.
      * intro Habs. rewrite Habs in Hlen. discriminate.
      * rewrite Hreg. eapply Permutation_Forall.
        -- apply Permutation_sym. apply np_sort_perm.
        -- apply Forall_forall. intros y Hy. apply repeat_spec in Hy. subst y.
           rewrite Forall_forall in M. specialize (M x Hin). simpl in M.
           apply Qle_trans with (start0 - xtol); [|exact M].
           unfold Qminus. apply Qplus_le_l. exact Hlo.
Qed.

End FirstEigenvalue.

Lemma init_fresh (NP : NumPy) (G : Geometry) (a : init_args)
    (self : PolygonEVP) :
  init NP G a = Ok self ->
  lambda_1_lb self = 5.76 * np_pi NP / area self
  /\ ordered_eigs self = [].
Proof.
  unfold init. intro H.
  apply bind_Ok in H. destruct H as [[x_v y_v] [_ H]].
  apply bind_Ok in H. destruct H as [bp [_ H]].
  apply bind_Ok in H. destruct H as [ip [_ H]].
  apply bind_Ok in H. destruct H as [pts [_ H]].
  apply bind_Ok in H. destruct H as [q [_ H]].
  inversion H; subst self. split; reflexivity.
Qed.

(** C4, as the code has it.  On an instance fresh from [__init__],
    whose Weyl estimate for the first eigenvalue is not below the bound
    [5.76 pi/area], with [xtol >= 0] and a [minsearch] that returns no
    point more than [xtol] below the left end of its bracket, a call
    [solve_ordered_eigs(1, xtol, ...)] that returns, returns at least one
    eigenvalue and none below [5.76 pi/area - xtol]. *)
Theorem solve_first_eigenvalue_bound (K : Kernel) (U : Utils) (NP : NumPy)
    (G : Geometry) (a : init_args) (self self' : PolygonEVP) (fuel : nat)
    (xtol ytol : Q) (verbose : bool) (r : list Q) (fe : nat) :
  init NP G a = Ok self ->
  0 <= xtol ->
  5.76 * np_pi NP / area self <= weyl_k NP self 1 ->
  (forall f a b h minima n,
     minsearch U f a b h xtol = Ok (minima, n) ->
     Forall (fun m => a - xtol <= m) minima) ->
  solve_ordered_eigs K U NP fuel self 1 xtol ytol verbose = Done (r, fe, self') ->
  r <> []
  /\ Forall (fun e => 5.76 * np_pi NP / area self - xtol <= e) r.
Proof.
  intros Hinit Hx Hw Hms Hrun.
  apply init_fresh in Hinit. destruct Hinit as [Hlb Hempty].
  rewrite <- Hlb in *.
  unfold solve_ordered_eigs in Hrun.
  destruct (scan_loop K U NP fuel 1 xtol ytol verbose _) as [st| |] eqn:E;
    try discriminate.
  inversion Hrun; subst r fe self'; clear Hrun.
  apply (scan_loop_first K U NP xtol ytol verbose self Hempty Hx Hw Hms) in E.
  - exact E.
  - split; [reflexivity|]. simpl. discriminate.
Qed.

(** The fixture meets the assumptions, and its first eigenvalue is 18.5. *)
Lemma solve_first_eigenvalue_bound_witness :
  [18.5] <> []
  /\ Forall (fun e => 5.76 * np_pi Fixture.numpy / area Fixture.square - 1e-8 <= e)
            [18.5].
Proof.
  apply (solve_first_eigenvalue_bound Fixture.kernel Fixture.utils Fixture.numpy
           Fixture.geometry (Fixture.args (PtsInt 1) (PtsInt 1))
           Fixture.square (set_ordered_eigs Fixture.square [18.5])
           5 1e-8 1e-5 false [18.5] 1).
  - reflexivity.
  - vm_compute. discriminate.
  - vm_compute. discriminate.
  - intros f a b h minima n H.
    unfold Fixture.utils, minsearch in H. inversion H; subst.
    apply Forall_forall. intros z Hz.
    change (In z (filter (fun z => Qle_bool a z && Qle_bool z b)
                         Fixture.zeros_of_basis)) in Hz.
    apply filter_In in Hz.
    destruct Hz as [_ Hz]. apply andb_true_iff in Hz. destruct Hz as [Hz _].
    apply Qle_bool_iff in Hz.
    apply Qle_trans with a; [|exact Hz].
    rewrite <- (Qplus_0_r a) at 2. unfold Qminus. apply Qplus_le_r.
    vm_compute. discriminate.
  - vm_compute. reflexivity.
Defined.

(** C4 as stated fails for [k = 2].  On the fixture, whose [minsearch]
    stays inside its bracket, the first round confirms 18.5; the second
    round starts one step below 18.5, which is below the bound
    [5.76 pi/area = 18.09...], and confirms 17.5: the smallest
    eigenvalue returned is more than [xtol] below the bound. *)
Lemma solve_second_round_below_bound :
  exists self' : PolygonEVP,
    solve_ordered_eigs Fixture.kernel Fixture.utils Fixture.numpy
                       5 Fixture.square 2 1e-8 1e-5 false
    = Done ([17.5; 18.5], 3%nat, self')
    /\ ~ (5.76 * np_pi Fixture.numpy / area Fixture.square - 1e-8 <= 17.5).
Proof.
  exists (set_ordered_eigs Fixture.square [17.5; 18.5]).
  split; [vm_compute; reflexivity|].
  vm_compute. intro H. apply H. reflexivity.
Qed.

(** ** Further properties of the subspace angle engine *)

(** X1.  [sigma] returns the smallest singular value of the truncated
    boundary block.  Let the QR factorization of the basis matrix
    deliver its factors, and let [cutoff] be the number of diagonal
    magnitudes of the triangular factor above [rtol] times the first
    one (without pivoting, the number of columns of the orthonormal
    factor).  When the SVD of [Q[:m_b,:cutoff]] delivers its singular
    values in descending order, [sigma] is the last of them, one of the
    values and a lower bound of all; with no singular value at all it
    raises [IndexError]. *)
Theorem sigma_smallest (K : Kernel) (self : PolygonEVP) (lambda_ : Q)
    (rtol_ : option Q) (pivot : bool) (Qm R : matrix) (P : list nat)
    (r0 : Q) (r' sv : list Q) :
  let A := basis self lambda_ in
  let tol := default_to (rtol self) rtol_ in
  (if pivot
   then la_qr_pivot K A = (Qm, R, P) /\ map Qabs (diag R) = r0 :: r'
   else la_qr K A = (Qm, R)) ->
  let cutoff := if pivot
                then count_where (fun x => Qltb (r0 * tol) x) (r0 :: r')
                else ncols Qm in
  la_svd_vals K (slice Qm (nrows (boundary_pts self)) cutoff) = Some sv ->
  descending sv ->
  sigma K self lambda_ rtol_ pivot = last_item sv
  /\ (sv = [] -> sigma K self lambda_ rtol_ pivot = Raise IndexError)
  /\ (forall x, sigma K self lambda_ rtol_ pivot = Ok x ->
                In x sv /\ Forall (fun y => x <= y) sv).
Proof.
  intros A tol Hfac cutoff Hsvd Hd.
  assert (Hs : sigma K self lambda_ rtol_ pivot = last_item sv).
  { unfold sigma, subspace_sines. simpl default_to. fold A. fold tol.
    rewrite (qr_truncate_factors K A tol pivot Qm R P r0 r' Hfac).
    simpl bind. fold cutoff.
    unfold reversed_singular_values. rewrite Hsvd. simpl bind.
    unfold first_item, last_item. reflexivity. }
  split; [exact Hs|]. split.
  - intro He. rewrite Hs, He. reflexivity.
  - intros x Hx. rewrite Hs in Hx. split.
    + apply last_item_rev_head in Hx. destruct Hx as [l' Hl].
      apply in_rev. rewrite Hl. left. reflexivity.
    + apply descending_last_least; assumption.
Qed.

(** The two-function basis at [lambda = 19.5].  With the default
    tolerance both columns are kept, the singular values are 4/5 and
    8/17, and [sigma] is the smaller one, below the other.  With
    [rtol = 1] no column is kept, there is no singular value, and
    [sigma] raises [IndexError]. *)
Lemma sigma_smallest_witness :
  (exists x y,
     sigma Samples.diagonal_kernel Samples.two_mode_square 19.5 None true
     = Ok x
     /\ x < y /\ Forall (fun z => x <= z) [y; x])
  /\ sigma Samples.diagonal_kernel Samples.two_mode_square 19.5 (Some 1) true
     = Raise IndexError.
Proof.
  split.
  - edestruct (sigma_smallest Samples.diagonal_kernel Samples.two_mode_square
                 19.5 None true) as (Hrun & _ & Hlow).
    + split; [reflexivity | vm_compute; reflexivity].
    + vm_compute. reflexivity.
    + repeat constructor; vm_compute; discriminate.
    + cbv [last_item rev app] in Hrun.
      destruct (Hlow _ Hrun) as [_ Hall].
      eexists _, _. split; [exact Hrun|].
      refine (conj _ Hall). vm_compute. reflexivity.
  - edestruct (sigma_smallest Samples.diagonal_kernel Samples.two_mode_square
                 19.5 (Some 1) true) as (_ & Hempty & _).
    + split; [reflexivity | vm_compute; reflexivity].
    + vm_compute. reflexivity.
    + constructor.
    + exact (Hempty eq_refl).
Defined.

(** X2.  [weighted_subspace_sines] on an instance with quadrature: the
    matrix factored is the basis at the nodes scaled by the weights,
    [cutoff] is the number of diagonal magnitudes of its triangular
    factor above [rtol] times the first one (without pivoting, the
    number of columns of the orthonormal factor), the block holds the
    first [len(bdry_nodes)] rows and [cutoff] columns of the
    orthonormal factor, and when its SVD delivers, the result is the
    singular values reversed: ascending and non-negative. *)
Theorem weighted_subspace_sines_ascending (K : Kernel) (self : PolygonEVP)
    (lambda_ : Q) (rtol_ : option Q) (pivot : bool)
    (w : matrix) (nb : Q -> matrix) (A bn Qm R : matrix) (P : list nat)
    (r0 : Q) (r' sv : list Q) :
  weights self = Some w ->
  n_basis self = Some nb ->
  broadcast_mul w (nb lambda_) = Ok A ->
  bdry_nodes self = Some bn ->
  let tol := default_to (rtol self) rtol_ in
  (if pivot
   then la_qr_pivot K A = (Qm, R, P) /\ map Qabs (diag R) = r0 :: r'
   else la_qr K A = (Qm, R)) ->
  let cutoff := if pivot
                then count_where (fun x => Qltb (r0 * tol) x) (r0 :: r')
                else ncols Qm in
  la_svd_vals K (slice Qm (nrows bn) cutoff) = Some sv ->
  descending sv ->
  nonneg sv ->
  weighted_subspace_sines K self lambda_ rtol_ pivot = Ok (rev sv)
  /\ ascending (rev sv)
  /\ nonneg (rev sv).
Proof.
  intros Hw Hnb HA Hbn tol Hfac cutoff Hsvd Hd Hn. split; [|split].
  - unfold weighted_subspace_sines. rewrite Hw, Hnb. simpl bind.
    rewrite HA, Hbn. simpl bind. fold tol.
    rewrite (qr_truncate_factors K A tol pivot Qm R P r0 r' Hfac).
    simpl bind. fold cutoff.
    unfold reversed_singular_values. rewrite Hsvd. reflexivity.
  - apply descending_rev_ascending. exact Hd.
  - apply nonneg_rev. exact Hn.
Qed.

(** The two-function basis with unit weights at [lambda = 19.5]: two
    sines, the smaller one first. *)
Lemma weighted_subspace_sines_ascending_witness :
  exists a b,
    weighted_subspace_sines Samples.diagonal_kernel Samples.two_mode_square
                            19.5 None true = Ok [a; b]
    /\ 0 <= a /\ a < b /\ ascending [a; b] /\ nonneg [a; b].
Proof.
  edestruct (weighted_subspace_sines_ascending Samples.diagonal_kernel
               Samples.two_mode_square 19.5 None true)
    as (Hrun & Hasc & Hnn).
  - reflexivity.
  - reflexivity.
  - reflexivity.
  - reflexivity.
  - split; [reflexivity | vm_compute; reflexivity].
  - vm_compute. reflexivity.
  - repeat constructor; vm_compute; discriminate.
  - repeat constructor; vm_compute; discriminate.
  - eexists _, _. split; [exact Hrun|].
    split; [vm_compute; discriminate|].
    split; [vm_compute; reflexivity|].
    split; [exact Hasc | exact Hnn].
Defined.

(** ** The registries *)

(** X3.  Assigning to [ordered_eigs] (or to [eigs]) stores a sorted
    copy: reading the property back gives the assigned values in
    ascending order, none lost and none added, and the other registry is
    untouched. *)
Theorem registry_set_get (self : PolygonEVP) (arr : list Q) :
  ordered_eigs (set_ordered_eigs self arr) = np_sort arr
  /\ ascending (ordered_eigs (set_ordered_eigs self arr))
  /\ Permutation (ordered_eigs (set_ordered_eigs self arr)) arr
  /\ eigs (set_ordered_eigs self arr) = eigs self
  /\ eigs (set_eigs self arr) = np_sort arr
  /\ ascending (eigs (set_eigs self arr))
  /\ Permutation (eigs (set_eigs self arr)) arr
  /\ ordered_eigs (set_eigs self arr) = ordered_eigs self.
Proof.
  assert (H1 : ordered_eigs (set_ordered_eigs self arr) = np_sort arr)
    by (unfold ordered_eigs, set_ordered_eigs; simpl; apply np_sort_idempotent).
  assert (H2 : eigs (set_eigs self arr) = np_sort arr)
    by (unfold eigs, set_eigs; simpl; apply np_sort_idempotent).
  split; [exact H1|].
  split; [rewrite H1; apply np_sort_ascending|].
  split; [rewrite H1; apply np_sort_perm|].
  split; [reflexivity|].
  split; [exact H2|].
  split; [rewrite H2; apply np_sort_ascending|].
  split; [rewrite H2; apply np_sort_perm|].
  reflexivity.
Qed.

(** ** The regularized and the eigenvalue formulations *)

Lemma regularized_cutoff_bounds (s : list Q) (rtol : Q) :
  (1 <= regularized_cutoff s rtol)%nat
  /\ (regularized_cutoff s rtol <= Nat.max 1 (List.length s))%nat.
Proof.
  unfold regularized_cutoff, count_where.
  pose proof (filter_length_le (fun x => Qltb rtol x) s) as Hle.
  destruct (Nat.eqb (List.length (filter (fun x => Qltb rtol x) s)) 0) eqn:E.
  - split; lia.
  - apply Nat.eqb_neq in E. split; lia.
Qed.

(** X4.  [rgsvd_subspace_tans] never works on an empty basis and never
    divides by zero.  When the SVD of [R] delivers at least one singular
    value, the number of columns kept is at least one (also when no
    singular value exceeds [rtol]) and at most the number of singular
    values; and when the GSVD returns [C] and [S] of one length [n], the
    call returns [n] tangents, the quotients [C/S] in reversed order,
    with [+inf] where [S] is zero. *)
Theorem rgsvd_subspace_tans_total (K : Kernel) (self : PolygonEVP)
    (lambda_ : Q) (rtol_ : option Q) (Qm R Um Vh B1 B2 Xg : matrix)
    (s Cv Sv : list Q) :
  la_qr K (basis self lambda_) = (Qm, R) ->
  la_svd K R = Some (Um, s, Vh) ->
  s <> [] ->
  let cutoff := regularized_cutoff s (default_to (rtol self) rtol_) in
  matmul (rows_upto Qm (nrows (boundary_pts self))) (cols_upto Um cutoff) = Ok B1 ->
  matmul (rows_from Qm (nrows (boundary_pts self))) (cols_upto Um cutoff) = Ok B2 ->
  gsvd K B1 B2 = (Cv, Sv, Xg) ->
  List.length Sv = List.length Cv ->
  (1 <= cutoff <= List.length s)%nat
  /\ exists t,
       rgsvd_subspace_tans K self lambda_ rtol_ = Ok t
       /\ List.length t = List.length Cv
       /\ (forall i c s0,
             nth_error Cv i = Some c ->
             nth_error Sv i = Some s0 ->
             nth_error t (List.length Cv - S i)
             = Some (if Qeq_bool s0 0 then PosInf else Finite (c / s0))).
Proof.
  intros Hqr Hsvd Hne cutoff HB1 HB2 Hg Hlen.
  split.
  - destruct (regularized_cutoff_bounds s (default_to (rtol self) rtol_))
      as [H1 H2]. fold cutoff in H1, H2.
    destruct s as [|a s']; [congruence|]. simpl List.length in *. lia.
  - destruct (divide_or_inf_cells Cv Sv Hlen) as [t0 [Ht0 [Hl0 Hnth]]].
    exists (rev t0). split.
    + unfold rgsvd_subspace_tans, rgsvd_tans_of. rewrite Hqr, Hsvd.
      simpl bind. fold cutoff. rewrite HB1. simpl bind. rewrite HB2.
      simpl bind. rewrite Hg, Ht0. reflexivity.
    + split; [rewrite length_rev; exact Hl0|].
      intros i c s0 Hc Hs.
      assert (Hi : (i < List.length Cv)%nat)
        by (apply nth_error_Some; congruence).
      rewrite nth_error_rev, Hl0.
      assert (E : Nat.ltb (List.length Cv - S i) (List.length Cv) = true)
        by (apply Nat.ltb_lt; lia).
      rewrite E.
      replace (List.length Cv - S (List.length Cv - S i))%nat with i by lia.
      apply Hnth; assumption.
Qed.

Lemma rgsvd_subspace_tans_total_witness :
  (1 <= regularized_cutoff [Qabs (entry (Fixture.identity 1 1) 0 0)] 0
   <= List.length [Qabs (entry (Fixture.identity 1 1) 0 0)])%nat
  /\ exists t,
       rgsvd_subspace_tans Samples.kernel Fixture.square 18 None = Ok t
       /\ List.length t = List.length [3%Q; 1%Q]
       /\ (forall i c s0,
             nth_error [3; 1] i = Some c ->
             nth_error [2; 0] i = Some s0 ->
             nth_error t (List.length [3%Q; 1%Q] - S i)
             = Some (if Qeq_bool s0 0 then PosInf else Finite (c / s0))).
Proof.
  eapply (rgsvd_subspace_tans_total Samples.kernel Fixture.square 18 None).
  - reflexivity.
  - reflexivity.
  - discriminate.
  - reflexivity.
  - reflexivity.
  - reflexivity.
  - reflexivity.
Defined.

(** X5.  [gevd_subspace_tans]: the two Gram products cannot fail, and
    when the generalized eigenvalues are delivered with non-negative
    real parts the call returns the square roots of the real parts in
    ascending order, none lost; [gesigma] is the first, a lower bound of
    all, and raises [IndexError] when there is no eigenvalue. *)
Theorem gevd_subspace_tans_sorted (NP : NumPy) (N : Numerics)
    (self : PolygonEVP) (lambda_ : Q) (G1 G2 : matrix) (e : list (Q * Q)) :
  let A := basis self lambda_ in
  let m_b := nrows (boundary_pts self) in
  matmul (transpose (rows_upto A m_b)) (rows_upto A m_b) = Ok G1 ->
  matmul (transpose (rows_from A m_b)) (rows_from A m_b) = Ok G2 ->
  la_eigvals N G1 G2 = Some e ->
  Forall (fun z => 0 <= fst z) e ->
  exists t,
    gevd_subspace_tans NP N self lambda_ = Ok t
    /\ ascending t
    /\ Permutation t (map (fun z => np_sqrt NP (fst z)) e)
    /\ List.length t = List.length e
    /\ gesigma NP N self lambda_ = first_item t
    /\ (forall x, gesigma NP N self lambda_ = Ok x -> Forall (fun y => x <= y) t).
Proof.
  intros A m_b H1 H2 He _.
  assert (Hg : gevd_subspace_tans NP N self lambda_
               = Ok (np_sort (map (fun z => np_sqrt NP (fst z)) e))).
  { unfold gevd_subspace_tans. fold A. fold m_b. rewrite H1. simpl bind.
    rewrite H2. simpl bind. rewrite He. reflexivity. }
  eexists. split; [exact Hg|].
  split; [apply np_sort_ascending|].
  split; [apply np_sort_perm|].
  split; [rewrite np_sort_length; apply length_map|].
  assert (Hs : gesigma NP N self lambda_
               = first_item (np_sort (map (fun z => np_sqrt NP (fst z)) e))).
  { unfold gesigma. rewrite Hg. reflexivity. }
  split; [exact Hs|].
  intros x Hx. rewrite Hs in Hx.
  pose proof (np_sort_ascending (map (fun z => np_sqrt NP (fst z)) e)) as Hasc.
  destruct (np_sort (map (fun z => np_sqrt NP (fst z)) e)) as [|y l];
    simpl in Hx; [discriminate|].
  inversion Hx; subst y.
  constructor; [apply Qle_refl|].
  unfold ascending in Hasc. apply Sorted_StronglySorted in Hasc.
  - inversion Hasc; assumption.
  - intros a b c Hab Hbc. apply Qle_trans with b; assumption.
Qed.

(** The Gram products of [gevd_subspace_tans] have matching shapes
    whatever the basis matrix. *)
Lemma gram_product_defined (M : matrix) :
  exists G, matmul (transpose M) M = Ok G
            /\ nrows G = ncols M /\ ncols G = ncols M.
Proof.
  unfold matmul. simpl. rewrite Nat.eqb_refl.
  eexists. split; [reflexivity|]. simpl. auto.
Qed.

(** The two-function basis at [lambda = 19.5]: the generalized
    eigenvalues come as 16/9 (first basis function) and 64/225, and the
    tangents returned are their square roots with the smaller one
    first, so the one of the first basis function comes second;
    [gesigma] is the smaller one.  Without any basis function there is no eigenvalue and
    [gesigma] raises [IndexError]. *)
Lemma gevd_subspace_tans_sorted_witness :
  (exists a b,
     gevd_subspace_tans Fixture.numpy Samples.diagonal_numerics
       Samples.two_mode_square 19.5 = Ok [a; b]
     /\ a < b
     /\ b == np_sqrt Fixture.numpy
                ((entry (Samples.two_columns 19.5) 0 0) ^ 2
                 / (entry (Samples.two_columns 19.5) 2 0) ^ 2)
     /\ gesigma Fixture.numpy Samples.diagonal_numerics
                Samples.two_mode_square 19.5 = Ok a)
  /\ gesigma Fixture.numpy Samples.diagonal_numerics
             Samples.no_mode_square 19.5 = Raise IndexError.
Proof.
  split.
  - edestruct (gevd_subspace_tans_sorted Fixture.numpy
                 Samples.diagonal_numerics Samples.two_mode_square 19.5)
      as (t & Ht & Ha & _ & Hl & Hs & _).
    + reflexivity.
    + reflexivity.
    + vm_compute. reflexivity.
    + repeat constructor; vm_compute; discriminate.
    + destruct t as [|a [|b [|c t]]]; try discriminate Hl.
      exists a, b. split; [exact Ht|].
      assert (E : Ok [a; b]
                  = gevd_subspace_tans Fixture.numpy Samples.diagonal_numerics
                      Samples.two_mode_square 19.5) by (symmetry; exact Ht).
      vm_compute in E. inversion E; subst a b.
      split; [vm_compute; reflexivity|].
      split; [vm_compute; reflexivity | exact Hs].
  - edestruct (gevd_subspace_tans_sorted Fixture.numpy
                 Samples.diagonal_numerics Samples.no_mode_square 19.5)
      as (t & _ & _ & _ & Hl & Hs & _).
    + reflexivity.
    + reflexivity.
    + vm_compute. reflexivity.
    + constructor.
    + destruct t; [exact Hs | discriminate Hl].
Defined.

(** ** What else needs the quadrature attributes *)

(** X6.  The eigenfunction methods are built on [eigenbasis_coef]: on an
    instance that [__init__] built without [bdry_nodes], [eigenbasis],
    [eigenbasis_grad] and (once the vertices unpack and the Gauss rule
    is delivered) [outward_normal_derivatives] raise the
    missing-attribute error, as do the two weighted GSVD tangent
    methods; no basis function is evaluated. *)
Theorem eigenfunctions_need_quadrature (NP : NumPy) (G : Geometry)
    (a : init_args) (self : PolygonEVP) :
  init NP G a = Ok self ->
  arg_bdry_nodes a = None ->
  forall (K : Kernel) (U : Utils) (N : Numerics) (B : BasisMethods)
         (lambda_ : Q) (rtol_ mtol_ : option Q),
    (exists e, eigenbasis K U B self lambda_ rtol_ mtol_ = Raise e
               /\ e = AttributeError "weights")
    /\ (forall x y, eigenbasis_grad K U B self lambda_ x y rtol_ mtol_
                    = Raise (AttributeError "weights"))
    /\ (forall vertices n x_v y_v rule,
          unpack_xy vertices = Ok (x_v, y_v) ->
          leggauss N n = Ok rule ->
          outward_normal_derivatives K U N B vertices self lambda_ n rtol_ mtol_
          = Raise (AttributeError "weights"))
    /\ gsvd_weighted_subspace_tans K self lambda_
       = Raise (AttributeError "weights")
    /\ rgsvd_weighted_subspace_tans K self lambda_ rtol_
       = Raise (AttributeError "weights").
Proof.
  intros Hinit Hnone K U N B lambda_ rtol_ mtol_.
  apply init_quadrature_attributes in Hinit. rewrite Hnone in Hinit.
  destruct Hinit as [Hw _].
  assert (Hcoef : forall r m,
             eigenbasis_coef K U self lambda_ r m
             = Raise (AttributeError "weights")).
  { intros r m. unfold eigenbasis_coef. rewrite Hw. reflexivity. }
  assert (Hgrad : forall x y,
             eigenbasis_grad K U B self lambda_ x y rtol_ mtol_
             = Raise (AttributeError "weights")).
  { intros x y. unfold eigenbasis_grad. rewrite Hcoef. reflexivity. }
  split.
  - eexists. split; [|reflexivity].
    unfold eigenbasis. rewrite Hcoef. reflexivity.
  - split; [exact Hgrad|]. split.
    + intros vertices n x_v y_v rule Hxy Hrule.
      unfold outward_normal_derivatives. rewrite Hxy. simpl bind.
      unfold cached_leggauss. rewrite Hrule. simpl bind.
      unfold eigenbasis_grad. rewrite Hcoef. reflexivity.
    + split.
      * unfold gsvd_weighted_subspace_tans. rewrite Hw. reflexivity.
      * unfold rgsvd_weighted_subspace_tans. rewrite Hw. reflexivity.
Qed.

Lemma eigenfunctions_need_quadrature_witness :
  eigenbasis_grad Fixture.kernel Fixture.utils Samples.basis_methods
                  Fixture.square 18.5 (Fixture.points 1) (Fixture.points 1)
                  None None
  = Raise (AttributeError "weights")
  /\ outward_normal_derivatives Fixture.kernel Fixture.utils Samples.numerics
       Samples.basis_methods Fixture.square_vertices Fixture.square 18.5 2
       None None
     = Raise (AttributeError "weights").
Proof.
  destruct (eigenfunctions_need_quadrature Fixture.numpy Fixture.geometry
              (Fixture.args (PtsInt 1) (PtsInt 1)) Fixture.square
              eq_refl eq_refl
              Fixture.kernel Fixture.utils Samples.numerics
              Samples.basis_methods 18.5 None None)
    as (_ & Hg & Ho & _).
  split.
  - apply Hg.
  - eapply Ho; reflexivity.
Defined.

(** ** Where the boundary quadrature points lie *)

Lemma nth_roll_left (v : list Q) (i : nat) :
  (i < List.length v)%nat ->
  nth i (roll_left v) 0 = nth (Nat.modulo (S i) (List.length v)) v 0.
Proof.
  destruct v as [|x rest]; intro Hi; [simpl in Hi; lia|].
  change (List.length (x :: rest)) with (S (List.length rest)) in *.
  unfold roll_left.
  destruct (Nat.eq_dec i (List.length rest)) as [E|E].
  - subst i. rewrite app_nth2 by lia. rewrite Nat.sub_diag.
    rewrite Nat.Div0.mod_same. reflexivity.
  - rewrite app_nth1 by lia.
    rewrite Nat.mod_small by lia. reflexivity.
Qed.

Lemma roll_left_length (v : list Q) : List.length (roll_left v) = List.length v.
Proof.
  destruct v as [|x rest]; simpl; [reflexivity|].
  rewrite length_app. simpl. lia.
Qed.

Lemma edge_nodes_entry (v qnodes : list Q) (i j : nat) :
  (i < List.length v)%nat ->
  entry (edge_nodes v qnodes) i j
  == nth j qnodes 0 * ((nth i (roll_left v) 0 - nth i v 0) / 2)
     + (nth i (roll_left v) 0 + nth i v 0) / 2.
Proof.
  intro Hi. unfold edge_nodes. simpl entry.
  assert (Hlen : (i < List.length (combine (roll_left v) v))%nat)
    by (rewrite length_combine, roll_left_length, Nat.min_id; exact Hi).
  rewrite (nth_indep (map (fun p => (fst p - snd p) / 2)
                          (combine (roll_left v) v)) 0
             ((fun p => (fst p - snd p) / 2) (0, 0)))
    by (rewrite length_map; exact Hlen).
  rewrite (nth_indep (map (fun p => (fst p + snd p) / 2)
                          (combine (roll_left v) v)) 0
             ((fun p => (fst p + snd p) / 2) (0, 0)))
    by (rewrite length_map; exact Hlen).
  rewrite (map_nth (fun p => (fst p - snd p) / 2)).
  rewrite (map_nth (fun p => (fst p + snd p) / 2)).
  rewrite combine_nth by apply roll_left_length.
  simpl. reflexivity.
Qed.

(** X7.  The Gauss nodes that [outward_normal_derivatives] places on the
    edges come from [cached_leggauss], which has already moved them
    from [-1,1] to [0,1]; the placement treats them as nodes of
    [-1,1].  So each point is [(1-q)*mid + q*next] with [q] in [0,1],
    where [mid] is the midpoint of the edge and [next] its end vertex:
    the points lie on the second half of every edge. *)
Theorem edge_nodes_second_half (N : Numerics) (n : nat) (rule : list (Q * Q))
    (v : list Q) :
  leggauss N n = Ok rule ->
  Forall (fun p => -(1) <= fst p /\ fst p <= 1) rule ->
  exists qnodes qweights,
    cached_leggauss N n = Ok (qnodes, qweights)
    /\ List.length qnodes = List.length rule
    /\ Forall (fun q => 0 <= q /\ q <= 1) qnodes
    /\ forall i j,
         (i < List.length v)%nat ->
         let next := nth (Nat.modulo (S i) (List.length v)) v 0 in
         let mid := (nth i v 0 + next) / 2 in
         entry (edge_nodes v qnodes) i j
         == (1 - nth j qnodes 0) * mid + nth j qnodes 0 * next.
Proof.
  intros Hrule Hrange.
  eexists _, _. split.
  - unfold cached_leggauss. rewrite Hrule. reflexivity.
  - split; [apply length_map|]. split.
    + apply Forall_map. eapply Forall_impl; [|exact Hrange].
      intros p [Hlo Hhi]. simpl. split.
      * apply Qle_shift_div_l; [reflexivity|]. lra.
      * apply Qle_shift_div_r; [reflexivity|]. lra.
    + intros i j Hi next mid.
      rewrite edge_nodes_entry by exact Hi.
      rewrite nth_roll_left by exact Hi.
      fold next. unfold mid. field.
Qed.

Lemma edge_nodes_second_half_witness :
  exists qnodes qweights,
    cached_leggauss Samples.numerics 2 = Ok (qnodes, qweights)
    /\ List.length qnodes = 2%nat
    /\ Forall (fun q => 0 <= q /\ q <= 1) qnodes
    /\ forall i j,
         (i < List.length [0; 1; 1; 0])%nat ->
         let next := nth (Nat.modulo (S i) (List.length [0; 1; 1; 0]))
                         [0; 1; 1; 0] 0 in
         let mid := (nth i [0; 1; 1; 0] 0 + next) / 2 in
         entry (edge_nodes [0; 1; 1; 0] qnodes) i j
         == (1 - nth j qnodes 0) * mid + nth j qnodes 0 * next.
Proof.
  apply (edge_nodes_second_half Samples.numerics 2
           [(-0.577350, 1); (0.577350, 1)] [0; 1; 1; 0]).
  - reflexivity.
  - repeat constructor; vm_compute; discriminate.
Defined.

(** ** Construction: what the shape block accepts *)

(** X8.  For a 2-dimensional coordinate array of shape [(m,n)] the shape
    block of [__init__] decides by the extents alone: a 2-row array is
    transposed (also a 2x2 array, whose rows are therefore read as the
    x and the y coordinates), an array with two columns and another
    number of rows is kept as it is, and every other shape raises the
    shape error.  The transposed array has shape [(n,m)] and its item
    [(i,j)] is the item [(j,i)] of the input. *)
Theorem process_pts_two_dimensional_cases (name : string) (m n : nat)
    (f : list nat -> Q) :
  process_pts name (mk_ndarray [m; n] f)
  = (if Nat.eqb m 2 then Ok (T (mk_ndarray [m; n] f))
     else if Nat.eqb n 2 then Ok (mk_ndarray [m; n] f)
     else Raise (ValueError (shape_msg name)))
  /\ shape (T (mk_ndarray [m; n] f)) = [n; m]
  /\ forall i j, item (T (mk_ndarray [m; n] f)) [i; j] = f [j; i].
Proof.
  split; [|split; reflexivity].
  unfold process_pts. simpl.
  destruct (Nat.eqb m 2) eqn:Em; simpl.
  - rewrite Em. reflexivity.
  - destruct (Nat.eqb n 2); reflexivity.
Qed.

(** X9.  An integer [interior_pts] is turned into points only for
    [interior_method='random'].  With any other method the integer
    itself reaches the shape block, whose [shape[0]] raises
    [IndexError]: once the vertices unpack and the boundary points are
    accepted, construction fails with that error. *)
Theorem init_integer_interior_not_random (NP : NumPy) (G : Geometry)
    (a : init_args) (n : Z) (xy : list Q * list Q) (bp : ndarray) :
  arg_interior_pts a = PtsInt n ->
  String.eqb (arg_interior_method a) "random" = false ->
  unpack_xy (b_vertices (FourierBesselBasis G (arg_vertices a) (arg_orders a)))
  = Ok xy ->
  process_pts "boundary_pts"
    (asarray
       match arg_boundary_pts a with
       | PtsInt k =>
           if String.eqb (arg_boundary_method a) "even"
           then PtsArray (boundary_points G (fst xy) (snd xy) k
                            (skip_of (b_orders (FourierBesselBasis G
                                                  (arg_vertices a) (arg_orders a)))))
           else PtsArray (boundary_nodes G (arg_vertices a) k
                            (arg_boundary_method a)
                            (skip_of (b_orders (FourierBesselBasis G
                                                  (arg_vertices a) (arg_orders a)))))
       | PtsArray arr => PtsArray arr
       end)
  = Ok bp ->
  init NP G a = Raise IndexError.
Proof.
  intros Hip Hm Hxy Hbp. unfold init. rewrite Hxy. destruct xy as [x_v y_v].
  simpl bind. simpl fst in Hbp. simpl snd in Hbp. rewrite Hbp. simpl bind.
  rewrite Hip, Hm. reflexivity.
Qed.

Lemma init_integer_interior_not_random_witness :
  init Fixture.numpy Fixture.geometry
       {| arg_vertices := Fixture.square_vertices;
          arg_orders := [1%Z; 0%Z; 0%Z; 0%Z];
          arg_boundary_pts := PtsInt 20; arg_interior_pts := PtsInt 50;
          arg_boundary_method := "even"; arg_interior_method := "grid";
          arg_bdry_nodes := None; arg_bdry_weights := None;
          arg_int_nodes := None; arg_int_weights := None |}
  = Raise IndexError.
Proof.
  eapply (init_integer_interior_not_random Fixture.numpy Fixture.geometry
            _ 50).
  - reflexivity.
  - reflexivity.
  - reflexivity.
  - reflexivity.
Defined.

(** ** Sampling the GSVD diagnostics *)

Lemma np_linspace_nonempty (low high : Q) (num : Z) :
  (0 < num)%Z ->
  exists lam rest, np_linspace low high num = Ok (lam :: rest).
Proof.
  intro H. unfold np_linspace.
  assert (E : Z.ltb num 0 = false) by (apply Z.ltb_ge; lia).
  rewrite E.
  destruct (Z.to_nat num) as [|k] eqn:En; [lia|].
  simpl. eauto.
Qed.

(** X10.  [plot_rgsigma] asks [rgsigma] for each sample with the keyword
    [tol], which [rgsigma] does not have, and [plot_gsigma] goes through
    [gsvd_subspace_tans]: for every [nlam >= 0] (at least one sample)
    the first raises [TypeError] and the second [UnboundLocalError],
    whatever the instance and the interval, and nothing is drawn. *)
Theorem plot_gsvd_diagnostics_raise (K : Kernel)
    (draw : bool -> list Q -> list xfloat -> result unit)
    (self : PolygonEVP) (low high : Q) (nlam : Z) (ax : bool) (tol : Q) :
  (0 <= nlam)%Z ->
  plot_rgsigma K draw self low high nlam ax tol
  = Raise (TypeError [Lit "rgsigma";
                      Lit "() got an unexpected keyword argument '";
                      Lit "tol"; Lit "'"])
  /\ plot_gsigma K draw self low high nlam ax
     = Raise (UnboundLocalError "rtol").
Proof.
  intro H.
  destruct (np_linspace_nonempty (if Qltb low 1e-16 then 1e-16 else low)
              high (nlam + 1)) as [lam [rest HL]]; [lia|].
  split.
  - unfold plot_rgsigma. rewrite HL. reflexivity.
  - unfold plot_gsigma. rewrite HL. reflexivity.
Qed.

Lemma plot_gsvd_diagnostics_raise_witness :
  plot_rgsigma Fixture.kernel Samples.draw Fixture.square 1 40 100 false 1e-14
  = Raise (TypeError [Lit "rgsigma";
                      Lit "() got an unexpected keyword argument '";
                      Lit "tol"; Lit "'"])
  /\ plot_gsigma Fixture.kernel Samples.draw Fixture.square 1 40 100 false
     = Raise (UnboundLocalError "rtol").
Proof.
  apply (plot_gsvd_diagnostics_raise Fixture.kernel Samples.draw
           Fixture.square 1 40 100 false 1e-14).
  lia.
Defined.

(** With no sample at all ([nlam = -1]) neither diagnostic is called and
    the drawing is reached. *)
Lemma plot_rgsigma_no_sample (K : Kernel)
    (draw : bool -> list Q -> list xfloat -> result unit)
    (self : PolygonEVP) (low high : Q) (ax : bool) (tol : Q) :
  plot_rgsigma K draw self low high (-1) ax tol = draw ax [] [].
Proof. reflexivity. Qed.

(** ** The bilinear map of a quadrilateral cell ([quad.py]) *)

Lemma quad_coefficients_four (x0 x1 x2 x3 y0 y1 y2 y3 : Q) (xs ys : list Q) :
  quad_coefficients (x0 :: x1 :: x2 :: x3 :: xs) (y0 :: y1 :: y2 :: y3 :: ys)
  = Ok {| qa := x2 - x3; qb := x2 + x3; qc := x1 - x0; qd := x1 + x0;
          qe := y2 - y3; qf := y2 + y3; qg := y1 - y0; qh := y1 + y0 |}.
Proof. reflexivity. Qed.

(** X12.  [transform_quad] on the four vertices of a cell maps the
    corners (-1,-1), (1,-1), (1,1), (-1,1) of the reference square to
    the vertices 0, 1, 2, 3 in this order, and the [detJ] it returns is
    the determinant of the increments of the returned point for unit
    steps in [xi] and [eta] (the map is bilinear, so these increments
    are its partial derivatives). *)
Theorem transform_quad_corners (x0 x1 x2 x3 y0 y1 y2 y3 : Q)
    (xs ys : list Q) :
  let x_v := x0 :: x1 :: x2 :: x3 :: xs in
  let y_v := y0 :: y1 :: y2 :: y3 :: ys in
  (forall xi eta, exists x y d,
      transform_quad xi eta x_v y_v = Ok (x, y, d))
  /\ (forall x y d, transform_quad (-(1)) (-(1)) x_v y_v = Ok (x, y, d) ->
                    x == x0 /\ y == y0)
  /\ (forall x y d, transform_quad 1 (-(1)) x_v y_v = Ok (x, y, d) ->
                    x == x1 /\ y == y1)
  /\ (forall x y d, transform_quad 1 1 x_v y_v = Ok (x, y, d) ->
                    x == x2 /\ y == y2)
  /\ (forall x y d, transform_quad (-(1)) 1 x_v y_v = Ok (x, y, d) ->
                    x == x3 /\ y == y3)
  /\ (forall xi eta x y d xr yr dr xu yu du,
        transform_quad xi eta x_v y_v = Ok (x, y, d) ->
        transform_quad (xi + 1) eta x_v y_v = Ok (xr, yr, dr) ->
        transform_quad xi (eta + 1) x_v y_v = Ok (xu, yu, du) ->
        d == (xr - x) * (yu - y) - (xu - x) * (yr - y)).
Proof.
  intros x_v y_v. unfold x_v, y_v, transform_quad.
  rewrite quad_coefficients_four. simpl bind. unfold bilinear. simpl.
  split; [intros; eexists _, _, _; reflexivity|].
  repeat split;
    try (match goal with H : Ok _ = Ok _ |- _ => inversion H; subst; clear H end;
         field).
  intros xi eta x y d xr yr dr xu yu du H1 H2 H3.
  inversion H1; inversion H2; inversion H3; subst. field.
Qed.

(** X13.  On a parallelogram cell (vertex 0 + vertex 2 = vertex 1 +
    vertex 3) the [detJ] of [transform_quad] is the same at every point
    of the reference square: a quarter of the signed area
    [(x1-x0)(y3-y0) - (x3-x0)(y1-y0)] of the cell. *)
Theorem transform_quad_parallelogram (x0 x1 x2 x3 y0 y1 y2 y3 : Q)
    (xs ys : list Q) (xi eta : Q) :
  x0 + x2 == x1 + x3 ->
  y0 + y2 == y1 + y3 ->
  exists x y d,
    transform_quad xi eta (x0 :: x1 :: x2 :: x3 :: xs)
                   (y0 :: y1 :: y2 :: y3 :: ys) = Ok (x, y, d)
    /\ d == ((x1 - x0) * (y3 - y0) - (x3 - x0) * (y1 - y0)) / 4.
Proof.
  intros Hx Hy. unfold transform_quad.
  rewrite quad_coefficients_four. simpl bind. unfold bilinear. simpl.
  eexists _, _, _. split; [reflexivity|].
  assert (Ex : x2 == x1 + x3 - x0) by lra.
  assert (Ey : y2 == y1 + y3 - y0) by lra.
  rewrite Ex, Ey. field.
Qed.

(** The sheared cell (0,0), (2,0), (3,1), (1,1) has area 2. *)
Lemma transform_quad_parallelogram_witness :
  exists x y d,
    transform_quad 0.3 (-0.7) [0; 2; 3; 1] [0; 0; 1; 1] = Ok (x, y, d)
    /\ d == ((2 - 0) * (1 - 0) - (1 - 0) * (0 - 0)) / 4.
Proof.
  apply (transform_quad_parallelogram 0 2 3 1 0 0 1 1 [] [] 0.3 (-0.7)).
  - reflexivity.
  - reflexivity.
Defined.

(** A cell with fewer than four vertices raises [IndexError]. *)
Lemma transform_quad_short (xi eta : Q) (x_v y_v : list Q) :
  (List.length x_v < 4)%nat ->
  transform_quad xi eta x_v y_v = Raise IndexError.
Proof.
  intro H. unfold transform_quad, quad_coefficients.
  destruct x_v as [|a [|b [|c [|d l]]]]; simpl in H; try lia; reflexivity.
Qed.

(** ** Triangle areas *)

Lemma triangle_area_nonneg_aux (v0 v1 v2 : Q * Q) :
  0 <= triangle_area v0 v1 v2.
Proof.
  unfold triangle_area.
  apply Qmult_le_0_compat; [discriminate | apply Qabs_nonneg].
Qed.

(** X14.  The area that [triangle_areas] computes for a triangle is
    never negative, does not depend on the order in which the three
    vertices are listed, and is zero when two of them coincide. *)
Theorem triangle_area_orientation (v0 v1 v2 : Q * Q) :
  0 <= triangle_area v0 v1 v2
  /\ triangle_area v1 v2 v0 == triangle_area v0 v1 v2
  /\ triangle_area v1 v0 v2 == triangle_area v0 v1 v2
  /\ triangle_area v0 v0 v2 == 0.
Proof.
  split; [apply triangle_area_nonneg_aux|].
  unfold triangle_area.
  destruct v0 as [a0 b0], v1 as [a1 b1], v2 as [a2 b2]. cbn [fst snd].
  split; [|split].
  - apply Qmult_comp; [reflexivity|].
    apply Qabs_wd. ring.
  - apply Qmult_comp; [reflexivity|].
    rewrite <- (Qabs_opp ((a0 - a2) * (b1 - b0) - (a0 - a1) * (b2 - b0))).
    apply Qabs_wd. ring.
  - assert (E : (a0 - a2) * (b0 - b0) - (a0 - a0) * (b2 - b0) == 0) by ring.
    rewrite E. reflexivity.
Qed.

(** X15.  [triangle_areas] returns one non-negative area per triangle
    when every vertex index is in range, and raises [IndexError] as soon
    as one is not. *)
Theorem triangle_areas_defined (mesh_vertices : list (Q * Q))
    (triangles : list (nat * nat * nat)) :
  let in_range (t : nat * nat * nat) :=
    let '(i0, i1, i2) := t in
    Nat.ltb i0 (List.length mesh_vertices)
    && Nat.ltb i1 (List.length mesh_vertices)
    && Nat.ltb i2 (List.length mesh_vertices) in
  if forallb in_range triangles then
    exists areas,
      triangle_areas mesh_vertices triangles = Ok areas
      /\ List.length areas = List.length triangles
      /\ Forall (fun x => 0 <= x) areas
  else triangle_areas mesh_vertices triangles = Raise IndexError.
Proof.
  intro in_range.
  induction triangles as [|[[i0 i1] i2] rest IH]; simpl.
  - exists []. repeat split. constructor.
  - destruct (nth_error mesh_vertices i0) as [v0|] eqn:E0.
    2:{ apply nth_error_None in E0. apply Nat.ltb_ge in E0.
        rewrite E0. reflexivity. }
    destruct (nth_error mesh_vertices i1) as [v1|] eqn:E1.
    2:{ apply nth_error_None in E1. apply Nat.ltb_ge in E1.
        rewrite E1, andb_false_r. reflexivity. }
    destruct (nth_error mesh_vertices i2) as [v2|] eqn:E2.
    2:{ apply nth_error_None in E2. apply Nat.ltb_ge in E2.
        rewrite E2, andb_false_r. reflexivity. }
    assert (H0 : Nat.ltb i0 (List.length mesh_vertices) = true)
      by (apply Nat.ltb_lt; apply nth_error_Some; congruence).
    assert (H1 : Nat.ltb i1 (List.length mesh_vertices) = true)
      by (apply Nat.ltb_lt; apply nth_error_Some; congruence).
    assert (H2 : Nat.ltb i2 (List.length mesh_vertices) = true)
      by (apply Nat.ltb_lt; apply nth_error_Some; congruence).
    rewrite H0, H1, H2. simpl andb.
    destruct (forallb in_range rest).
    + destruct IH as [areas [Ha [Hl Hn]]]. rewrite Ha. simpl bind.
      eexists. split; [reflexivity|]. split; [simpl; congruence|].
      constructor; [|exact Hn].
      apply triangle_area_nonneg_aux.
    + rewrite IH. reflexivity.
Qed.

(** ** Tensor Gauss rule on a quadrilateral mesh ([quad.py]) *)

Lemma total_app (l l' : list Q) : total (l ++ l') == total l + total l'.
Proof.
  unfold total. induction l as [|x l IH]; simpl.
  - ring.
  - rewrite IH. ring.
Qed.

Lemma total_scaled (c : Q) (f g : nat -> Q) (l : list nat) :
  (forall i, f i == c * g i) ->
  total (map f l) == c * total (map g l).
Proof.
  intro H. unfold total. induction l as [|x l IH]; simpl.
  - ring.
  - rewrite IH, H. ring.
Qed.

Lemma map_nth_seq_all (l : list Q) :
  map (fun j => nth j l 0) (seq 0 (List.length l)) = l.
Proof.
  induction l as [|x l IH]; simpl; [reflexivity|].
  rewrite <- seq_shift, map_map. simpl. rewrite IH. reflexivity.
Qed.

Lemma tensor_grid_length (pts wts : list Q) :
  List.length (tensor_grid pts wts) = (List.length pts * List.length pts)%nat.
Proof.
  unfold tensor_grid.
  rewrite (flat_map_constant_length (c := List.length pts)).
  - rewrite length_seq. reflexivity.
  - intros x _. rewrite length_map, length_seq. reflexivity.
Qed.

(** The weights of the grid add up to the square of the sum of the
    weights of the rule, whatever factor [D] each carries when it is
    one constant. *)
Lemma tensor_grid_total (c : Q) (D : Q -> Q -> Q) (pts wts : list Q) :
  List.length pts = List.length wts ->
  (forall xi eta, D xi eta == c) ->
  total (map (fun g => let '(xi, eta, w) := g in D xi eta * w)
             (tensor_grid pts wts))
  == c * (total wts * total wts).
Proof.
  intros Hlen HD. unfold tensor_grid.
  assert (Hrow : forall i,
             total (map (fun g => let '(xi, eta, w) := g in D xi eta * w)
                        (map (fun j => (nth i pts 0, nth j pts 0,
                                        nth i wts 0 * nth j wts 0))
                             (seq 0 (List.length pts))))
             == (c * total wts) * nth i wts 0).
  { intro i. rewrite map_map.
    rewrite (total_scaled (c * nth i wts 0) _ (fun j => nth j wts 0)).
    - rewrite Hlen, map_nth_seq_all. ring.
    - intro j. rewrite HD. ring. }
  assert (Hsum : forall l,
             total (map (fun g => let '(xi, eta, w) := g in D xi eta * w)
                        (flat_map
                           (fun i => map (fun j => (nth i pts 0, nth j pts 0,
                                                    nth i wts 0 * nth j wts 0))
                                         (seq 0 (List.length pts))) l))
             == (c * total wts) * total (map (fun i => nth i wts 0) l)).
  { induction l as [|i l IH]; simpl.
    - unfold total. simpl. ring.
    - rewrite map_app, total_app, IH, Hrow.
      unfold total. simpl. ring. }
  rewrite Hsum, Hlen, map_nth_seq_all. ring.
Qed.

Lemma cell_rule_four (mesh_vertices : list (Q * Q)) (pts wts : list Q)
    (k i0 i1 i2 i3 : nat) (x0 x1 x2 x3 y0 y1 y2 y3 : Q) :
  nth_error mesh_vertices i0 = Some (x0, y0) ->
  nth_error mesh_vertices i1 = Some (x1, y1) ->
  nth_error mesh_vertices i2 = Some (x2, y2) ->
  nth_error mesh_vertices i3 = Some (x3, y3) ->
  (List.length pts * List.length pts)%nat = k ->
  let c := {| qa := x2 - x3; qb := x2 + x3; qc := x1 - x0; qd := x1 + x0;
              qe := y2 - y3; qf := y2 + y3; qg := y1 - y0; qh := y1 + y0 |} in
  let cells := map (fun g : Q * Q * Q =>
                      let '(xi, eta, w) := g in
                      let '(x, y, detJ) := bilinear c xi eta in
                      ((x, y), detJ * w))
                   (tensor_grid pts wts) in
  cell_rule mesh_vertices pts wts k [i0; i1; i2; i3]
  = Ok (map fst cells, map snd cells).
Proof.
  intros H0 H1 H2 H3 Hk c cells.
  unfold cell_rule. cbn [pick_rows]. rewrite H0, H1, H2, H3.
  cbn [bind map fst snd]. rewrite quad_coefficients_four. cbn [bind].
  fold c. fold cells.
  assert (E : Nat.eqb (List.length cells) k = true).
  { apply Nat.eqb_eq. unfold cells.
    rewrite length_map, tensor_grid_length. exact Hk. }
  rewrite E. reflexivity.
Qed.

(** X16.  [gauss_quad_nodes] on a mesh of one parallelogram cell, with a
    Gauss rule of [order] points: it returns [order^2] nodes and as many
    weights, and the weights add up to a quarter of the signed area of
    the cell times the square of the sum of the weights of
    [cached_leggauss], that is, a quarter of the area when those sum to
    one.  The rule of [cached_leggauss] lives on [0,1] and the map of
    the cell expects the reference square [-1,1]^2, whose weights sum
    to four. *)
Theorem gauss_quad_nodes_parallelogram (N : Numerics)
    (mesh_vertices : list (Q * Q)) (i0 i1 i2 i3 : nat)
    (x0 x1 x2 x3 y0 y1 y2 y3 : Q) (order : nat) (rule : list (Q * Q)) :
  nth_error mesh_vertices i0 = Some (x0, y0) ->
  nth_error mesh_vertices i1 = Some (x1, y1) ->
  nth_error mesh_vertices i2 = Some (x2, y2) ->
  nth_error mesh_vertices i3 = Some (x3, y3) ->
  x0 + x2 == x1 + x3 ->
  y0 + y2 == y1 + y3 ->
  leggauss N order = Ok rule ->
  List.length rule = order ->
  exists nds wts,
    gauss_quad_nodes N mesh_vertices [[i0; i1; i2; i3]] order = Ok (nds, wts)
    /\ List.length nds = (order ^ 2)%nat
    /\ List.length wts = (order ^ 2)%nat
    /\ total wts
       == ((x1 - x0) * (y3 - y0) - (x3 - x0) * (y1 - y0)) / 4
          * (total (map (fun p => snd p / 2) rule)
             * total (map (fun p => snd p / 2) rule)).
Proof.
  intros H0 H1 H2 H3 Hx Hy Hrule Hlen.
  set (pts := map (fun p : Q * Q => (fst p + 1) / 2) rule).
  set (wts := map (fun p : Q * Q => snd p / 2) rule).
  set (c := {| qa := x2 - x3; qb := x2 + x3; qc := x1 - x0; qd := x1 + x0;
               qe := y2 - y3; qf := y2 + y3; qg := y1 - y0; qh := y1 + y0 |}).
  set (cells := map (fun g : Q * Q * Q =>
                       let '(xi, eta, w) := g in
                       let '(x, y, detJ) := bilinear c xi eta in
                       ((x, y), detJ * w))
                    (tensor_grid pts wts)).
  assert (Hk : (List.length pts * List.length pts)%nat = (order ^ 2)%nat).
  { unfold pts. rewrite length_map, Hlen. simpl. lia. }
  assert (Hcells : List.length cells = (order ^ 2)%nat).
  { unfold cells. rewrite length_map, tensor_grid_length. exact Hk. }
  assert (Hrun : gauss_quad_nodes N mesh_vertices [[i0; i1; i2; i3]] order
                 = Ok (map fst cells ++ [], map snd cells ++ [])).
  { unfold gauss_quad_nodes, cached_leggauss. rewrite Hrule. cbn [bind].
    fold pts. fold wts. cbn [cell_rules].
    rewrite (cell_rule_four mesh_vertices pts wts (order ^ 2) i0 i1 i2 i3
               x0 x1 x2 x3 y0 y1 y2 y3 H0 H1 H2 H3 Hk).
    reflexivity. }
  exists (map fst cells ++ []), (map snd cells ++ []).
  split; [exact Hrun|].
  rewrite !app_nil_r.
  split; [rewrite length_map; exact Hcells|].
  split; [rewrite length_map; exact Hcells|].
  unfold cells. rewrite map_map.
  rewrite (map_ext _
             (fun g : Q * Q * Q =>
                let '(xi, eta, w) := g in
                (fun xi eta => snd (bilinear c xi eta)) xi eta * w)).
  - apply tensor_grid_total.
    + unfold pts, wts. rewrite !length_map. reflexivity.
    + intros xi eta. unfold bilinear, c. simpl.
      assert (Ex : x2 == x1 + x3 - x0) by lra.
      assert (Ey : y2 == y1 + y3 - y0) by lra.
      rewrite Ex, Ey. field.
  - intros [[xi eta] w]. unfold bilinear. reflexivity.
Qed.

(** The sheared cell of area 2 with the two-point rule: four nodes, and
    weights that add up to one half. *)
Lemma gauss_quad_nodes_parallelogram_witness :
  exists nds wts,
    gauss_quad_nodes Samples.numerics Samples.sheared_vertices
                     [[0; 1; 2; 3]%nat] 2 = Ok (nds, wts)
    /\ List.length nds = (2 ^ 2)%nat
    /\ List.length wts = (2 ^ 2)%nat
    /\ total wts
       == ((2 - 0) * (1 - 0) - (1 - 0) * (0 - 0)) / 4
          * (total (map (fun p => snd p / 2) [(-0.577350, 1); (0.577350, 1)])
             * total (map (fun p => snd p / 2)
                          [(-0.577350, 1); (0.577350, 1)])).
Proof.
  apply (gauss_quad_nodes_parallelogram Samples.numerics
           Samples.sheared_vertices 0 1 2 3 0 2 3 1 0 0 1 1 2
           [(-0.577350, 1); (0.577350, 1)]).
  - reflexivity.
  - reflexivity.
  - reflexivity.
  - reflexivity.
  - reflexivity.
  - reflexivity.
  - reflexivity.
  - reflexivity.
Defined.

(** ** The locator keeps confirmed eigenvalues apart *)

Lemma Qmin_le_l (x y : Q) : Qmin x y <= x.
Proof.
  unfold Qmin. destruct (Qle_bool x y) eqn:E.
  - apply Qle_refl.
  - apply Qlt_le_weak. apply Qle_bool_false. exact E.
Qed.

Lemma Qmin_le_r (x y : Q) : Qmin x y <= y.
Proof.
  unfold Qmin. destruct (Qle_bool x y) eqn:E.
  - apply Qle_bool_iff. exact E.
  - apply Qle_refl.
Qed.

Lemma list_min_le (d : Q) (ds : list Q) (x : Q) :
  In x (d :: ds) -> list_min d ds <= x.
Proof.
  unfold list_min. induction ds as [|y ds IH]; simpl; intro H.
  - destruct H as [H|[]]. subst. apply Qle_refl.
  - destruct H as [H|[H|H]].
    + subst. eapply Qle_trans; [apply Qmin_le_r|]. apply IH. left. reflexivity.
    + subst. apply Qmin_le_l.
    + eapply Qle_trans; [apply Qmin_le_r|]. apply IH. right. exact H.
Qed.

(** A minimum that is not a duplicate is at least [xtol] away from every
    confirmed eigenvalue. *)
Lemma not_duplicate_apart (self : PolygonEVP) (x_min xtol : Q) :
  is_duplicate self x_min xtol = false ->
  forall e, In e (ordered_eigs self) -> xtol <= Qabs (x_min - e).
Proof.
  unfold is_duplicate. intros H e He.
  apply (in_map (fun e => Qabs (x_min - e))) in He.
  destruct (map (fun e => Qabs (x_min - e)) (ordered_eigs self)) as [|d ds];
    [destruct He|].
  apply Qltb_false in H.
  eapply Qle_trans; [exact H|]. apply list_min_le. exact He.
Qed.

Lemma separated_perm (xtol : Q) (l l' : list Q) :
  Permutation l l' -> separated xtol l -> separated xtol l'.
Proof.
  intros Hp Hs a b Ha Hb.
  apply Hs; eapply Permutation_in; try eassumption;
    apply Permutation_sym; exact Hp.
Qed.

Lemma separated_append (xtol x : Q) (m : nat) (reg : list Q) :
  separated xtol reg ->
  (forall e, In e reg -> xtol <= Qabs (x - e)) ->
  separated xtol (reg ++ repeat x m).
Proof.
  intros Hs Hx a b Ha Hb.
  apply in_app_or in Ha. apply in_app_or in Hb.
  destruct Ha as [Ha|Ha], Hb as [Hb|Hb].
  - apply Hs; assumption.
  - apply repeat_spec in Hb. subst b. right.
    rewrite Qabs_Qminus. apply Hx. exact Ha.
  - apply repeat_spec in Ha. subst a. right. apply Hx. exact Hb.
  - apply repeat_spec in Ha. apply repeat_spec in Hb. left. congruence.
Qed.

Section Separation.

Variable K : Kernel.
Variable U : Utils.
Variable NP : NumPy.
Variables xtol ytol : Q.
Variable verbose : bool.

Lemma process_minima_separated (k : nat) (minima : list Q) :
  forall self self',
    separated xtol (ordered_eigs self) ->
    process_minima K NP self k xtol ytol verbose minima = Ok self' ->
    separated xtol (ordered_eigs self').
Proof.
  induction minima as [|x_min rest IH]; intros self self' Hs H; simpl in H.
  - inversion H; subst. exact Hs.
  - apply bind_Ok in H. destruct H as [_ [_ H]].
    apply bind_Ok in H. destruct H as [s [_ H]].
    destruct (is_duplicate self x_min xtol) eqn:Ed; simpl negb in H;
      simpl andb in H.
    + apply (IH _ _ Hs H).
    + destruct (Nat.ltb 0 (count_where (fun v => Qltb v ytol) s)); simpl in H.
      * set (self1 := set_ordered_eigs self
                        (ordered_eigs self
                         ++ repeat x_min (count_where (fun v => Qltb v ytol) s)))
          in *.
        assert (H1 : separated xtol (ordered_eigs self1)).
        { unfold self1. rewrite ordered_eigs_set.
          eapply separated_perm; [apply Permutation_sym; apply np_sort_perm|].
          apply separated_append; [exact Hs|].
          apply not_duplicate_apart. exact Ed. }
        destruct (Nat.leb k (List.length (ordered_eigs self1))).
        -- inversion H; subst. exact H1.
        -- apply (IH _ _ H1 H).
      * apply (IH _ _ Hs H).
Qed.

Lemma scan_round_separated (fuel k : nat) (st st' : scan_state) :
  separated xtol (ordered_eigs (evp st)) ->
  scan_round K U NP fuel k xtol ytol verbose st = Done st' ->
  separated xtol (ordered_eigs (evp st')).
Proof.
  intro Hs. unfold scan_round.
  destruct (scan_bracket NP fuel xtol st) as [[[[start0 end0] lev0] h]|];
    [|discriminate].
  destruct (minsearch U _ _ _ _ _) as [[minima fe]|e]; [|discriminate].
  destruct (process_minima K NP (evp st) k xtol ytol verbose minima)
    as [self'|e] eqn:E; [|discriminate].
  apply (process_minima_separated _ _ _ _ Hs) in E.
  destruct (Nat.eqb _ _); intro H; inversion H; subst; simpl; exact E.
Qed.

Lemma scan_loop_separated (k : nat) :
  forall fuel st st',
    separated xtol (ordered_eigs (evp st)) ->
    scan_loop K U NP fuel k xtol ytol verbose st = Done st' ->
    separated xtol (ordered_eigs (evp st')).
Proof.
  induction fuel as [|fuel IH]; intros st st' Hs H; simpl in H.
  - destruct (Nat.ltb _ k); [discriminate|]. inversion H; subst. exact Hs.
  - destruct (Nat.ltb _ k).
    + destruct (scan_round K U NP fuel k xtol ytol verbose st) as [st1| |] eqn:R;
        try discriminate.
      apply (scan_round_separated _ _ _ _ Hs) in R.
      apply (IH _ _ R H).
    + inversion H; subst. exact Hs.
Qed.

End Separation.

(** X11.  [solve_ordered_eigs] never records two different values
    closer than [xtol]: if any two entries of the registry are equal or
    at least [xtol] apart before the call (as in the empty registry of a
    new instance), the same holds of the eigenvalues the call returns;
    the copies that encode a multiplicity are one value. *)
Theorem solve_ordered_eigs_separated (K : Kernel) (U : Utils) (NP : NumPy)
    (fuel k : nat) (self self' : PolygonEVP) (xtol ytol : Q) (verbose : bool)
    (r : list Q) (fe : nat) :
  separated xtol (ordered_eigs self) ->
  solve_ordered_eigs K U NP fuel self k xtol ytol verbose = Done (r, fe, self') ->
  separated xtol r.
Proof.
  intros Hs H. unfold solve_ordered_eigs in H.
  destruct (scan_loop K U NP fuel k xtol ytol verbose _) as [st| |] eqn:E;
    try discriminate.
  inversion H; subst.
  eapply (scan_loop_separated K U NP xtol ytol verbose k); [|exact E].
  simpl. exact Hs.
Qed.

Lemma solve_ordered_eigs_separated_witness :
  separated 1e-8 [17.5; 18.5].
Proof.
  apply (solve_ordered_eigs_separated Fixture.kernel Fixture.utils
           Fixture.numpy 5 2 Fixture.square
           (set_ordered_eigs Fixture.square [17.5; 18.5])
           1e-8 1e-5 false [17.5; 18.5] 3).
  - intros a b Ha. destruct Ha.
  - vm_compute. reflexivity.
Defined.

(** ** The other eigenbasis extractors *)

Lemma count_where_le_length (p : Q -> bool) (l : list Q) :
  (count_where p l <= List.length l)%nat.
Proof.
  unfold count_where. apply filter_length_le.
Qed.

(** X17.  [eigenbasis_node_eval] on an instance with quadrature, when
    the SVD of the truncated block delivers at least one singular value
    and a [Vh] with no fewer rows than singular values: the call raises
    the zero-multiplicity error exactly when no singular value is below
    [mtol]; a matrix it returns has one row per quadrature node of the
    orthogonal factor and, for a weight column, one column per singular
    value below [mtol]; and it does return when [Vh] is as wide as the
    truncated factor and the weights broadcast against its rows. *)
Theorem eigenbasis_node_eval_columns (K : Kernel) (self : PolygonEVP)
    (lambda_ : Q) (rtol_ mtol_ : option Q)
    (w : matrix) (nb : Q -> matrix) (A bn Qm R : matrix) (P : list nat)
    (cutoff : nat) (Um Vh : matrix) (s : list Q) :
  weights self = Some w ->
  n_basis self = Some nb ->
  broadcast_mul w (nb lambda_) = Ok A ->
  bdry_nodes self = Some bn ->
  la_qr_pivot K A = (Qm, R, P) ->
  rank_cutoff (map Qabs (diag R)) (default_to (rtol self) rtol_) = Ok cutoff ->
  la_svd K (slice Qm (nrows bn) cutoff) = Some (Um, s, Vh) ->
  s <> [] ->
  (List.length s <= nrows Vh)%nat ->
  ncols w = 1%nat ->
  let tol := default_to (mtol self) mtol_ in
  let mult := count_where (fun x => Qltb x tol) s in
  let out := eigenbasis_node_eval K self lambda_ rtol_ mtol_ in
  ((exists sg, out = Raise (ValueError (zero_multiplicity_msg lambda_ sg tol)))
   <-> mult = 0%nat)
  /\ (forall M, out = Ok M -> ncols M = mult /\ (0 < mult)%nat)
  /\ ((0 < mult)%nat ->
      ncols Vh = Nat.min cutoff (ncols Qm) ->
      forall m, broadcast_dim (nrows Qm) (nrows w) = Some m ->
      exists M, out = Ok M /\ ncols M = mult /\ nrows M = m).
Proof.
  intros Hw Hnb HA Hbn Hqr Hcut Hsvd Hne Hrows Hcol tol mult out.
  destruct (last_item_nonempty s Hne) as [sigma0 Hsigma].
  assert (Hle : (mult <= nrows Vh)%nat).
  { unfold mult. pose proof (count_where_le_length (fun x => Qltb x tol) s). lia. }
  assert (Hout : out =
    ('(m, Vh') <- (if Nat.eqb mult 0
                   then Raise (ValueError
                                 (zero_multiplicity_msg lambda_ (Fmt3e sigma0) tol))
                   else Ok (mult, Vh)) ;;
     prod <- matmul (mk_matrix (nrows Qm) (Nat.min cutoff (ncols Qm)) (entry Qm))
                    (transpose (last_rows Vh' m)) ;;
     broadcast_div prod w)).
  { unfold out, eigenbasis_node_eval. rewrite Hw, Hnb. simpl bind.
    rewrite HA, Hbn. simpl bind. rewrite Hqr, Hcut. simpl bind.
    unfold svd_multiplicity. rewrite Hsvd. simpl bind. fold tol. fold mult.
    destruct (Nat.eqb mult 0); [rewrite Hsigma|]; reflexivity. }
  destruct (Nat.eqb mult 0) eqn:Emult.
  - apply Nat.eqb_eq in Emult. simpl in Hout.
    split; [split; [intros _; exact Emult | intros _; eauto]|].
    split; [intros M HM; rewrite Hout in HM; discriminate|].
    intro; lia.
  - apply Nat.eqb_neq in Emult. simpl bind in Hout.
    assert (Hwidth : (nrows Vh - (nrows Vh - mult) = mult)%nat) by lia.
    assert (Hb : broadcast_dim mult 1 = Some mult).
    { unfold broadcast_dim. destruct (Nat.eqb mult 1) eqn:E1.
      - apply Nat.eqb_eq in E1. rewrite E1. reflexivity.
      - destruct (Nat.eqb mult 1); reflexivity. }
    split; [split; [|intro; lia]|].
    { intros [sg Hsg]. exfalso. clear Hb. rewrite Hout in Hsg.
      unfold zero_multiplicity_msg in Hsg.
      unfold matmul in Hsg. destruct (Nat.eqb _ _) in Hsg; simpl in Hsg.
      - unfold broadcast_div in Hsg.
        destruct (broadcast_dim _ _); [destruct (broadcast_dim _ _)|];
          discriminate.
      - discriminate. }
    split.
    { intros M HM. rewrite Hout in HM.
      apply bind_Ok in HM. destruct HM as [prod [Hprod HM]].
      unfold matmul in Hprod.
      destruct (Nat.eqb _ _) in Hprod; [|discriminate].
      inversion Hprod; subst prod; clear Hprod.
      unfold broadcast_div in HM. cbn [nrows ncols transpose last_rows rows_from] in HM.
      rewrite Hwidth, Hcol, Hb in HM.
      destruct (broadcast_dim (nrows Qm) (nrows w)); [|discriminate].
      inversion HM; subst M. simpl. split; [reflexivity | lia]. }
    { intros _ Hvh m Hm. rewrite Hout. unfold matmul.
      cbn [nrows ncols transpose last_rows rows_from].
      rewrite Hvh, Nat.eqb_refl. simpl bind. unfold broadcast_div.
      cbn [nrows ncols]. rewrite Hwidth, Hcol, Hb, Hm.
      eexists. split; [reflexivity|]. split; reflexivity. }
Qed.

(** At the zero [lambda = 18.5] of the fixture: one singular value, 0,
    and the eigenbasis is one column over the two nodes. *)
Lemma eigenbasis_node_eval_columns_witness :
  exists M,
    eigenbasis_node_eval Fixture.kernel Fixture.weighted_square 18.5 None None
    = Ok M
    /\ ncols M = 1%nat /\ nrows M = 2%nat.
Proof.
  edestruct (eigenbasis_node_eval_columns Fixture.kernel
               Fixture.weighted_square 18.5 None None)
    as (_ & _ & H).
  - reflexivity.
  - reflexivity.
  - reflexivity.
  - reflexivity.
  - reflexivity.
  - reflexivity.
  - reflexivity.
  - discriminate.
  - simpl. lia.
  - reflexivity.
  - apply (H ltac:(vm_compute; lia) eq_refl 2%nat eq_refl).
Defined.

Lemma rev_head_nth_error {A : Type} (l : list A) (x : A) (rest : list A) :
  rev l = x :: rest -> nth_error l (List.length l - 1) = Some x.
Proof.
  intro H. assert (Hl : l = rev rest ++ [x]).
  { rewrite <- (rev_involutive l), H. reflexivity. }
  subst l. rewrite length_app. simpl.
  rewrite nth_error_app2 by lia.
  replace (List.length (rev rest) + 1 - 1 - List.length (rev rest))%nat
    with 0%nat by lia.
  reflexivity.
Qed.

(** X18.  [gsvd_eigenbasis_coef] on an instance with quadrature, for a
    GSVD that returns as many [S] as [C]: an index whose [S] is zero has
    tangent [+inf] and is never counted.  A matrix is returned only if
    some index has a non-zero [S] and [C/S] below [mtol]; and if there
    is an index but none of that kind, the call raises the
    zero-multiplicity error, whose message shows the last tangent,
    [inf] when the last [S] is zero. *)
Theorem gsvd_eigenbasis_coef_finite_tangent (K : Kernel) (self : PolygonEVP)
    (lambda_ : Q) (mtol_ : option Q)
    (w : matrix) (nb : Q -> matrix) (A bn Xm : matrix) (Cv Sv : list Q) :
  weights self = Some w ->
  n_basis self = Some nb ->
  broadcast_mul w (nb lambda_) = Ok A ->
  bdry_nodes self = Some bn ->
  gsvd K (rows_upto A (nrows bn)) (rows_from A (nrows bn)) = (Cv, Sv, Xm) ->
  List.length Sv = List.length Cv ->
  let tol := default_to (mtol self) mtol_ in
  let out := gsvd_eigenbasis_coef K self lambda_ mtol_ in
  (forall sol, out = Ok sol ->
     exists i c s, nth_error Cv i = Some c /\ nth_error Sv i = Some s
                   /\ ~ s == 0 /\ c / s < tol)
  /\ (Cv <> [] ->
      (forall i c s, nth_error Cv i = Some c -> nth_error Sv i = Some s ->
                     s == 0 \/ tol <= c / s) ->
      exists c s,
        nth_error Cv (List.length Cv - 1) = Some c
        /\ nth_error Sv (List.length Cv - 1) = Some s
        /\ out = Raise (ValueError
                   (zero_multiplicity_msg lambda_
                      (if Qeq_bool s 0 then Fmt3eInf else Fmt3e (c / s)) tol))).
Proof.
  intros Hw Hnb HA Hbn Hg Hlen tol out.
  destruct (divide_or_inf_cells Cv Sv Hlen) as (t & Ht & Htlen & Hcell).
  assert (Hout : out =
    let mult := List.length (filter (fun x => xltb x tol) t) in
    if Nat.eqb mult 0 then
      match rev t with
      | [] => Raise IndexError
      | s_last :: _ =>
          Raise (ValueError (zero_multiplicity_msg lambda_ (fmt3e_x s_last) tol))
      end
    else
      match la_lstsq K (transpose Xm) (eye_last_cols (nrows (transpose Xm)) mult) with
      | Some sol => Ok sol
      | None => Raise LinAlgError
      end).
  { unfold out, gsvd_eigenbasis_coef. rewrite Hw, Hnb. simpl bind.
    rewrite HA, Hbn. simpl bind. rewrite Hg, Ht. reflexivity. }
  assert (Hpair : forall i x, nth_error t i = Some x ->
            exists c s, nth_error Cv i = Some c /\ nth_error Sv i = Some s
                        /\ x = if Qeq_bool s 0 then PosInf else Finite (c / s)).
  { intros i x Hx.
    assert (Hi : (i < List.length t)%nat)
      by (apply nth_error_Some; rewrite Hx; discriminate).
    destruct (nth_error Cv i) as [c|] eqn:Ec.
    2:{ apply nth_error_None in Ec. lia. }
    destruct (nth_error Sv i) as [s|] eqn:Es.
    2:{ apply nth_error_None in Es. lia. }
    exists c, s. split; [reflexivity|]. split; [reflexivity|].
    rewrite (Hcell i c s Ec Es) in Hx. congruence. }
  split.
  - intros sol Hsol. rewrite Hout in Hsol. cbv zeta in Hsol.
    destruct (filter (fun x => xltb x tol) t) as [|x rest] eqn:Ef.
    + simpl in Hsol. destruct (rev t); discriminate.
    + assert (Hin : In x (filter (fun x => xltb x tol) t))
        by (rewrite Ef; left; reflexivity).
      apply filter_In in Hin. destruct Hin as [Hin Hx].
      apply In_nth_error in Hin. destruct Hin as [i Hi].
      destruct (Hpair i x Hi) as (c & s & Hc & Hs & Hxe).
      exists i, c, s. split; [exact Hc|]. split; [exact Hs|].
      subst x. destruct (Qeq_bool s 0) eqn:Ez; [discriminate|].
      split.
      * intro Hz. apply Qeq_bool_iff in Hz. congruence.
      * apply Qltb_lt. exact Hx.
  - intros Hne Hall.
    assert (Hnone : filter (fun x => xltb x tol) t = []).
    { destruct (filter (fun x => xltb x tol) t) as [|x rest] eqn:Ef;
        [reflexivity|exfalso].
      assert (Hin : In x (filter (fun x => xltb x tol) t))
        by (rewrite Ef; left; reflexivity).
      apply filter_In in Hin. destruct Hin as [Hin Hx].
      apply In_nth_error in Hin. destruct Hin as [i Hi].
      destruct (Hpair i x Hi) as (c & s & Hc & Hs & Hxe).
      subst x. destruct (Qeq_bool s 0) eqn:Ez; [discriminate|].
      destruct (Hall i c s Hc Hs) as [Hz|Hge].
      - apply Qeq_bool_iff in Hz. congruence.
      - apply Qltb_lt in Hx. apply (Qlt_irrefl tol).
        apply Qle_lt_trans with (c / s); assumption. }
    rewrite Hout, Hnone. simpl.
    destruct (rev t) as [|x rest] eqn:Er.
    + exfalso. apply Hne. apply length_zero_iff_nil. rewrite <- Htlen.
      rewrite <- (rev_involutive t), Er. reflexivity.
    + apply rev_head_nth_error in Er. rewrite Htlen in Er.
      destruct (Hpair _ x Er) as (c & s & Hc & Hs & Hxe).
      exists c, s. split; [exact Hc|]. split; [exact Hs|].
      subst x. destruct (Qeq_bool s 0); reflexivity.
Qed.

(** With the sample GSVD, [C = [3, 1]] and [S = [2, 0]]: the tangents
    are 1.5 and [inf], none below [mtol = 1e-4], and the message shows
    [inf]. *)
Lemma gsvd_eigenbasis_coef_finite_tangent_witness :
  gsvd_eigenbasis_coef Samples.kernel Fixture.weighted_square 18.5 None
  = Raise (ValueError (zero_multiplicity_msg 18.5 Fmt3eInf 1e-4)).
Proof.
  edestruct (gsvd_eigenbasis_coef_finite_tangent Samples.kernel
               Fixture.weighted_square 18.5 None)
    as (_ & H).
  - reflexivity.
  - reflexivity.
  - reflexivity.
  - reflexivity.
  - reflexivity.
  - reflexivity.
  - destruct H as (c & s & Hc & Hs & Hout).
    + discriminate.
    + intros [|[|i]] c s Hc Hs; simpl in Hc, Hs.
      * inversion Hc; inversion Hs; subst. right. vm_compute. discriminate.
      * inversion Hs. left. reflexivity.
      * destruct i; discriminate.
    + simpl in Hc, Hs. inversion Hc; inversion Hs; subst. exact Hout.
Defined.

(** X19.  [eigenbasis_unweighted_coef] reads no quadrature attribute:
    with or without quadrature on the instance, once the pivoted QR of
    the basis matrix, the rank cutoff and the SVD of the block of the
    first [len(boundary_pts)] rows deliver (at least one singular
    value), the call raises no missing-attribute error; it raises its
    zero-multiplicity error, which prints [mtol] in [.3e] format,
    exactly when no singular value is below [mtol]; a matrix it returns
    has one column per singular value below [mtol]; and one is returned
    whenever the triangular solve and the un-permutation go through. *)
Theorem eigenbasis_unweighted_coef_columns (K : Kernel) (U : Utils)
    (self : PolygonEVP) (lambda_ : Q) (rtol_ mtol_ : option Q)
    (Qm R : matrix) (P : list nat) (cutoff : nat) (Um Vh : matrix)
    (s : list Q) :
  la_qr_pivot K (basis self lambda_) = (Qm, R, P) ->
  rank_cutoff (map Qabs (diag R)) (default_to (rtol self) rtol_) = Ok cutoff ->
  la_svd K (slice Qm (nrows (boundary_pts self)) cutoff) = Some (Um, s, Vh) ->
  s <> [] ->
  let tol := default_to (mtol self) mtol_ in
  let mult := count_where (fun x => Qltb x tol) s in
  let out := eigenbasis_unweighted_coef K U self lambda_ rtol_ mtol_ in
  (forall name, out <> Raise (AttributeError name))
  /\ ((exists sg, out = Raise (ValueError
                     [Lit "lambda = "; Fmt3e lambda_;
                      Lit " has multiplicity zero (sigma = "; Fmt3e sg;
                      Lit " > "; Fmt3e tol; Lit " = mtol)"]))
      <-> mult = 0%nat)
  /\ (forall C, out = Ok C -> ncols C = mult /\ (0 < mult)%nat)
  /\ ((0 < mult)%nat ->
      forall X,
        la_solve_triangular K (slice R cutoff cutoff)
                            (transpose (last_rows Vh mult)) = Some X ->
        nrows X = Nat.min cutoff (ncols (basis self lambda_)) ->
        ncols X = mult ->
        forallb (fun p => Nat.ltb p (ncols (basis self lambda_)))
                (invert_permutation U P) = true ->
        exists C, out = Ok C /\ ncols C = mult
                  /\ nrows C = List.length (invert_permutation U P)).
Proof.
  intros Hqr Hcut Hsvd Hne tol mult out.
  destruct (last_item_nonempty s Hne) as [sigma0 Hsigma].
  assert (Hout : out =
    if Nat.eqb mult 0 then
      Raise (ValueError
               [Lit "lambda = "; Fmt3e lambda_;
                Lit " has multiplicity zero (sigma = "; Fmt3e sigma0;
                Lit " > "; Fmt3e tol; Lit " = mtol)"])
    else
      X <- match la_solve_triangular K (slice R cutoff cutoff)
                                       (transpose (last_rows Vh mult)) with
           | Some X => Ok X
           | None => Raise LinAlgError
           end ;;
      C' <- assign_rows_upto (zeros (ncols (basis self lambda_)) mult) cutoff X ;;
      take_rows C' (invert_permutation U P)).
  { unfold out, eigenbasis_unweighted_coef. rewrite Hqr, Hcut. simpl bind.
    rewrite Hsvd. simpl bind. fold tol. fold mult.
    destruct (Nat.eqb mult 0); [rewrite Hsigma|]; reflexivity. }
  destruct (Nat.eqb mult 0) eqn:Emult.
  - apply Nat.eqb_eq in Emult.
    split; [intros name Hn; rewrite Hout in Hn; discriminate|].
    split; [split; [intros _; exact Emult | intros _; eauto]|].
    split; [intros C HC; rewrite Hout in HC; discriminate|].
    intro; lia.
  - apply Nat.eqb_neq in Emult.
    assert (Hraise : forall e, out = Raise e ->
              e = LinAlgError
              \/ e = ValueError [Lit "could not broadcast input array"]
              \/ e = IndexError).
    { intros e He. rewrite Hout in He.
      destruct (la_solve_triangular K _ _) as [X|]; simpl in He;
        [|inversion He; auto].
      destruct (assign_rows_upto _ cutoff X) as [C'|e'] eqn:EC; simpl in He.
      - unfold take_rows in He. destruct (forallb _ _); inversion He; auto.
      - unfold assign_rows_upto in EC. destruct (_ && _); [discriminate|].
        inversion EC; subst e'. inversion He; auto. }
    split.
    { intros name Hn. destruct (Hraise _ Hn) as [H|[H|H]]; discriminate. }
    split; [split; [|intro; lia]|].
    { intros [sg Hsg]. exfalso.
      destruct (Hraise _ Hsg) as [H|[H|H]]; discriminate. }
    split.
    { intros C HC. rewrite Hout in HC.
      apply bind_Ok in HC. destruct HC as [X [_ HC]].
      apply bind_Ok in HC. destruct HC as [C' [HC' HC]].
      apply assign_rows_upto_shape in HC'. apply take_rows_shape in HC.
      destruct HC' as [_ Hc']. destruct HC as [_ Hc].
      simpl in Hc'. split; [congruence | lia]. }
    { intros _ X HX HrX HcX HP. rewrite Hout, HX. simpl bind.
      unfold assign_rows_upto. simpl nrows. simpl ncols.
      rewrite HrX, HcX, !Nat.eqb_refl. simpl.
      unfold take_rows. simpl nrows. rewrite HP.
      eexists. split; [reflexivity|]. simpl. auto. }
Qed.

(** The fixture built without quadrature, at its zero [lambda = 18.5]:
    [eigenbasis_coef] stops at the missing weights, the unweighted
    variant returns one column. *)
Lemma eigenbasis_unweighted_coef_columns_witness :
  eigenbasis_coef Fixture.kernel Fixture.utils Fixture.square 18.5 None None
  = Raise (AttributeError "weights")
  /\ exists C,
       eigenbasis_unweighted_coef Fixture.kernel Fixture.utils Fixture.square
                                  18.5 None None = Ok C
       /\ ncols C = 1%nat.
Proof.
  split; [reflexivity|].
  edestruct (eigenbasis_unweighted_coef_columns Fixture.kernel Fixture.utils
               Fixture.square 18.5 None None)
    as (_ & _ & _ & H).
  - reflexivity.
  - reflexivity.
  - reflexivity.
  - discriminate.
  - edestruct H as (C & HC & Hcols & _).
    + vm_compute. reflexivity.
    + reflexivity.
    + reflexivity.
    + reflexivity.
    + reflexivity.
    + exists C. split; [exact HC | exact Hcols].
Defined.

(** ** Boundary quadrature *)

Lemma zsum_repeat (n : Z) (k : nat) : zsum (repeat n k) = (n * Z.of_nat k)%Z.
Proof.
  induction k as [|k IH]; [simpl; lia|].
  cbn [repeat zsum fold_right]. fold (zsum (repeat n k)). rewrite IH. lia.
Qed.

Lemma firstn_repeat_le {A : Type} (x : A) (i k : nat) :
  (i <= k)%nat -> firstn i (repeat x k) = repeat x i.
Proof.
  revert k. induction i as [|i IH]; intros k Hk; [reflexivity|].
  destruct k as [|k]; [lia|]. simpl. rewrite IH by lia. reflexivity.
Qed.

Lemma norm_index_inside (len i : nat) :
  (i <= len)%nat -> norm_index len (Z.of_nat i) = i.
Proof.
  intro H. unfold norm_index.
  destruct (Z.ltb_spec (Z.of_nat i) 0); lia.
Qed.

(** Writing the next [m] cells of a buffer filled up to [a]. *)
Lemma slice_assign_next {A : Type} (done vals : list A) (r : nat) :
  slice_assign (map Some done ++ repeat None (List.length vals + r))
               (IntIndex (Z.of_nat (List.length done)))
               (Z.of_nat (List.length done + List.length vals)) vals
  = Ok (map Some (done ++ vals) ++ repeat None r).
Proof.
  unfold slice_assign.
  set (arr := map Some done ++ repeat None (List.length vals + r)).
  assert (Harr : List.length arr
                 = (List.length done + (List.length vals + r))%nat).
  { unfold arr. rewrite length_app, length_map, repeat_length. reflexivity. }
  rewrite !norm_index_inside by lia.
  replace (List.length done + List.length vals - List.length done)%nat
    with (List.length vals) by lia.
  rewrite Nat.eqb_refl. f_equal.
  unfold arr.
  rewrite firstn_app, length_map, Nat.sub_diag. simpl firstn at 2.
  rewrite app_nil_r.
  rewrite <- (length_map Some done) at 1. rewrite firstn_all.
  rewrite skipn_app, length_map.
  rewrite (skipn_all2 (map Some done)) by (rewrite length_map; lia).
  replace (List.length done + List.length vals - List.length done)%nat
    with (List.length vals) by lia.
  simpl app at 2.
  rewrite repeat_app, skipn_app, repeat_length, Nat.sub_diag. simpl skipn at 2.
  rewrite (skipn_all2 (repeat None (List.length vals)))
    by (rewrite repeat_length; lia).
  simpl app. rewrite map_app, <- app_assoc. reflexivity.
Qed.

Section SameCount.

Variable quadfunc : nat -> result (list Q * list Q).
Variables (v edges : list complex) (lens : list Q).
Variable n : Z.
Variables qn qw : list Q.

Hypothesis n_positive : (0 < n)%Z.
Hypothesis rule_delivered : quadfunc (Z.to_nat n) = Ok (qn, qw).
Hypothesis qn_length : List.length qn = Z.to_nat n.
Hypothesis qw_length : List.length qw = Z.to_nat n.
Hypothesis edges_length : List.length edges = List.length v.
Hypothesis lens_length : List.length lens = List.length v.

Lemma item_of_nth {A : Type} (l : list A) (i : nat) (d : A) :
  (i < List.length l)%nat -> item_of l i = Ok (nth i l d).
Proof.
  intro H. unfold item_of. rewrite (nth_error_nth' l d H). reflexivity.
Qed.

Lemma edge_step_same (i r : nat) (doneN : list complex) (doneW : list Q) :
  (i + S r = List.length v)%nat ->
  List.length doneN = (Z.to_nat n * i)%nat ->
  List.length doneW = (Z.to_nat n * i)%nat ->
  edge_step quadfunc v edges lens false (repeat n (List.length v))
    (map Some doneN ++ repeat None (Z.to_nat n * S r),
     map Some doneW ++ repeat None (Z.to_nat n * S r)) i
  = Ok (map Some (doneN ++ along_edge (nth i edges (0, 0)) (nth i v (0, 0)) qn)
          ++ repeat None (Z.to_nat n * r),
        map Some (doneW ++ scaled_weights qw (nth i lens 0))
          ++ repeat None (Z.to_nat n * r)).
Proof.
  intros Hi HN HW. unfold edge_step.
  rewrite (item_of_nth (repeat n (List.length v)) i 0%Z)
    by (rewrite repeat_length; lia).
  rewrite nth_repeat_lt by lia. cbn [bind].
  destruct (Z.ltb_spec 0 n) as [_|]; [|lia].
  rewrite rule_delivered. cbn [bind].
  rewrite (item_of_nth edges i (0, 0)) by lia. cbn [bind].
  rewrite (item_of_nth v i (0, 0)) by lia. cbn [bind].
  unfold prefix_sum. cbn [andb].
  rewrite (firstn_repeat_le n i (List.length v)) by lia.
  rewrite (firstn_repeat_le n (S i) (List.length v)) by lia.
  rewrite !zsum_repeat.
  cbn [fst snd].
  assert (Hstart : (n * Z.of_nat i)%Z = Z.of_nat (Z.to_nat n * i)) by lia.
  assert (Hstop : (n * Z.of_nat (S i))%Z
                  = Z.of_nat (Z.to_nat n * i + Z.to_nat n)) by lia.
  rewrite Hstart, Hstop.
  replace (Z.to_nat n * S r)%nat with (Z.to_nat n + Z.to_nat n * r)%nat by lia.
  pose proof (slice_assign_next doneN
                (along_edge (nth i edges (0, 0)) (nth i v (0, 0)) qn)
                (Z.to_nat n * r)) as EN.
  unfold along_edge in EN at 1 2. rewrite length_map, qn_length, HN in EN.
  rewrite EN. cbn [bind].
  rewrite (item_of_nth lens i 0) by lia. cbn [bind].
  pose proof (slice_assign_next doneW (scaled_weights qw (nth i lens 0))
                (Z.to_nat n * r)) as EW.
  unfold scaled_weights in EW at 1 2. rewrite length_map, qw_length, HW in EW.
  rewrite EW. reflexivity.
Qed.

Lemma edge_loop_same (r : nat) :
  forall (i : nat) (doneN : list complex) (doneW : list Q),
  (i + r = List.length v)%nat ->
  List.length doneN = (Z.to_nat n * i)%nat ->
  List.length doneW = (Z.to_nat n * i)%nat ->
  edge_loop (edge_step quadfunc v edges lens false (repeat n (List.length v)))
            (seq i r)
            (map Some doneN ++ repeat None (Z.to_nat n * r),
             map Some doneW ++ repeat None (Z.to_nat n * r))
  = Ok (map Some
          (doneN ++ List.concat (map (fun j => along_edge (nth j edges (0, 0))
                                                     (nth j v (0, 0)) qn)
                                (seq i r))),
        map Some
          (doneW ++ List.concat (map (fun j => scaled_weights qw (nth j lens 0))
                                (seq i r)))).
Proof.
  induction r as [|r IH]; intros i doneN doneW Hi HN HW.
  - simpl. rewrite Nat.mul_0_r. simpl. rewrite !app_nil_r. reflexivity.
  - cbn [seq edge_loop]. rewrite (edge_step_same i r doneN doneW Hi HN HW).
    cbn [bind]. rewrite IH.
    + cbn [map List.concat]. rewrite <- !app_assoc. reflexivity.
    + lia.
    + rewrite length_app. unfold along_edge. rewrite length_map. lia.
    + rewrite length_app. unfold scaled_weights. rewrite length_map. lia.
Qed.

End SameCount.

Lemma total_repeat (x : Q) (k : nat) : total (repeat x k) == Q_of_nat k * x.
Proof.
  unfold total, Q_of_nat. induction k as [|k IH].
  - simpl. ring.
  - cbn [repeat fold_right]. rewrite IH, Nat2Z.inj_succ.
    unfold Z.succ. rewrite inject_Z_plus. ring.
Qed.

Lemma total_scaled_weights (qw : list Q) (l : Q) :
  total (scaled_weights qw l) == total qw * l.
Proof.
  unfold scaled_weights, total. induction qw as [|w qw' IHq]; simpl.
  - ring.
  - rewrite IHq. ring.
Qed.

Lemma total_concat_scaled (qw lens : list Q) (idx : list nat) :
  total (List.concat (map (fun j => scaled_weights qw (nth j lens 0)) idx))
  == total qw * total (map (fun j => nth j lens 0) idx).
Proof.
  induction idx as [|j idx IH].
  - unfold total. simpl. ring.
  - cbn [map List.concat]. rewrite total_app, IH.
    rewrite (total_scaled_weights qw (nth j lens 0)).
    assert (H : total (nth j lens 0 :: map (fun j0 => nth j0 lens 0) idx)
                == nth j lens 0 + total (map (fun j0 => nth j0 lens 0) idx))
      by reflexivity.
    rewrite H. ring.
Qed.

Lemma even_rule_weights (n : nat) (qn qw : list Q) :
  even_rule n = Ok (qn, qw) ->
  (0 < n)%nat ->
  List.length qn = n /\ qw = repeat (1 / Q_of_nat n) n /\ total qw == 1.
Proof.
  unfold even_rule, np_linspace. intros H Hn.
  destruct (Z.ltb_spec (Z.of_nat n + 2) 0) as [|_]; [lia|].
  cbn [bind] in H. inversion H as [[Hqn Hqw]]. clear H.
  split; [|split].
  - rewrite removelast_firstn_len, length_firstn.
    assert (Hl : forall (l : list Q), List.length (tl l) = (List.length l - 1)%nat)
      by (intros [|? ?]; simpl; lia).
    rewrite Hl, length_map, length_seq. lia.
  - reflexivity.
  - rewrite total_repeat. unfold Q_of_nat.
    assert (Hz : ~ inject_Z (Z.of_nat n) == 0).
    { intro Hz. unfold Qeq in Hz. simpl in Hz. lia. }
    field. exact Hz.
Qed.

(** One positive count for all edges: the loop fills both arrays, edge
    after edge. *)
Lemma boundary_same_count_general (NP : NumPy) (N : Numerics)
    (PU : PolygonUtils) (vertices : vertices_arg) (n : Z) (rule : string)
    (quadfunc : nat -> result (list Q * list Q)) (qn qw : list Q) :
  select_rule NP N rule = Some quadfunc ->
  (0 < n)%Z ->
  quadfunc (Z.to_nat n) = Ok (qn, qw) ->
  List.length qn = Z.to_nat n ->
  List.length qw = Z.to_nat n ->
  let v := as_complex PU vertices in
  let edges := polygon_edges PU v in
  let lens := edge_lengths PU v in
  List.length edges = List.length v ->
  List.length lens = List.length v ->
  exists nodes weights,
    boundary_nodes_polygon NP N PU vertices (SameOnEachEdge n) rule None
    = Selected (Ok (map Some nodes, map Some weights))
    /\ List.length nodes = (Z.to_nat n * List.length v)%nat
    /\ List.length weights = (Z.to_nat n * List.length v)%nat
    /\ (forall z, In z nodes ->
          exists i t, (i < List.length v)%nat /\ In t qn
                      /\ z = cadd (cscale (nth i edges (0, 0)) t)
                                  (nth i v (0, 0)))
    /\ total weights == total qw * total lens.
Proof.
  intros Hsel Hn Hq Hqn Hqw v edges lens He Hl.
  pose proof (edge_loop_same quadfunc v edges lens n qn qw Hn Hq Hqn Hqw He Hl
                (List.length v) 0%nat [] [] eq_refl) as Hloop.
  rewrite Nat.mul_0_r in Hloop. specialize (Hloop eq_refl eq_refl).
  cbn [map app] in Hloop.
  eexists _, _. split.
  { unfold boundary_nodes_polygon. fold v. rewrite Hsel.
    unfold edge_counts. cbn [bind]. rewrite zsum_repeat.
    destruct (Z.ltb_spec (n * Z.of_nat (List.length v)) 0) as [|_]; [nia|].
    replace (Z.to_nat (n * Z.of_nat (List.length v)))
      with (Z.to_nat n * List.length v)%nat by nia.
    fold edges. fold lens. rewrite Hloop. reflexivity. }
  assert (Hlen : forall (A : Type) (f : nat -> list A) (idx : list nat),
            (forall j, List.length (f j) = Z.to_nat n) ->
            List.length (List.concat (map f idx))
            = (Z.to_nat n * List.length idx)%nat).
  { intros A f idx Hf. induction idx as [|j idx IH]; simpl; [lia|].
    rewrite length_app, IH, Hf. lia. }
  split.
  { rewrite Hlen, length_seq; [reflexivity|].
    intro j. unfold along_edge. rewrite length_map. exact Hqn. }
  split.
  { rewrite Hlen, length_seq; [reflexivity|].
    intro j. unfold scaled_weights. rewrite length_map. exact Hqw. }
  split.
  { intros z Hz. apply in_concat in Hz. destruct Hz as (blk & Hblk & Hz).
    apply in_map_iff in Hblk. destruct Hblk as (i & Hi & Hin).
    apply in_seq in Hin. subst blk. unfold along_edge in Hz.
    apply in_map_iff in Hz. destruct Hz as (t & Ht & Hint).
    exists i, t. split; [lia|]. split; [exact Hint | symmetry; exact Ht]. }
  rewrite total_concat_scaled, <- Hl, map_nth_seq_all. reflexivity.
Qed.

(** X20.  [boundary_nodes_polygon] with one positive point count [n] for
    all edges and no [skip], for a rule that delivers [n] nodes and [n]
    weights, and helpers that return one edge and one length per
    vertex: the loop fills both arrays completely, [n] cells per edge in
    the order of the edges; every node is a vertex plus a rule node
    times the edge from that vertex; the weights add up to the sum of
    the rule weights times the sum of the edge lengths, and for the
    rule ['even'] to the sum of the edge lengths itself. *)
Theorem boundary_nodes_polygon_same_count (NP : NumPy) (N : Numerics)
    (PU : PolygonUtils) (vertices : vertices_arg) (n : Z) (rule : string)
    (quadfunc : nat -> result (list Q * list Q)) (qn qw : list Q) :
  select_rule NP N rule = Some quadfunc ->
  (0 < n)%Z ->
  quadfunc (Z.to_nat n) = Ok (qn, qw) ->
  List.length qn = Z.to_nat n ->
  List.length qw = Z.to_nat n ->
  let v := as_complex PU vertices in
  let edges := polygon_edges PU v in
  let lens := edge_lengths PU v in
  List.length edges = List.length v ->
  List.length lens = List.length v ->
  exists nodes weights,
    boundary_nodes_polygon NP N PU vertices (SameOnEachEdge n) rule None
    = Selected (Ok (map Some nodes, map Some weights))
    /\ List.length nodes = (Z.to_nat n * List.length v)%nat
    /\ List.length weights = (Z.to_nat n * List.length v)%nat
    /\ (forall z, In z nodes ->
          exists i t, (i < List.length v)%nat /\ In t qn
                      /\ z = cadd (cscale (nth i edges (0, 0)) t)
                                  (nth i v (0, 0)))
    /\ total weights == total qw * total lens
    /\ (rule = "even"%string -> total weights == total lens).
Proof.
  intros Hsel Hn Hq Hqn Hqw v edges lens He Hl.
  destruct (boundary_same_count_general NP N PU vertices n rule quadfunc qn qw
              Hsel Hn Hq Hqn Hqw He Hl)
    as (nodes & weights & Hrun & HlN & HlW & Hon & Htot).
  exists nodes, weights.
  split; [exact Hrun|]. split; [exact HlN|]. split; [exact HlW|].
  split; [exact Hon|]. split; [exact Htot|].
  intro Hrule. subst rule. rewrite Htot.
  assert (Heven : quadfunc = even_rule).
  { unfold select_rule in Hsel. simpl in Hsel. congruence. }
  subst quadfunc.
  destruct (even_rule_weights (Z.to_nat n) qn qw Hq ltac:(lia)) as (_ & _ & H1).
  rewrite H1. unfold lens, v. ring.
Qed.

(** Two evenly spaced points on each edge of the unit square: eight
    nodes, and weights that add up to the perimeter 4. *)
Lemma boundary_nodes_polygon_same_count_witness :
  exists nodes weights,
    boundary_nodes_polygon Fixture.numpy Samples.numerics Samples.polygon_utils
      (ComplexVertices Samples.mesh_vertices) (SameOnEachEdge 2) "even" None
    = Selected (Ok (map Some nodes, map Some weights))
    /\ List.length nodes = 8%nat
    /\ total weights == 4.
Proof.
  edestruct (boundary_nodes_polygon_same_count Fixture.numpy Samples.numerics
               Samples.polygon_utils (ComplexVertices Samples.mesh_vertices)
               2 "even" even_rule)
    as (nodes & weights & Hrun & Hn & _ & _ & _ & Heven).
  - reflexivity.
  - lia.
  - vm_compute. reflexivity.
  - reflexivity.
  - reflexivity.
  - reflexivity.
  - reflexivity.
  - exists nodes, weights. split; [exact Hrun|]. split; [exact Hn|].
    rewrite (Heven eq_refl). vm_compute. reflexivity.
Defined.

(** X21.  What [boundary_nodes_polygon] rejects.  A rule name other than
    ['chebyshev'], ['legendre'] and ['even'] gives the not-implemented
    error whatever the other arguments are.  For a known rule, per-edge
    counts whose number differs from the number of vertices give the
    mismatch error, also when [skip] is passed; per-edge counts of the
    right number together with a [skip] give the skip error.  And
    per-edge counts passed as a Python list with a positive first count
    never produce nodes: the first slice starts at [np.sum] of an empty
    list, a float, and the assignment raises [TypeError]. *)
Theorem boundary_nodes_polygon_rejects (NP : NumPy) (N : Numerics)
    (PU : PolygonUtils) (vertices : vertices_arg) (rule : string) :
  let v := as_complex PU vertices in
  let run := boundary_nodes_polygon NP N PU vertices in
  (rule <> "chebyshev"%string -> rule <> "legendre"%string ->
   rule <> "even"%string ->
   forall n_pts skip,
     run n_pts rule skip
     = NotImplemented [Lit "quadrature rule "; Lit rule;
                       Lit " is not implemented"])
  /\ (forall quadfunc l skip,
        select_rule NP N rule = Some quadfunc ->
        List.length l <> List.length v ->
        run (PerEdgeList l) rule skip
        = Selected (Raise (ValueError
            [Lit "quadrature n_pts do not match number of polygon edges"]))
        /\ run (PerEdgeArray l) rule skip = run (PerEdgeList l) rule skip)
  /\ (forall quadfunc l idx,
        select_rule NP N rule = Some quadfunc ->
        List.length l = List.length v ->
        run (PerEdgeList l) rule (Some idx)
        = Selected (Raise (ValueError
            [Lit "skip must be 'None' if n_pts are provided for each edge"]))
        /\ run (PerEdgeArray l) rule (Some idx)
           = run (PerEdgeList l) rule (Some idx))
  /\ (forall quadfunc c rest qn qw,
        select_rule NP N rule = Some quadfunc ->
        List.length (c :: rest) = List.length v ->
        (0 < c)%Z ->
        (0 <= zsum (c :: rest))%Z ->
        quadfunc (Z.to_nat c) = Ok (qn, qw) ->
        polygon_edges PU v <> [] ->
        run (PerEdgeList (c :: rest)) rule None
        = Selected (Raise (TypeError
            [Lit "slice indices must be integers or None or have an __index__ method"]))).
Proof.
  intros v run. unfold run, boundary_nodes_polygon. fold v.
  split; [|split; [|split]].
  - intros Hc Hl He n_pts skip. unfold select_rule.
    apply String.eqb_neq in Hc, Hl, He. rewrite Hc, Hl, He. reflexivity.
  - intros quadfunc l skip Hsel Hlen. rewrite Hsel.
    apply Nat.eqb_neq in Hlen. unfold edge_counts. rewrite Hlen.
    split; reflexivity.
  - intros quadfunc l idx Hsel Hlen. rewrite Hsel.
    unfold edge_counts. rewrite Hlen, Nat.eqb_refl.
    split; reflexivity.
  - intros quadfunc c rest qn qw Hsel Hlen Hc Hsum Hq Hedges. rewrite Hsel.
    unfold edge_counts. rewrite Hlen, Nat.eqb_refl. cbn [negb bind].
    destruct (Z.ltb_spec (zsum (c :: rest)) 0) as [|_]; [lia|].
    destruct v as [|v0 vs] eqn:Ev; [discriminate|].
    destruct (polygon_edges PU (v0 :: vs)) as [|e0 es] eqn:Ee;
      [contradiction|].
    cbn [List.length seq edge_loop].
    unfold edge_step at 1. cbn [item_of nth_error bind].
    destruct (Z.ltb_spec 0 c) as [_|]; [|lia].
    rewrite Hq. reflexivity.
Qed.

(** Two points on the first edge of the unit square and none on the
    others: as a Python list the counts end in [TypeError], as an
    integer array they give two nodes. *)
Lemma boundary_nodes_polygon_rejects_witness :
  boundary_nodes_polygon Fixture.numpy Samples.numerics Samples.polygon_utils
    (ComplexVertices Samples.mesh_vertices) (PerEdgeList [2; 0; 0; 0]%Z)
    "even" None
  = Selected (Raise (TypeError
      [Lit "slice indices must be integers or None or have an __index__ method"]))
  /\ exists nodes weights,
       boundary_nodes_polygon Fixture.numpy Samples.numerics
         Samples.polygon_utils (ComplexVertices Samples.mesh_vertices)
         (PerEdgeArray [2; 0; 0; 0]%Z) "even" None
       = Selected (Ok (nodes, weights))
       /\ List.length nodes = 2%nat.
Proof.
  split.
  - eapply (proj2 (proj2 (proj2
              (boundary_nodes_polygon_rejects Fixture.numpy Samples.numerics
                 Samples.polygon_utils (ComplexVertices Samples.mesh_vertices)
                 "even")))
              even_rule 2%Z [0; 0; 0]%Z).
    + reflexivity.
    + reflexivity.
    + lia.
    + simpl. lia.
    + vm_compute. reflexivity.
    + discriminate.
  - eexists _, _. split; [vm_compute; reflexivity | reflexivity].
Defined.

(** ** Boundary quadrature with the Gauss rules *)

Lemma unit_interval_node (x : Q) :
  -(1) <= x -> x <= 1 -> 0 <= (x + 1) / 2 /\ (x + 1) / 2 <= 1.
Proof.
  intros Hlo Hhi. split.
  - apply Qle_shift_div_l; [reflexivity|]. lra.
  - apply Qle_shift_div_r; [reflexivity|]. lra.
Qed.

Lemma total_halved (g : list (Q * Q)) :
  total (map (fun p => snd p / 2) g) == total (map snd g) / 2.
Proof.
  unfold total. induction g as [|p g IH]; simpl.
  - reflexivity.
  - rewrite IH. field.
Qed.

(** X24.  [boundary_nodes_polygon] with the rule ['legendre'] or
    ['chebyshev'], one positive count [n] for all edges and no [skip],
    when numpy's rule of order [n] has [n] nodes, all in [-1,1], and
    the helpers return one edge and one length per vertex: both arrays
    are filled, [n] cells per edge, and every node is [v + t*e] for a
    vertex [v], the edge [e] that starts there and some [t] in [0,1],
    so it lies on that edge.  For ['legendre'] with rule weights that
    add up to 2 the weights returned add up to the sum of the edge
    lengths. *)
Theorem boundary_nodes_polygon_gauss (NP : NumPy) (N : Numerics)
    (PU : PolygonUtils) (vertices : vertices_arg) (n : Z) (rule : string)
    (g : list (Q * Q)) :
  (0 < n)%Z ->
  (rule = "legendre"%string /\ leggauss N (Z.to_nat n) = Ok g)
  \/ (rule = "chebyshev"%string /\ chebgauss N (Z.to_nat n) = Ok g) ->
  List.length g = Z.to_nat n ->
  Forall (fun p => -(1) <= fst p /\ fst p <= 1) g ->
  let v := as_complex PU vertices in
  let edges := polygon_edges PU v in
  let lens := edge_lengths PU v in
  List.length edges = List.length v ->
  List.length lens = List.length v ->
  exists nodes weights,
    boundary_nodes_polygon NP N PU vertices (SameOnEachEdge n) rule None
    = Selected (Ok (map Some nodes, map Some weights))
    /\ List.length nodes = (Z.to_nat n * List.length v)%nat
    /\ List.length weights = (Z.to_nat n * List.length v)%nat
    /\ (forall z, In z nodes ->
          exists i t, (i < List.length v)%nat /\ 0 <= t /\ t <= 1
                      /\ z = cadd (cscale (nth i edges (0, 0)) t)
                                  (nth i v (0, 0)))
    /\ (rule = "legendre"%string -> total (map snd g) == 2 ->
        total weights == total lens).
Proof.
  intros Hn Hrule Hg Hin v edges lens He Hl.
  assert (Hnode : forall t, In t (map (fun p : Q * Q => (fst p + 1) / 2) g) ->
                            0 <= t /\ t <= 1).
  { intros t Ht. apply in_map_iff in Ht. destruct Ht as (p & Hp & Hpin).
    subst t. rewrite Forall_forall in Hin. destruct (Hin p Hpin).
    apply unit_interval_node; assumption. }
  destruct Hrule as [[Hr Hq]|[Hr Hq]]; subst rule.
  - (* Gauss-Legendre *)
    destruct (boundary_same_count_general NP N PU vertices n "legendre"
                (cached_leggauss N)
                (map (fun p => (fst p + 1) / 2) g) (map (fun p => snd p / 2) g))
      as (nodes & weights & Hrun & HlN & HlW & Hon & Htot).
    + reflexivity.
    + exact Hn.
    + unfold cached_leggauss. rewrite Hq. reflexivity.
    + rewrite length_map. exact Hg.
    + rewrite length_map. exact Hg.
    + exact He.
    + exact Hl.
    + exists nodes, weights.
      split; [exact Hrun|]. split; [exact HlN|]. split; [exact HlW|].
      split.
      * intros z Hz. destruct (Hon z Hz) as (i & t & Hi & Ht & Hzt).
        destruct (Hnode t Ht). exists i, t. auto.
      * intros _ Hsum. rewrite Htot, total_halved, Hsum.
        unfold lens, v. field.
  - (* Gauss-Chebyshev *)
    destruct (boundary_same_count_general NP N PU vertices n "chebyshev"
                (cached_chebgauss NP N)
                (rev (map (fun p => (fst p + 1) / 2) g))
                (rev (map (fun w => w / 2)
                          (map (fun p => snd p * np_sqrt NP (1 - fst p ^ 2)) g))))
      as (nodes & weights & Hrun & HlN & HlW & Hon & Htot).
    + reflexivity.
    + exact Hn.
    + unfold cached_chebgauss. rewrite Hq. reflexivity.
    + rewrite length_rev, length_map. exact Hg.
    + rewrite length_rev, !length_map. exact Hg.
    + exact He.
    + exact Hl.
    + exists nodes, weights.
      split; [exact Hrun|]. split; [exact HlN|]. split; [exact HlW|].
      split.
      * intros z Hz. destruct (Hon z Hz) as (i & t & Hi & Ht & Hzt).
        apply in_rev in Ht.
        destruct (Hnode t Ht). exists i, t. auto.
      * intro Hr. discriminate.
Qed.

(** Two Gauss-Legendre points on each edge of the unit square: eight
    nodes, and weights that add up to the perimeter 4. *)
Lemma boundary_nodes_polygon_gauss_witness :
  exists nodes weights,
    boundary_nodes_polygon Fixture.numpy Samples.numerics Samples.polygon_utils
      (ComplexVertices Samples.mesh_vertices) (SameOnEachEdge 2) "legendre" None
    = Selected (Ok (map Some nodes, map Some weights))
    /\ List.length nodes = 8%nat
    /\ total weights == 4.
Proof.
  edestruct (boundary_nodes_polygon_gauss Fixture.numpy Samples.numerics
               Samples.polygon_utils (ComplexVertices Samples.mesh_vertices)
               2 "legendre")
    as (nodes & weights & Hrun & Hn & _ & _ & Hleg).
  - lia.
  - left. split; [reflexivity|]. vm_compute. reflexivity.
  - reflexivity.
  - repeat constructor; vm_compute; discriminate.
  - reflexivity.
  - reflexivity.
  - exists nodes, weights. split; [exact Hrun|]. split; [exact Hn|].
    rewrite (Hleg eq_refl); vm_compute; reflexivity.
Defined.

(** ** Boundary quadrature with unequal point counts *)

Lemma zsum_app (l l' : list Z) : zsum (l ++ l') = (zsum l + zsum l')%Z.
Proof.
  induction l as [|x l IH]; [reflexivity|].
  cbn [app zsum fold_right]. fold (zsum (l ++ l')). fold (zsum l). lia.
Qed.

Lemma zsum_nonneg (l : list Z) :
  Forall (fun c => (0 <= c)%Z) l -> (0 <= zsum l)%Z.
Proof.
  induction 1 as [|x l Hx _ IH]; [simpl; lia|].
  cbn [zsum fold_right]. fold (zsum l). lia.
Qed.

Section AnyCount.

Variable quadfunc : nat -> result (list Q * list Q).
Variables (v edges : list complex) (lens : list Q).
Variable counts : list Z.
(* the sum of the weights of the rule of each order *)
Variable W : nat -> Q.

Hypothesis counts_length : List.length counts = List.length v.
Hypothesis counts_nonneg : Forall (fun c => (0 <= c)%Z) counts.
Hypothesis edges_length : List.length edges = List.length v.
Hypothesis lens_length : List.length lens = List.length v.
Hypothesis rule_delivered :
  forall c, In c counts -> (0 < c)%Z ->
    exists qn qw, quadfunc (Z.to_nat c) = Ok (qn, qw)
                  /\ List.length qn = Z.to_nat c
                  /\ List.length qw = Z.to_nat c
                  /\ total qw == W (Z.to_nat c).

Lemma edge_loop_any (post : list Z) :
  forall (pre : list Z) (doneN : list complex) (doneW : list Q),
  counts = pre ++ post ->
  List.length doneN = Z.to_nat (zsum pre) ->
  List.length doneW = Z.to_nat (zsum pre) ->
  exists moreN moreW,
    edge_loop (edge_step quadfunc v edges lens false counts)
              (seq (List.length pre) (List.length post))
              (map Some doneN ++ repeat None (Z.to_nat (zsum post)),
               map Some doneW ++ repeat None (Z.to_nat (zsum post)))
    = Ok (map Some (doneN ++ moreN), map Some (doneW ++ moreW))
    /\ List.length moreN = Z.to_nat (zsum post)
    /\ List.length moreW = Z.to_nat (zsum post)
    /\ total moreW
       == total (map (fun j => if (0 <? nth j counts 0%Z)%Z
                               then W (Z.to_nat (nth j counts 0%Z)) * nth j lens 0
                               else 0)
                     (seq (List.length pre) (List.length post))).
Proof.
  induction post as [|c post IH]; intros pre doneN doneW Hc HN HW.
  - exists [], []. simpl. rewrite !app_nil_r. repeat split; reflexivity.
  - assert (Hall : Forall (fun c => (0 <= c)%Z) pre
                   /\ Forall (fun c => (0 <= c)%Z) (c :: post)).
    { apply Forall_app. rewrite <- Hc. exact counts_nonneg. }
    destruct Hall as [Hpre Hpost].
    pose proof (zsum_nonneg pre Hpre) as Hp0.
    assert (Hc0 : (0 <= c)%Z) by (inversion Hpost; assumption).
    assert (Hq0 : (0 <= zsum post)%Z)
      by (apply zsum_nonneg; inversion Hpost; assumption).
    assert (Hi : (List.length pre < List.length v)%nat).
    { rewrite <- counts_length, Hc, length_app. simpl. lia. }
    assert (Hnth : nth_error counts (List.length pre) = Some c).
    { rewrite Hc, nth_error_app2, Nat.sub_diag by lia. reflexivity. }
    assert (Hnth' : nth (List.length pre) counts 0%Z = c).
    { rewrite Hc, app_nth2, Nat.sub_diag by lia. reflexivity. }
    assert (Hc' : counts = (pre ++ [c]) ++ post)
      by (rewrite <- app_assoc; exact Hc).
    assert (Hsum' : zsum (pre ++ [c]) = (zsum pre + c)%Z).
    { rewrite zsum_app. simpl. lia. }
    cbn [List.length seq edge_loop map].
    replace (S (List.length pre)) with (List.length (pre ++ [c]))
      by (rewrite length_app; simpl; lia).
    rewrite Hnth'.
    unfold edge_step at 1. unfold item_of at 1. rewrite Hnth. cbn [bind].
    destruct (Z.ltb_spec 0 c) as [Hpos|Hzero].
    + (* a positive count: the next cells are written *)
      destruct (rule_delivered c) as (qn & qw & Hq & Hqn & Hqw & Htot);
        [rewrite Hc; apply in_or_app; right; left; reflexivity | exact Hpos |].
      rewrite Hq. cbn [bind].
      rewrite (item_of_nth edges _ (0, 0)) by lia. cbn [bind].
      rewrite (item_of_nth v _ (0, 0)) by lia. cbn [bind].
      unfold prefix_sum. cbn [andb fst snd].
      assert (Hf1 : firstn (List.length pre) counts = pre).
      { rewrite Hc, firstn_app, Nat.sub_diag, firstn_all. simpl.
        apply app_nil_r. }
      assert (Hf2 : firstn (S (List.length pre)) counts = pre ++ [c]).
      { rewrite Hc'.
        replace (S (List.length pre)) with (List.length (pre ++ [c]))
          by (rewrite length_app; simpl; lia).
        rewrite firstn_app, Nat.sub_diag, firstn_all. simpl.
        apply app_nil_r. }
      rewrite Hf1, Hf2, Hsum'.
      assert (Hstart : zsum pre = Z.of_nat (List.length doneN)) by lia.
      assert (Hrest : Z.to_nat (zsum (c :: post))
                      = (Z.to_nat c + Z.to_nat (zsum post))%nat).
      { cbn [zsum fold_right]. fold (zsum post). lia. }
      rewrite Hrest.
      pose proof (slice_assign_next doneN
                    (along_edge (nth (List.length pre) edges (0, 0))
                                (nth (List.length pre) v (0, 0)) qn)
                    (Z.to_nat (zsum post))) as EN.
      unfold along_edge in EN at 1 2. rewrite length_map, Hqn in EN.
      replace (zsum pre) with (Z.of_nat (List.length doneN)) by lia.
      replace (Z.of_nat (List.length doneN) + c)%Z
        with (Z.of_nat (List.length doneN + Z.to_nat c)) by lia.
      rewrite EN. cbn [bind].
      rewrite (item_of_nth lens _ 0) by lia. cbn [bind].
      pose proof (slice_assign_next doneW
                    (scaled_weights qw (nth (List.length pre) lens 0))
                    (Z.to_nat (zsum post))) as EW.
      unfold scaled_weights in EW at 1 2. rewrite length_map, Hqw in EW.
      replace (List.length doneN) with (List.length doneW) by lia.
      rewrite EW. cbn [bind].
      destruct (IH (pre ++ [c])
                  (doneN ++ along_edge (nth (List.length pre) edges (0, 0))
                                       (nth (List.length pre) v (0, 0)) qn)
                  (doneW ++ scaled_weights qw (nth (List.length pre) lens 0)))
        as (moreN & moreW & Hrun & HlN & HlW & Htotal).
      * exact Hc'.
      * rewrite length_app. unfold along_edge. rewrite length_map. lia.
      * rewrite length_app. unfold scaled_weights. rewrite length_map. lia.
      * exists (along_edge (nth (List.length pre) edges (0, 0))
                           (nth (List.length pre) v (0, 0)) qn ++ moreN),
               (scaled_weights qw (nth (List.length pre) lens 0) ++ moreW).
        rewrite !app_assoc. split; [exact Hrun|].
        split; [rewrite length_app; unfold along_edge; rewrite length_map; lia|].
        split; [rewrite length_app; unfold scaled_weights; rewrite length_map; lia|].
        rewrite total_app, total_scaled_weights, Htotal, Htot.
        unfold total at 2. cbn [fold_right]. reflexivity.
    + (* a zero count: the edge is passed over *)
      assert (E0 : c = 0%Z) by lia.
      destruct (IH (pre ++ [c]) doneN doneW)
        as (moreN & moreW & Hrun & HlN & HlW & Htotal);
        [exact Hc' | lia | lia |].
      exists moreN, moreW.
      replace (zsum (c :: post)) with (zsum post)
        by (cbn [zsum fold_right]; fold (zsum post); lia).
      split; [exact Hrun|]. split; [exact HlN|]. split; [exact HlW|].
      rewrite Htotal. unfold total at 2. cbn [fold_right].
      unfold total. ring.
Qed.

End AnyCount.

Lemma wrap_index_inside (len : nat) (i : Z) (k : nat) :
  wrap_index len i = Some k -> (k < len)%nat.
Proof.
  unfold wrap_index.
  set (j := if (i <? 0)%Z then (i + Z.of_nat len)%Z else i).
  destruct (Z.leb_spec 0 j); destruct (Z.ltb_spec j (Z.of_nat len));
    simpl; intro E; inversion E; lia.
Qed.

Lemma nth_zeroed (l : list Z) (k j : nat) :
  (k < List.length l)%nat ->
  nth j (firstn k l ++ 0%Z :: skipn (S k) l) 0%Z
  = if Nat.eqb k j then 0%Z else nth j l 0%Z.
Proof.
  intro Hk.
  assert (Hl : List.length (firstn k l) = k) by (rewrite length_firstn; lia).
  destruct (Nat.eqb_spec k j) as [E|E].
  - subst j. rewrite app_nth2 by lia. rewrite Hl, Nat.sub_diag. reflexivity.
  - destruct (Nat.lt_ge_cases j k) as [Hlt|Hge].
    + rewrite app_nth1 by lia.
      rewrite <- (firstn_skipn k l) at 2. rewrite app_nth1 by lia. reflexivity.
    + rewrite app_nth2 by lia. rewrite Hl.
      destruct (j - k)%nat as [|m] eqn:Em; [lia|]. cbn [nth].
      rewrite <- (firstn_skipn (S k) l) at 2.
      rewrite app_nth2 by (rewrite length_firstn; lia).
      rewrite length_firstn. f_equal. lia.
Qed.

Lemma zero_at_counts (idx : list Z) :
  forall counts,
  Forall (fun i => wrap_index (List.length counts) i <> None) idx ->
  exists c', zero_at counts idx = Ok c'
    /\ List.length c' = List.length counts
    /\ forall j, nth j c' 0%Z
                 = if is_skipped (List.length counts) idx j then 0%Z
                   else nth j counts 0%Z.
Proof.
  induction idx as [|i idx IH]; intros counts Hall.
  - exists counts. repeat split; reflexivity.
  - inversion Hall as [|? ? Hi Hrest]; subst.
    cbn [zero_at]. destruct (wrap_index (List.length counts) i) as [k|] eqn:Ek;
      [|contradiction].
    pose proof (wrap_index_inside _ _ _ Ek) as Hk.
    assert (Hlen : List.length (firstn k counts ++ 0%Z :: skipn (S k) counts)
                   = List.length counts).
    { rewrite length_app, length_firstn. cbn [List.length].
      rewrite length_skipn. lia. }
    destruct (IH (firstn k counts ++ 0%Z :: skipn (S k) counts))
      as (c' & Hrun & Hl & Hnth).
    { rewrite Hlen. exact Hrest. }
    exists c'. split; [exact Hrun|]. split; [congruence|].
    intro j. rewrite Hnth, Hlen, nth_zeroed by exact Hk.
    unfold is_skipped. cbn [existsb]. rewrite Ek.
    destruct (Nat.eqb k j); simpl.
    + destruct (existsb _ idx); reflexivity.
    + reflexivity.
Qed.

Lemma zero_at_out_of_range (idx : list Z) :
  forall counts,
  Exists (fun i => wrap_index (List.length counts) i = None) idx ->
  zero_at counts idx = Raise IndexError.
Proof.
  induction idx as [|i idx IH]; intros counts Hex.
  - inversion Hex.
  - cbn [zero_at]. destruct (wrap_index (List.length counts) i) as [k|] eqn:Ek;
      [|reflexivity].
    pose proof (wrap_index_inside _ _ _ Ek) as Hk.
    apply IH. inversion Hex as [? ? H|? ? H]; subst; [congruence|].
    replace (List.length (firstn k counts ++ 0%Z :: skipn (S k) counts))
      with (List.length counts); [exact H|].
    rewrite length_app, length_firstn. cbn [List.length].
    rewrite length_skipn. lia.
Qed.

Lemma even_rule_defined (m : nat) :
  exists qn qw, even_rule m = Ok (qn, qw).
Proof.
  unfold even_rule, np_linspace.
  destruct (Z.ltb_spec (Z.of_nat m + 2) 0) as [|_]; [lia|].
  eexists _, _. reflexivity.
Qed.

Lemma zsum_by_index (l : list Z) :
  zsum l = zsum (map (fun j => nth j l 0%Z) (seq 0 (List.length l))).
Proof.
  induction l as [|x l IH]; [reflexivity|].
  cbn [List.length seq map nth zsum fold_right].
  rewrite <- seq_shift, map_map. cbn [nth].
  fold (zsum l). fold (zsum (map (fun j => nth j l 0%Z) (seq 0 (List.length l)))).
  rewrite <- IH. reflexivity.
Qed.

(** X22.  [boundary_nodes_polygon] with the rule ['even'], one positive
    count [n] for all edges and a [skip] list, for helpers that return
    one edge and one length per vertex.  If every index of [skip] is in
    range (negative ones counted from the end), both arrays are filled
    completely with [n] cells for each edge that [skip] does not name
    and none for the others, and the weights add up to the total length
    of the edges that are kept.  If some index is out of range the call
    raises [IndexError]. *)
Theorem boundary_nodes_polygon_skip (NP : NumPy) (N : Numerics)
    (PU : PolygonUtils) (vertices : vertices_arg) (n : Z) (idx : list Z) :
  let v := as_complex PU vertices in
  let lens := edge_lengths PU v in
  let run := boundary_nodes_polygon NP N PU vertices (SameOnEachEdge n) "even"
                                    (Some idx) in
  (0 < n)%Z ->
  List.length (polygon_edges PU v) = List.length v ->
  List.length lens = List.length v ->
  (Forall (fun i => wrap_index (List.length v) i <> None) idx ->
   let kept := filter (fun j => negb (is_skipped (List.length v) idx j))
                      (seq 0 (List.length v)) in
   exists nodes weights,
     run = Selected (Ok (map Some nodes, map Some weights))
     /\ List.length nodes = (Z.to_nat n * List.length kept)%nat
     /\ List.length weights = (Z.to_nat n * List.length kept)%nat
     /\ total weights == total (map (fun j => nth j lens 0) kept))
  /\ (Exists (fun i => wrap_index (List.length v) i = None) idx ->
      run = Selected (Raise IndexError)).
Proof.
  intros v lens run Hn He Hl.
  assert (Hsel : select_rule NP N "even" = Some even_rule) by reflexivity.
  split.
  - intros Hvalid kept.
    destruct (zero_at_counts idx (repeat n (List.length v)))
      as (c' & Hzero & Hlen & Hnth).
    { rewrite repeat_length. exact Hvalid. }
    rewrite repeat_length in Hlen, Hnth.
    assert (Hcell : forall j, (j < List.length v)%nat ->
              nth j c' 0%Z
              = if is_skipped (List.length v) idx j then 0%Z else n).
    { intros j Hj. rewrite Hnth, nth_repeat_lt by exact Hj. reflexivity. }
    assert (Hnonneg : Forall (fun c => (0 <= c)%Z) c').
    { apply Forall_nth. intros j d Hj. rewrite (nth_indep c' d 0%Z Hj).
      rewrite Hcell by lia. destruct (is_skipped _ _ _); lia. }
    destruct (edge_loop_any even_rule v (polygon_edges PU v) lens c'
                (fun _ => 1) Hlen Hnonneg He Hl) with
      (post := c') (pre := @nil Z) (doneN := @nil complex) (doneW := @nil Q)
      as (nodes & weights & Hloop & HlN & HlW & Htot).
    { intros c _ Hc. destruct (even_rule_defined (Z.to_nat c)) as (qn & qw & Hq).
      exists qn, qw. split; [exact Hq|].
      destruct (even_rule_weights _ _ _ Hq ltac:(lia)) as (H1 & H2 & H3).
      split; [exact H1|]. split; [|exact H3].
      rewrite H2. apply repeat_length. }
    { reflexivity. }
    { reflexivity. }
    { reflexivity. }
    cbn [map app List.length] in Hloop, Htot. rewrite Hlen in Hloop, Htot.
    assert (Hcount : forall js, Forall (fun j => (j < List.length v)%nat) js ->
              zsum (map (fun j => nth j c' 0%Z) js)
              = (n * Z.of_nat (List.length
                    (filter (fun j => negb (is_skipped (List.length v) idx j))
                            js)))%Z
              /\ total (map (fun j => if (0 <? nth j c' 0%Z)%Z
                                      then 1 * nth j lens 0 else 0) js)
                 == total (map (fun j => nth j lens 0)
                    (filter (fun j => negb (is_skipped (List.length v) idx j))
                            js))).
    { induction 1 as [|j js Hj _ [IH1 IH2]].
      - split; [simpl; lia | reflexivity].
      - cbn [map filter zsum fold_right].
        fold (zsum (map (fun j => nth j c' 0%Z) js)).
        assert (Hcons : forall (x : Q) (l : list Q), total (x :: l) == x + total l)
          by reflexivity.
        rewrite Hcons, IH1, IH2, (Hcell j Hj).
        destruct (is_skipped (List.length v) idx j); cbn [negb].
        + split; [lia|]. simpl. ring.
        + destruct (Z.ltb_spec 0 n) as [_|]; [|lia].
          cbn [map List.length]. rewrite Hcons.
          split; [lia | ring]. }
    destruct (Hcount (seq 0 (List.length v))) as [Hc1 Hc2].
    { apply Forall_forall. intros j Hj. apply in_seq in Hj. lia. }
    assert (Hsum : zsum c' = (n * Z.of_nat (List.length kept))%Z).
    { rewrite zsum_by_index, Hlen. exact Hc1. }
    exists nodes, weights. split.
    { unfold run, boundary_nodes_polygon. fold v. rewrite Hsel.
      unfold edge_counts. rewrite Hzero. cbn [bind].
      destruct (Z.ltb_spec (zsum c') 0) as [|_];
        [pose proof (zsum_nonneg c' Hnonneg); lia|].
      fold lens. rewrite Hloop. reflexivity. }
    split; [rewrite HlN, Hsum; nia|].
    split; [rewrite HlW, Hsum; nia|].
    rewrite Htot. exact Hc2.
  - intro Hbad. unfold run, boundary_nodes_polygon. fold v. rewrite Hsel.
    unfold edge_counts. rewrite zero_at_out_of_range; [reflexivity|].
    rewrite repeat_length. exact Hbad.
Qed.

(** The unit square with two points per edge and [skip = [-1, 0]], the
    two edges at the first vertex: four nodes on the two other edges,
    and weights that add up to their total length 2. *)
Lemma boundary_nodes_polygon_skip_witness :
  exists nodes weights,
    boundary_nodes_polygon Fixture.numpy Samples.numerics Samples.polygon_utils
      (ComplexVertices Samples.mesh_vertices) (SameOnEachEdge 2) "even"
      (Some [-1; 0]%Z)
    = Selected (Ok (map Some nodes, map Some weights))
    /\ List.length nodes = 4%nat
    /\ total weights == 2.
Proof.
  destruct (boundary_nodes_polygon_skip Fixture.numpy Samples.numerics
              Samples.polygon_utils (ComplexVertices Samples.mesh_vertices)
              2 [-1; 0]%Z) as [H _].
  - lia.
  - reflexivity.
  - reflexivity.
  - destruct H as (nodes & weights & Hrun & HlN & _ & Htot).
    + repeat constructor; vm_compute; discriminate.
    + exists nodes, weights. split; [exact Hrun|]. split; [exact HlN|].
      rewrite Htot. vm_compute. reflexivity.
Defined.

(** ** Cubature on a triangular mesh *)

Lemma gather_and_areas (mesh_vertices : list (Q * Q))
    (triangles : list (nat * nat * nat)) :
  let in_range (t : nat * nat * nat) :=
    let '(i0, i1, i2) := t in
    Nat.ltb i0 (List.length mesh_vertices)
    && Nat.ltb i1 (List.length mesh_vertices)
    && Nat.ltb i2 (List.length mesh_vertices) in
  if forallb in_range triangles then
    exists tri,
      gather_triangles mesh_vertices triangles = Ok tri
      /\ triangle_areas mesh_vertices triangles
         = Ok (map (fun t : complex * complex * complex =>
                      let '(v0, v1, v2) := t in triangle_area v0 v1 v2) tri)
      /\ List.length tri = List.length triangles
  else gather_triangles mesh_vertices triangles = Raise IndexError.
Proof.
  intro in_range.
  induction triangles as [|[[i0 i1] i2] rest IH]; simpl.
  - exists []. repeat split.
  - destruct (nth_error mesh_vertices i0) as [v0|] eqn:E0.
    2:{ apply nth_error_None in E0. apply Nat.ltb_ge in E0.
        rewrite E0. reflexivity. }
    destruct (nth_error mesh_vertices i1) as [v1|] eqn:E1.
    2:{ apply nth_error_None in E1. apply Nat.ltb_ge in E1.
        rewrite E1, andb_false_r. reflexivity. }
    destruct (nth_error mesh_vertices i2) as [v2|] eqn:E2.
    2:{ apply nth_error_None in E2. apply Nat.ltb_ge in E2.
        rewrite E2, andb_false_r. reflexivity. }
    assert (H0 : Nat.ltb i0 (List.length mesh_vertices) = true)
      by (apply Nat.ltb_lt; apply nth_error_Some; congruence).
    assert (H1 : Nat.ltb i1 (List.length mesh_vertices) = true)
      by (apply Nat.ltb_lt; apply nth_error_Some; congruence).
    assert (H2 : Nat.ltb i2 (List.length mesh_vertices) = true)
      by (apply Nat.ltb_lt; apply nth_error_Some; congruence).
    rewrite H0, H1, H2. cbn [andb].
    destruct (forallb in_range rest).
    + destruct IH as (tri & Hg & Ha & Hl). rewrite Hg, Ha. cbn [bind].
      exists ((v0, v1, v2) :: tri). repeat split. simpl. congruence.
    + rewrite IH. reflexivity.
Qed.

Lemma total_outer (areas bw : list Q) :
  total (flat_map (fun a => map (fun w => a * w) bw) areas)
  == total areas * total bw.
Proof.
  induction areas as [|a areas IH].
  - unfold total. simpl. ring.
  - cbn [flat_map]. rewrite total_app, IH.
    assert (Hrow : total (map (fun w => a * w) bw) == a * total bw).
    { unfold total. clear IH. induction bw as [|w bw IHb]; simpl.
      - ring.
      - rewrite IHb. ring. }
    rewrite Hrow.
    assert (Hcons : total (a :: areas) == a + total areas) by reflexivity.
    rewrite Hcons. ring.
Qed.

(** X23.  [tri_quad] on a mesh given by its points and triangles.  If a
    vertex index of some triangle is out of range the call raises
    [IndexError], before the cubature table is consulted.  Otherwise a
    missing table entry gives the undefined-rule error, and for a table
    entry of [R] rows the call returns [R] nodes and [R] weights per
    triangle, the weights add up to the sum of the triangle areas times
    the sum of the table weights, and they are non-negative when the
    table weights are. *)
Theorem tri_quad_weights (rules : string -> nat -> option (list bary_row))
    (mesh_vertices : list (Q * Q)) (triangles : list (nat * nat * nat))
    (kind : string) (deg : nat) :
  let in_range (t : nat * nat * nat) :=
    let '(i0, i1, i2) := t in
    Nat.ltb i0 (List.length mesh_vertices)
    && Nat.ltb i1 (List.length mesh_vertices)
    && Nat.ltb i2 (List.length mesh_vertices) in
  let out := tri_quad rules mesh_vertices triangles kind deg in
  (forallb in_range triangles = false -> out = Raise IndexError)
  /\ (forallb in_range triangles = true ->
      rules kind deg = None ->
      out = Raise (ValueError [Lit "rule of kind '"; Lit kind;
                               Lit "' and degree "; FmtNat deg;
                               Lit " is not defined"]))
  /\ (forallb in_range triangles = true ->
      forall arr, rules kind deg = Some arr ->
      exists nodes weights areas,
        out = Ok (nodes, weights)
        /\ triangle_areas mesh_vertices triangles = Ok areas
        /\ List.length nodes = (List.length triangles * List.length arr)%nat
        /\ List.length weights = (List.length triangles * List.length arr)%nat
        /\ total weights == total areas * total (map snd arr)
        /\ (Forall (fun r : bary_row => 0 <= snd r) arr ->
            Forall (fun w => 0 <= w) weights)).
Proof.
  intros in_range out.
  pose proof (gather_and_areas mesh_vertices triangles) as H.
  cbv zeta in H. fold in_range in H.
  unfold out, tri_quad, get_cubature_rule.
  destruct (forallb in_range triangles).
  2:{ split; [intros _; rewrite H; reflexivity|].
      split; intro; discriminate. }
  destruct H as (tri & Hg & Ha & Hl).
  split; [intro; discriminate|].
  rewrite Hg, Ha. cbn [bind].
  split.
  - intros _ Hnone. rewrite Hnone. reflexivity.
  - intros _ arr Hsome. rewrite Hsome. cbn [bind].
    eexists _, _, _. split; [reflexivity|]. split; [reflexivity|].
    split.
    { rewrite (flat_map_constant_length (c := List.length arr)).
      - lia.
      - intros t _. rewrite !length_map. reflexivity. }
    split.
    { rewrite (flat_map_constant_length (c := List.length arr)).
      - rewrite length_map. lia.
      - intros a _. rewrite !length_map. reflexivity. }
    split; [apply total_outer|].
    intro Hw. apply Forall_forall. intros w Hin.
    apply in_flat_map in Hin. destruct Hin as (a & Ha' & Hin).
    apply in_map_iff in Hin. destruct Hin as (bw & Hbw & Hin).
    apply in_map_iff in Hin. destruct Hin as (r & Hr & Hin).
    apply in_map_iff in Ha'. destruct Ha' as ([[v0 v1] v2] & Hv & _).
    subst w a bw. apply Qmult_le_0_compat.
    + apply triangle_area_nonneg_aux.
    + rewrite Forall_forall in Hw. apply Hw. exact Hin.
Qed.

(** The unit square cut into two triangles, with a table that holds the
    centroid rule under the key ('centroid', 1): two nodes, and weights
    that add up to the area 1. *)
Lemma tri_quad_weights_witness :
  exists nodes weights,
    tri_quad (fun kind deg =>
                if String.eqb kind "centroid" && Nat.eqb deg 1
                then Some [(1 # 3, 1 # 3, 1 # 3, 1)] else None)
             Samples.mesh_vertices [(0, 1, 2); (0, 2, 3)]%nat "centroid" 1
    = Ok (nodes, weights)
    /\ List.length nodes = 2%nat
    /\ total weights == 1.
Proof.
  destruct (tri_quad_weights
              (fun kind deg =>
                 if String.eqb kind "centroid" && Nat.eqb deg 1
                 then Some [(1 # 3, 1 # 3, 1 # 3, 1)] else None)
              Samples.mesh_vertices [(0, 1, 2); (0, 2, 3)]%nat "centroid" 1)
    as (_ & _ & H).
  destruct (H eq_refl _ eq_refl)
    as (nodes & weights & areas & Hrun & Hareas & Hn & _ & Htot & _).
  exists nodes, weights. split; [exact Hrun|]. split; [exact Hn|].
  rewrite Htot. vm_compute in Hareas. inversion Hareas. vm_compute. reflexivity.
Defined.
